(** * AgroSat: the analysis pipeline of [server.ts]

    A shallow embedding of the request handlers of [server.ts] that the
    specification talks about: the geo-coordinate helpers, the seasonal-norm
    table, the weather lookup with its WMO-code mapping, the stress-cause
    classifier, the AI-insight stage, the synthetic fallback and the
    [/api/analyze] orchestrator with its three writes to the store.

    Numbers.  JavaScript numbers are modelled as rationals plus [NaN] (type
    [jsnum]); no computation of the handler yields an infinity.  Values
    that come out of a JSON document are [undefined], [null] or a number.
    In the weather lookup the readings go through [Math.round] and
    [toFixed], whose results depend on how the doubles round: there every
    operation rounds to the nearest double (module [Binary64]).  Elsewhere
    the arithmetic is exact, which stands for the doubles.

    The outside world.  What the external services answer during one
    request (imagery catalogue, forecast provider, language model, the
    store's transport, the random draws, the clock) is a record of type
    [World]; the handlers are functions of it and of the store. *)

From Stdlib Require Import ZArith QArith Qabs Qround Qpower Lia Lqa.
From Stdlib Require Import Ascii String List Bool Sorted.
From stdpp Require Import base option list gmap strings.

Local Open Scope Z_scope.
Local Open Scope string_scope.

(** ** JavaScript numbers *)

Module JS.

Inductive jsnum : Type :=
| Num (q : Q)
| NaN.

Definition isFinite (n : jsnum) : bool :=
  match n with Num _ => true | NaN => false end.

Definition of_Z (z : Z) : jsnum := Num (inject_Z z).

(** Relational operators: every comparison with [NaN] is false. *)
Definition lt (a b : jsnum) : bool :=
  match a, b with
  | Num x, Num y => negb (Qle_bool y x)
  | _, _ => false
  end.

Definition le (a b : jsnum) : bool :=
  match a, b with
  | Num x, Num y => Qle_bool x y
  | _, _ => false
  end.

Definition gt (a b : jsnum) : bool := lt b a.
Definition ge (a b : jsnum) : bool := le b a.

(** [===] on numbers: [NaN] is not equal to itself. *)
Definition strict_eq (a b : jsnum) : bool :=
  match a, b with
  | Num x, Num y => Qeq_bool x y
  | _, _ => false
  end.

Definition add (a b : jsnum) : jsnum :=
  match a, b with
  | Num x, Num y => Num (x + y)
  | _, _ => NaN
  end.

Definition sub (a b : jsnum) : jsnum :=
  match a, b with
  | Num x, Num y => Num (x - y)
  | _, _ => NaN
  end.

Definition mul (a b : jsnum) : jsnum :=
  match a, b with
  | Num x, Num y => Num (x * y)
  | _, _ => NaN
  end.

(** The exact quotient, which [divide] below rounds to a double.  The
    handler divides by the constant [3.6] only; infinities are outside
    this model, so a zero divisor is given [NaN]. *)
Definition div (a b : jsnum) : jsnum :=
  match a, b with
  | Num x, Num y => if Qeq_bool y 0 then NaN else Num (x / y)
  | _, _ => NaN
  end.

(** [Math.round]: nearest integer, ties towards plus infinity. *)
Definition Math_round (a : jsnum) : jsnum :=
  match a with
  | Num x => of_Z (Qfloor (x + (1 # 2)))
  | NaN => NaN
  end.

(** A value read from a parsed JSON document where a number is expected. *)
Inductive field : Type :=
| Undefined
| Null
| Number (q : Q).

(** [ToNumber]: [undefined] gives [NaN], [null] gives [0]. *)
Definition toNumber (v : field) : jsnum :=
  match v with
  | Undefined => NaN
  | Null => Num 0
  | Number q => Num q
  end.

(** [v || 0] for such a value: [undefined], [null] and [0] are falsy. *)
Definition or_zero (v : field) : Q :=
  match v with
  | Number q => if Qeq_bool q 0 then 0%Q else q
  | _ => 0%Q
  end.

(** [v === 0]: no conversion, so only the number zero qualifies. *)
Definition is_zero (v : field) : bool :=
  match v with
  | Number q => Qeq_bool q 0
  | _ => false
  end.

End JS.

Import JS.

(** ** Doubles

    The binary64 format: 53 significant bits, round to nearest with ties
    to the even significand, gradual underflow below [2^-1022].  A double
    is kept as the rational it stands for.  Overflow is outside the model,
    as the infinities are. *)

Module Binary64.

(** [floor (log2 |x|)] for [x] other than zero: the difference of the bit
    lengths of numerator and denominator, or one less. *)
Definition exponent (x : Q) : Z :=
  let d := Z.log2 (Z.abs (Qnum x)) - Z.log2 (Zpos (Qden x)) in
  if Qle_bool (2 ^ d) (Qabs x) then d else d - 1.

(** The nearest integer, the even one of two that are equally near. *)
Definition nearestEven (m : Q) : Z :=
  let f := Qfloor m in
  match (m - inject_Z f ?= 1 # 2)%Q with
  | Lt => f
  | Gt => f + 1
  | Eq => if Z.even f then f else f + 1
  end.

(** The double nearest to [x]. *)
Definition round (x : Q) : Q :=
  if Qeq_bool x 0 then 0%Q
  else
    let ulp := (2 ^ (Z.max (exponent x) (-1022) - 52))%Q in
    Qred (inject_Z (nearestEven (x / ulp)) * ulp).

End Binary64.

(** A number of a parsed JSON document: the double nearest to the decimal
    numeral of the text. *)
Definition read (v : field) : field :=
  match v with
  | Number q => Number (Binary64.round q)
  | _ => v
  end.

(** [a / b] on doubles. *)
Definition divide (a b : jsnum) : jsnum :=
  match JS.div a b with
  | Num q => Num (Binary64.round q)
  | NaN => NaN
  end.

(** ** Dates

    The handler observes a [Date] through [getMonth()] (0 = January; [NaN]
    for an invalid date) and prints it with [toISOString()]. *)

Record Date : Type := mkDate {
  getMonth : jsnum;
  toISOString : string
}.

(** ** Seasonal norm (server.ts, [getSeasonalNorm]) *)

Definition getSeasonalNorm (crop : string) (date : Date) : Q :=
  let month := getMonth date in
  if JS.ge month (of_Z 10) || JS.le month (of_Z 2) then 0.2%Q
  else if JS.ge month (of_Z 3) && JS.le month (of_Z 4) then 0.45%Q
  else if JS.ge month (of_Z 5) && JS.le month (of_Z 7) then 0.8%Q
  else 0.5%Q.

(** ** Weather lookup (server.ts, the [weather] block of [/api/analyze]) *)

Record Weather : Type := mkWeather {
  temp : jsnum;
  condition : string;
  humidity : jsnum;
  wind : jsnum;
  rain_14d : jsnum
}.

(** The [current] and [daily] objects of the forecast provider's reply.
    A numeric property may be absent ([Undefined]) or [null]. *)
Record Current : Type := mkCurrent {
  temperature_2m : field;
  relative_humidity_2m : field;
  wind_speed_10m : field;
  weather_code : field
}.

(** [precipitation_sum] is [None] when the property is absent or is not an
    array, so that calling [.reduce] on it throws a [TypeError]. *)
Record Daily : Type := mkDaily {
  precipitation_sum : option (list field)
}.

(** What [axios.get] gives: it rejects, or it resolves with a body in which
    [current] and [daily] may each be missing. *)
Inductive WeatherReply : Type :=
| WeatherTransportError
| WeatherBody (current : option Current) (daily : option Daily).

Definition wmoToCondition (code : field) : string :=
  let n := toNumber code in
  if is_zero code then "Clear"
  else if JS.ge n (of_Z 1) && JS.le n (of_Z 3) then "Clouds"
  else if JS.ge n (of_Z 45) && JS.le n (of_Z 48) then "Clouds"
  else if JS.ge n (of_Z 51) && JS.le n (of_Z 67) then "Rain"
  else if JS.ge n (of_Z 71) && JS.le n (of_Z 77) then "Snow"
  else if JS.ge n (of_Z 80) && JS.le n (of_Z 82) then "Rain"
  else if JS.ge n (of_Z 85) && JS.le n (of_Z 86) then "Snow"
  else if JS.ge n (of_Z 95) then "Thunderstorm"
  else "Unknown".

(** [precipitation_sum.reduce((a, b) => (a || 0) + (b || 0), 0)] on the
    doubles of the reply.  The accumulator is a number, so [a || 0] is [a]
    unless [a] is zero; each sum is rounded to a double. *)
Definition rainSum (xs : list field) : Q :=
  fold_left (fun a b => Binary64.round (or_zero (Number a) + or_zero (read b))) xs 0%Q.

(** [parseFloat(x.toFixed(1))] for a double [x].  [toFixed] takes the
    integer [n] for which [n / 10] is nearest to the exact value of [x],
    the larger [n] of two in magnitude, and prints [n / 10]; [parseFloat]
    reads that numeral as a double.  From [1e21] on [toFixed] prints the
    number itself. *)
Definition toFixed1 (x : jsnum) : jsnum :=
  match x with
  | NaN => NaN
  | Num q =>
      if Qle_bool (inject_Z (10 ^ 21)) (Qabs q) then Num q
      else
        let n := Qfloor (Qabs q * 10 + (1 # 2)) in
        Num (Binary64.round (if Qle_bool 0 q then n # 10 else (- n) # 10))
  end.

(** The [try] block: [None] stands for an exception thrown inside it.
    The numbers of the reply are read as doubles. *)
Definition weatherFromReply (reply : WeatherReply) : option Weather :=
  match reply with
  | WeatherTransportError => None
  | WeatherBody current daily =>
      match daily with
      | None => None
      | Some d =>
          match precipitation_sum d with
          | None => None
          | Some xs =>
              let rain := rainSum xs in
              match current with
              | None => None
              | Some c =>
                  Some {| temp := Math_round (toNumber (read (temperature_2m c)));
                          condition := wmoToCondition (read (weather_code c));
                          humidity :=
                            Math_round (toNumber (read (relative_humidity_2m c)));
                          wind := toFixed1 (divide (toNumber (read (wind_speed_10m c)))
                                              (Num (Binary64.round 3.6)));
                          rain_14d := Math_round (Num rain) |}
              end
          end
      end
  end.

(** The [catch] block: a reading chosen by calendar month. *)
Definition seasonalWeather (currentMonth : Date) : Weather :=
  let month := getMonth currentMonth in
  let isWinter := JS.ge month (of_Z 10) || JS.le month (of_Z 2) in
  let isSummer := JS.ge month (of_Z 5) && JS.le month (of_Z 7) in
  {| temp := if isWinter then of_Z (-5) else if isSummer then of_Z 25 else of_Z 10;
     condition := if isWinter then "Snow" else if isSummer then "Clear" else "Clouds";
     humidity := of_Z 60;
     wind := of_Z 5;
     rain_14d := of_Z 0 |}.

Definition fetchWeather (reply : WeatherReply) (currentMonth : Date) : Weather :=
  match weatherFromReply reply with
  | Some w => w
  | None => seasonalWeather currentMonth
  end.

(** ** Stress-cause classifier (server.ts, [stressCause]) *)

Definition stressCause (ndviDeviation : jsnum) (weather : Weather)
    (ndvi_average : jsnum) : string :=
  if JS.lt ndviDeviation (Num (-0.15)) then
    if JS.lt (rain_14d weather) (of_Z 5) && JS.gt (temp weather) (of_Z 25)
    then "Дефицит влаги"
    else if JS.gt (temp weather) (of_Z 30) then "Тепловой стресс"
    else if JS.gt (humidity weather) (of_Z 85) then "Риск заболеваний (Влажность)"
    else if JS.lt (temp weather) (of_Z 0) && JS.gt ndvi_average (Num 0.3)
    then "Риск вымерзания"
    else "Задержка вегетации / Питание"
  else "Нет явного стресса".

(** ** Geo-coordinate helpers (server.ts, lines 37-78)

    A frontend vertex is a pair [[lat, lon]]; a GeoJSON position is
    [[lon, lat]]. *)

Definition Position : Type := (jsnum * jsnum)%type.

Record GeoJSONPoint : Type := mkPoint {
  point_type : string;
  point_coordinates : Position
}.

Record GeoJSONPolygon : Type := mkPolygon {
  polygon_type : string;
  polygon_coordinates : list (list Position)
}.

Record Coordinate : Type := mkCoordinate {
  lat : jsnum;
  lon : jsnum
}.

Definition swap (p : Position) : Position := (snd p, fst p).

(** [coordinates[0][k] !== coordinates[coordinates.length - 1][k]] for
    [k = 0] or [k = 1]. *)
Definition differs (a b : Position) : bool :=
  negb (strict_eq (fst a) (fst b)) || negb (strict_eq (snd a) (snd b)).

Definition toGeoJSONPolygon (points : list Position) : option GeoJSONPolygon :=
  if (length points <? 3)%nat then None
  else
    let coordinates := map swap points in
    match coordinates, last coordinates with
    | first :: _, Some final =>
        let coordinates' :=
          if differs first final then (coordinates ++ [first])%list else coordinates in
        Some {| polygon_type := "Polygon"; polygon_coordinates := [coordinates'] |}
    | _, _ => None
    end.

Definition fromGeoJSONPolygon (geoJSON : option GeoJSONPolygon) : list Position :=
  match geoJSON with
  | None => []
  | Some g =>
      match polygon_coordinates g with
      | [] => []
      | ring :: _ => map swap ring
      end
  end.

Definition toGeoJSONPoint (lat lon : jsnum) : GeoJSONPoint :=
  {| point_type := "Point"; point_coordinates := (lon, lat) |}.

Definition fromGeoJSONPoint (geoJSON : option GeoJSONPoint) : Coordinate :=
  match geoJSON with
  | None => {| lat := of_Z 0; lon := of_Z 0 |}
  | Some g => {| lat := snd (point_coordinates g); lon := fst (point_coordinates g) |}
  end.

(** ** JSON values, request bodies and configuration *)

#[warnings="-register-all"] Inductive jsval : Type :=
| JNull
| JBool (b : bool)
| JNumber (q : Q)
| JString (s : string)
| JArray (items : list jsval)
| JObject (props : list (string * jsval)).

(** A property of [req.body]: [None] when the property is absent. *)
Definition truthy (v : option jsval) : bool :=
  match v with
  | None => false
  | Some JNull => false
  | Some (JBool b) => b
  | Some (JNumber q) => negb (Qeq_bool q 0)
  | Some (JString s) => negb (String.eqb s "")
  | Some (JArray _) => true
  | Some (JObject _) => true
  end.

(** The environment variables the server reads; an unset or empty variable
    is falsy. *)
Record Config : Type := mkConfig {
  COPERNICUS_USER : option string;
  COPERNICUS_PASS : option string;
  GROQ_API_KEY : option string;
  GEMINI_API_KEY : option string
}.

Definition configured (v : option string) : bool :=
  match v with
  | Some s => negb (String.eqb s "")
  | None => false
  end.

(** ** Imagery lookup and synthetic fallback *)

Record AnalysisBase : Type := mkBase {
  ndvi_average : jsnum;
  healthy_percent : jsnum;
  moderate_percent : jsnum;
  stressed_percent : jsnum;
  alert : bool;
  map_url : option string;
  product_id : option string;
  acquisition_date : option string
}.

(** Outcome of the token exchange and catalogue search: any exception inside
    the [try] block, an empty result set, or the first product found. *)
Inductive ImageryReply : Type :=
| ImageryError
| ImageryEmpty
| ImageryProduct (Id : string) (Start : string).

Definition imageryBase (cfg : Config) (reply : ImageryReply) : option AnalysisBase :=
  if configured (COPERNICUS_USER cfg) && configured (COPERNICUS_PASS cfg) then
    match reply with
    | ImageryProduct Id Start =>
        Some {| ndvi_average := Num 0.62;
                healthy_percent := of_Z 75;
                moderate_percent := of_Z 15;
                stressed_percent := of_Z 10;
                alert := false;
                map_url := Some ("https://catalogue.dataspace.copernicus.eu/odata/v1/Products("
                                 ++ Id ++ ")/$value");
                product_id := Some Id;
                acquisition_date := Some Start |}
    | _ => None
    end
  else None.

(** The five successive results of [Math.random()] in the fallback. *)
Record Draws : Type := mkDraws {
  draw_ndvi : Q;
  draw_healthy : Q;
  draw_moderate : Q;
  draw_stressed : Q;
  draw_alert : Q
}.

Definition unit_draw (r : Q) : Prop := (0 <= r /\ r < 1)%Q.

Definition valid_draws (d : Draws) : Prop :=
  unit_draw (draw_ndvi d) /\ unit_draw (draw_healthy d) /\
  unit_draw (draw_moderate d) /\ unit_draw (draw_stressed d) /\
  unit_draw (draw_alert d).

Definition fallbackBase (d : Draws) : AnalysisBase :=
  {| ndvi_average := JS.add (Num 0.58) (JS.mul (Num (draw_ndvi d)) (Num 0.2));
     healthy_percent := JS.add (of_Z 65) (JS.mul (Num (draw_healthy d)) (of_Z 20));
     moderate_percent := JS.add (of_Z 20) (JS.mul (Num (draw_moderate d)) (of_Z 10));
     stressed_percent := JS.add (of_Z 5) (JS.mul (Num (draw_stressed d)) (of_Z 5));
     alert := JS.gt (Num (draw_alert d)) (Num 0.8);
     map_url := None;
     product_id := None;
     acquisition_date := None |}.

Definition analysisBase (cfg : Config) (reply : ImageryReply) (d : Draws) : AnalysisBase :=
  match imageryBase cfg reply with
  | Some b => b
  | None => fallbackBase d
  end.

(** ** Text of the language model's reply

    Strings are kept in the UTF-8 form in which the source file stores its
    literals.  The fence pattern is ASCII, so matching it on bytes is
    matching it on characters. *)

Definition code (c : ascii) : N := N_of_ascii c.

Definition tick (c : ascii) : bool := (code c =? 96)%N.

(** [text.replace(/```json|```/g, '')]: scan from the left; at a fence,
    drop it (with the [json] tag when it follows) and go on after it. *)
Fixpoint stripFences (s : string) : string :=
  match s with
  | EmptyString => EmptyString
  | String c1 r1 =>
      match r1 with
      | String c2 (String c3 r3) =>
          if tick c1 && tick c2 && tick c3 then
            match r3 with
            | String j (String s' (String o (String n r7))) =>
                if (code j =? 106)%N && (code s' =? 115)%N &&
                   (code o =? 111)%N && (code n =? 110)%N
                then stripFences r7
                else stripFences r3
            | _ => stripFences r3
            end
          else String c1 (stripFences r1)
      | _ => String c1 (stripFences r1)
      end
  end.

(** White space and line terminators of ECMAScript, by UTF-8 length:
    U+0009..U+000D and U+0020; U+00A0; U+1680, U+2000..U+200A, U+2028,
    U+2029, U+202F, U+205F, U+3000 and U+FEFF. *)
Definition ws1 (a : ascii) : bool :=
  let x := code a in ((9 <=? x) && (x <=? 13) || (x =? 32))%N.

Definition ws2 (a b : ascii) : bool :=
  ((code a =? 194) && (code b =? 160))%N.

Definition ws3 (a b c : ascii) : bool :=
  let x := code a in
  let y := code b in
  let z := code c in
  ((x =? 225) && (y =? 154) && (z =? 128) ||
   (x =? 226) && (y =? 128) && ((128 <=? z) && (z <=? 138) || (z =? 168) || (z =? 169) || (z =? 175)) ||
   (x =? 226) && (y =? 129) && (z =? 159) ||
   (x =? 227) && (y =? 128) && (z =? 128) ||
   (x =? 239) && (y =? 187) && (z =? 191))%N.

Fixpoint trimStart (s : string) : string :=
  match s with
  | EmptyString => EmptyString
  | String a r1 =>
      if ws1 a then trimStart r1
      else
        match r1 with
        | EmptyString => s
        | String b r2 =>
            if ws2 a b then trimStart r2
            else
              match r2 with
              | EmptyString => s
              | String c r3 => if ws3 a b c then trimStart r3 else s
              end
        end
  end.

Definition allWhite (s : string) : bool :=
  match trimStart s with
  | EmptyString => true
  | _ => false
  end.

Fixpoint trimEnd (s : string) : string :=
  match s with
  | EmptyString => EmptyString
  | String a r => if allWhite s then EmptyString else String a (trimEnd r)
  end.

Definition trim (s : string) : string := trimEnd (trimStart s).

(** Does the text still contain a code-fence marker? *)
Fixpoint hasFence (s : string) : bool :=
  match s with
  | EmptyString => false
  | String a r =>
      match r with
      | String b (String c _) => tick a && tick b && tick c || hasFence r
      | _ => false
      end
  end.

(** ** AI insight (server.ts, [aiInsight]) *)

(** What a provider call gives: it throws (the call rejects, or the reply
    has no [choices] array), or it yields the text property, which may be
    absent. *)
Inductive LLMReply : Type :=
| LLMThrows
| LLMText (content : option string).

Definition placeholderInsight : jsval :=
  JObject [("status_title", JString "Анализ завершен");
           ("summary", JString "Данные обработаны.");
           ("weather_impact", JString "Нет данных.");
           ("recommendations", JArray [])].

(** [content || ""]. *)
Definition or_empty (content : option string) : string :=
  match content with
  | Some s => s
  | None => ""
  end.

(** The text handed to [JSON.parse]; [None] when the provider call throws. *)
Definition rawResponse (cfg : Config) (groq gemini : LLMReply) : option string :=
  if configured (GROQ_API_KEY cfg) then
    match groq with
    | LLMThrows => None
    | LLMText content => Some (or_empty content)
    end
  else if configured (GEMINI_API_KEY cfg) then
    match gemini with
    | LLMThrows => None
    | LLMText text =>
        if String.eqb (or_empty text) "" then Some ""
        else Some (trim (stripFences (or_empty text)))
    end
  else Some "".

(** [JSON.parse(rawResponse)].  The empty text is never valid JSON, so it
    always raises [SyntaxError]; for any other text [parsed] is what the
    platform's parser gave in this run ([None] for a [SyntaxError]). *)
Definition JSON_parse (parsed : option jsval) (text : string) : option jsval :=
  if String.eqb text "" then None else parsed.

Definition aiInsight (cfg : Config) (groq gemini : LLMReply)
    (parsed : option jsval) : jsval :=
  match rawResponse cfg groq gemini with
  | None => placeholderInsight
  | Some raw =>
      match JSON_parse parsed raw with
      | Some insight => insight
      | None => placeholderInsight
      end
  end.

(** ** The store (supabase_schema.sql)

    Row identifiers (uuids) are numbers drawn from a counter.  The list of
    analyses is kept newest first, which stands for [created_at]. *)

Definition UserId : Type := N.
Definition FieldId : Type := N.

Record AnalysisResult : Type := mkResult {
  base : AnalysisBase;
  ai_insight : jsval;
  weather : Weather;
  stress_cause : string;
  ndvi_deviation : jsnum;
  seasonal_norm : jsnum
}.

(** The [last_analysis] column of a field: the all-zero record written
    when the field is created, or the spread of an analysis result. *)
Inductive Snapshot : Type :=
| InitialSnapshot (date : string)
| ResultSnapshot (result : AnalysisResult) (date : string).

Record FieldRow : Type := mkField {
  user_id : UserId;
  name : string;
  location : GeoJSONPoint;
  polygon : option GeoJSONPolygon;
  area_hectares : jsval;
  crop_type : string;
  last_analysis : Snapshot
}.

Record AnalysisRow : Type := mkAnalysis {
  a_field_id : FieldId;
  a_ndvi_average : jsnum;
  a_healthy_percent : jsnum;
  a_moderate_percent : jsnum;
  a_stressed_percent : jsnum;
  a_weather_data : Weather;
  a_ai_insight : jsval
}.

(** An activity-log row; [details] keeps the values the message is
    rendered from. *)
Inductive Details : Type :=
| FieldAdded (name : option string) (area : option jsval)
| FieldRemoved (id : FieldId)
| AnalysisDone (fieldName : string) (ndvi : jsnum).

Record ActivityRow : Type := mkActivity {
  log_user_id : UserId;
  log_type : string;
  log_details : Details
}.

Record Store : Type := mkStore {
  fields : gmap FieldId FieldRow;
  analyses : list AnalysisRow;
  activity_log : list ActivityRow;
  next_id : N
}.

Definition emptyStore : Store :=
  {| fields := ∅; analyses := []; activity_log := []; next_id := 0%N |}.

(** What the database does with a statement that reaches it, under the
    foreign keys and row-level policies of the schema. *)

(** [select ... from fields where id = ...]: only the caller's own rows
    are visible. *)
Definition db_select_field (user : UserId) (id : option FieldId) (st : Store)
    : option FieldRow :=
  match id with
  | None => None
  | Some i =>
      match fields st !! i with
      | Some f => if (user_id f =? user)%N then Some f else None
      | None => None
      end
  end.

(** [insert into fields]: [name] is [not null]; the row gets a fresh id. *)
Definition db_insert_field (row : FieldRow) (st : Store) : Store :=
  {| fields := <[next_id st := row]> (fields st);
     analyses := analyses st;
     activity_log := activity_log st;
     next_id := N.succ (next_id st) |}.

(** [insert into analyses]: [field_id] must name a field of the caller. *)
Definition db_insert_analysis (user : UserId) (row : AnalysisRow) (st : Store)
    : option Store :=
  match db_select_field user (Some (a_field_id row)) st with
  | Some _ =>
      Some {| fields := fields st;
              analyses := row :: analyses st;
              activity_log := activity_log st;
              next_id := next_id st |}
  | None => None
  end.

(** [update fields set last_analysis = ... where id = ...]: rows of other
    users are not touched. *)
Definition db_update_last_analysis (user : UserId) (id : option FieldId)
    (snapshot : Snapshot) (st : Store) : Store :=
  match id, db_select_field user id st with
  | Some i, Some f =>
      {| fields := <[i := {| user_id := user_id f; name := name f;
                             location := location f; polygon := polygon f;
                             area_hectares := area_hectares f;
                             crop_type := crop_type f;
                             last_analysis := snapshot |}]> (fields st);
         analyses := analyses st;
         activity_log := activity_log st;
         next_id := next_id st |}
  | _, _ => st
  end.

(** [delete from fields where id = ... and user_id = ...]; the analyses
    of the field go with it ([on delete cascade]). *)
Definition db_delete_field (user : UserId) (id : FieldId) (st : Store) : Store :=
  match db_select_field user (Some id) st with
  | Some _ =>
      {| fields := delete id (fields st);
         analyses := filter (fun a => a_field_id a ≠ id) (analyses st);
         activity_log := activity_log st;
         next_id := next_id st |}
  | None => st
  end.

Definition db_insert_activity (row : ActivityRow) (st : Store) : Store :=
  {| fields := fields st;
     analyses := analyses st;
     activity_log := row :: activity_log st;
     next_id := next_id st |}.

(** ** Handlers

    A handler threads the store and may throw.  The client of the store
    never throws at an [await]: a call is [Delivered] (the database runs
    it) or [Failed] (the client resolves with an error object, also when
    the request cannot be sent, and nothing is stored). *)

Record Error : Type := mkError {
  error_code : option string;
  error_message : string
}.

Inductive Delivery : Type :=
| Delivered
| Failed (e : Error).

Inductive outcome (A : Type) : Type :=
| Returned (a : A)
| Thrown (e : Error).

Arguments Returned {A} a.
Arguments Thrown {A} e.

Definition Handler (A : Type) : Type := Store -> outcome A * Store.

Definition ret {A} (a : A) : Handler A := fun st => (Returned a, st).

Definition throw {A} (e : Error) : Handler A := fun st => (Thrown e, st).

Definition bind {A B} (c : Handler A) (k : A -> Handler B) : Handler B :=
  fun st =>
    match c st with
    | (Returned a, st') => k a st'
    | (Thrown e, st') => (Thrown e, st')
    end.

Notation "'let!' x ':=' c 'in' k" := (bind c (fun x => k))
  (at level 10, x name, c at level 100, k at level 200).
Notation "'do!' c 'in' k" := (bind c (fun _ => k))
  (at level 10, c at level 100, k at level 200).

(** [await] of a read: the row, or [null] when the call failed. *)
Definition await_select (d : Delivery) (user : UserId) (id : option FieldId)
    : Handler (option FieldRow) :=
  fun st =>
    match d with
    | Delivered => (Returned (db_select_field user id st), st)
    | Failed _ => (Returned None, st)
    end.

(** [await] of a write whose result object is not looked at. *)
Definition await_write (d : Delivery) (run : Store -> Store) : Handler unit :=
  fun st =>
    match d with
    | Delivered => (Returned tt, run st)
    | Failed _ => (Returned tt, st)
    end.

(** *** [POST /api/analyze] *)

(** [date_from], [date_to] and the numeric forms of [lat] and [lon] only
    shape the catalogue query, whose outcome is [imagery] below. *)
Record AnalyzeBody : Type := mkAnalyzeBody {
  field_id : option FieldId;
  body_lat : option jsval;
  body_lon : option jsval;
  date_from : option string;
  date_to : option string
}.

(** Everything outside the server that one request meets, in the order in
    which the handler asks for it. *)
Record World : Type := mkWorld {
  imagery : ImageryReply;
  draws : Draws;
  now : Date;
  field_lookup : Delivery;
  weather_reply : WeatherReply;
  groq_reply : LLMReply;
  gemini_reply : LLMReply;
  parsed : option jsval;
  write_analysis : Delivery;
  write_field : Delivery;
  write_date : string;
  write_log : Delivery
}.

Inductive Response : Type :=
| Success (result : AnalysisResult)
| Failure (status : Z) (error : string).

Definition success (r : Response) : bool :=
  match r with
  | Success _ => true
  | Failure _ _ => false
  end.

Definition valid_coordinates (body : AnalyzeBody) : bool :=
  truthy (body_lat body) && truthy (body_lon body).

Definition validate (body : AnalyzeBody) : Handler unit :=
  if negb (truthy (body_lat body)) || negb (truthy (body_lon body))
  then throw {| error_code := None;
                error_message := "Latitude and Longitude are required for analysis." |}
  else ret tt.

(** [s || fallback] for a text column. *)
Definition or_text (s fallback : string) : string :=
  if String.eqb s "" then fallback else s.

(** The result object once all stages have filled it in. *)
Definition assemble (cfg : Config) (w : World) (fieldData : option FieldRow)
    : AnalysisResult :=
  let analysisResult := analysisBase cfg (imagery w) (draws w) in
  let currentMonth := now w in
  let cropType :=
    match fieldData with
    | Some f => or_text (crop_type f) "Неизвестная культура"
    | None => "Неизвестная культура"
    end in
  let seasonalNorm := getSeasonalNorm cropType currentMonth in
  let ndviDeviation := JS.sub (ndvi_average analysisResult) (Num seasonalNorm) in
  let weather := fetchWeather (weather_reply w) currentMonth in
  let stressCause := stressCause ndviDeviation weather (ndvi_average analysisResult) in
  let aiInsight := aiInsight cfg (groq_reply w) (gemini_reply w) (parsed w) in
  {| base := analysisResult;
     ai_insight := aiInsight;
     weather := weather;
     stress_cause := stressCause;
     ndvi_deviation := ndviDeviation;
     seasonal_norm := Num seasonalNorm |}.

Definition analysisRow (id : FieldId) (r : AnalysisResult) : AnalysisRow :=
  {| a_field_id := id;
     a_ndvi_average := ndvi_average (base r);
     a_healthy_percent := healthy_percent (base r);
     a_moderate_percent := moderate_percent (base r);
     a_stressed_percent := stressed_percent (base r);
     a_weather_data := weather r;
     a_ai_insight := ai_insight r |}.

(** The first write: without a [field_id] the insert violates [not null]
    and stores nothing. *)
Definition saveAnalysis (user : UserId) (id : option FieldId) (r : AnalysisResult)
    (st : Store) : Store :=
  match id with
  | Some i =>
      match db_insert_analysis user (analysisRow i r) st with
      | Some st' => st'
      | None => st
      end
  | None => st
  end.

Definition analyzeHandler (cfg : Config) (w : World) (user : UserId)
    (body : AnalyzeBody) : Handler AnalysisResult :=
  do! validate body in
  let! fieldData := await_select (field_lookup w) user (field_id body) in
  let fieldName :=
    match fieldData with
    | Some f => or_text (name f) "Unknown Field"
    | None => "Unknown Field"
    end in
  let analysisResult := assemble cfg w fieldData in
  do! await_write (write_analysis w) (saveAnalysis user (field_id body) analysisResult) in
  do! await_write (write_field w)
        (db_update_last_analysis user (field_id body)
           (ResultSnapshot analysisResult (write_date w))) in
  do! await_write (write_log w)
        (db_insert_activity
           {| log_user_id := user; log_type := "analysis";
              log_details := AnalysisDone fieldName (ndvi_average (base analysisResult)) |}) in
  ret analysisResult.

(** The outer [try]/[catch]: a thrown error becomes a 500 reply. *)
Definition analyze (cfg : Config) (w : World) (user : UserId) (body : AnalyzeBody)
    (st : Store) : Response * Store :=
  match analyzeHandler cfg w user body st with
  | (Returned r, st') => (Success r, st')
  | (Thrown e, st') => (Failure 500 (error_message e), st')
  end.

(** *** [POST /api/fields] and [DELETE /api/fields/:id] *)

Record FieldBody : Type := mkFieldBody {
  new_name : option string;
  new_lat : jsnum;
  new_lon : jsnum;
  new_coordinates : option Coordinate;
  new_area_hectares : option jsval;
  new_crop_type : option string;
  new_polygon : option (list Position)
}.

Definition newField (user : UserId) (body : FieldBody) (date : string)
    (fieldName : string) : FieldRow :=
  let finalLat := match new_coordinates body with Some c => lat c | None => new_lat body end in
  let finalLon := match new_coordinates body with Some c => lon c | None => new_lon body end in
  {| user_id := user;
     name := fieldName;
     location := toGeoJSONPoint finalLat finalLon;
     polygon := match new_polygon body with
                | Some p => toGeoJSONPolygon p
                | None => None
                end;
     area_hectares := if truthy (new_area_hectares body)
                      then default (JNumber 0) (new_area_hectares body)
                      else JNumber 0;
     crop_type := or_text (or_empty (new_crop_type body)) "Пшеница";
     last_analysis := InitialSnapshot date |}.

(** The insert, whose error object the handler does look at. *)
Definition await_insert_field (d : Delivery) (user : UserId) (body : FieldBody)
    (date : string) : Handler FieldRow :=
  fun st =>
    match d with
    | Delivered =>
        match new_name body with
        | Some n => let row := newField user body date n in
                    (Returned row, db_insert_field row st)
        | None => (Thrown {| error_code := Some "23502";
                             error_message := "null value in column name" |}, st)
        end
    | Failed e => (Thrown e, st)
    end.

Definition createFieldHandler (insert log : Delivery) (date : string)
    (user : UserId) (body : FieldBody) : Handler FieldRow :=
  let! data := await_insert_field insert user body date in
  do! await_write log
        (db_insert_activity
           {| log_user_id := user; log_type := "create_field";
              log_details := FieldAdded (new_name body) (new_area_hectares body) |}) in
  ret data.

Definition createField (insert log : Delivery) (date : string) (user : UserId)
    (body : FieldBody) (st : Store) : outcome FieldRow * Store :=
  createFieldHandler insert log date user body st.

(** The delete, whose error object is thrown when present. *)
Definition await_delete (d : Delivery) (user : UserId) (id : FieldId) : Handler unit :=
  fun st =>
    match d with
    | Delivered => (Returned tt, db_delete_field user id st)
    | Failed e => (Thrown e, st)
    end.

Definition deleteField (delete log : Delivery) (user : UserId) (id : FieldId)
    (st : Store) : outcome unit * Store :=
  (do! await_delete delete user id in
   await_write log
     (db_insert_activity
        {| log_user_id := user; log_type := "delete_field";
           log_details := FieldRemoved id |})) st.

(** ** Reachable stores

    The three handlers that write to [fields] and [analyses], each request
    served from its first statement to its last before the next one
    starts. *)

Inductive step : Store -> Store -> Prop :=
| step_create insert log date user body st :
    step st (snd (createField insert log date user body st))
| step_delete delete log user id st :
    step st (snd (deleteField delete log user id st))
| step_analyze cfg w user body st :
    step st (snd (analyze cfg w user body st)).

Inductive reachable : Store -> Prop :=
| reachable_empty : reachable emptyStore
| reachable_step st st' : reachable st -> step st st' -> reachable st'.

(** The newest analysis of a field, and what it means for a snapshot to
    carry the values of an analysis row. *)
Definition latestAnalysis (id : FieldId) (st : Store) : option AnalysisRow :=
  head (filter (fun a => a_field_id a = id) (analyses st)).

Definition snapshotOf (a : AnalysisRow) (s : Snapshot) : Prop :=
  match s with
  | InitialSnapshot _ => False
  | ResultSnapshot r _ => analysisRow (a_field_id a) r = a
  end.

(** ** Overlapping requests

    A handler gives up control at each [await], so the statements of two
    requests reach the database in any order that keeps the order inside
    each request.  Once a request has done its reads, what is left of it
    is a list of writes, each with the outcome of its call. *)

Inductive Write : Type :=
| InsertField (row : FieldRow)
| InsertAnalysis (user : UserId) (id : option FieldId) (r : AnalysisResult)
| UpdateSnapshot (user : UserId) (id : option FieldId) (snapshot : Snapshot)
| DeleteField (user : UserId) (id : FieldId)
| InsertActivity (row : ActivityRow).

Definition perform (wr : Write) (st : Store) : Store :=
  match wr with
  | InsertField row => db_insert_field row st
  | InsertAnalysis user id r => saveAnalysis user id r st
  | UpdateSnapshot user id snapshot => db_update_last_analysis user id snapshot st
  | DeleteField user id => db_delete_field user id st
  | InsertActivity row => db_insert_activity row st
  end.

Definition deliver (d : Delivery) (wr : Write) (st : Store) : Store :=
  match d with
  | Delivered => perform wr st
  | Failed _ => st
  end.

Definition Pending : Type := list (Delivery * Write).

Definition deliverAll (p : Pending) (st : Store) : Store :=
  fold_left (fun s dw => deliver (fst dw) (snd dw) s) p st.

(** What the field lookup of a request gives the handler. *)
Definition fieldDataOf (w : World) (user : UserId) (body : AnalyzeBody) (st : Store)
    : option FieldRow :=
  match field_lookup w with
  | Delivered => db_select_field user (field_id body) st
  | _ => None
  end.

(** The three writes of [/api/analyze], for what the lookup gave. *)
Definition analyzeWrites (cfg : Config) (w : World) (user : UserId) (body : AnalyzeBody)
    (fieldData : option FieldRow) : Pending :=
  let fieldName :=
    match fieldData with
    | Some f => or_text (name f) "Unknown Field"
    | None => "Unknown Field"
    end in
  let analysisResult := assemble cfg w fieldData in
  [(write_analysis w, InsertAnalysis user (field_id body) analysisResult);
   (write_field w,
    UpdateSnapshot user (field_id body) (ResultSnapshot analysisResult (write_date w)));
   (write_log w,
    InsertActivity {| log_user_id := user; log_type := "analysis";
                      log_details := AnalysisDone fieldName
                                       (ndvi_average (base analysisResult)) |})].

(** A request to [/api/analyze] at the moment of its lookup in store [st]:
    nothing is left to do when the validation has turned it down. *)
Definition analyzePending (cfg : Config) (w : World) (user : UserId) (body : AnalyzeBody)
    (st : Store) : Pending :=
  if valid_coordinates body
  then analyzeWrites cfg w user body (fieldDataOf w user body st)
  else [].

(** [POST /api/fields]: the log entry is written only after the insert
    has gone through. *)
Definition createPending (insert log : Delivery) (date : string) (user : UserId)
    (body : FieldBody) : Pending :=
  match insert, new_name body with
  | Delivered, Some n =>
      [(Delivered, InsertField (newField user body date n));
       (log, InsertActivity
               {| log_user_id := user; log_type := "create_field";
                  log_details := FieldAdded (new_name body) (new_area_hectares body) |})]
  | _, _ => []
  end.

(** [DELETE /api/fields/:id]. *)
Definition deletePending (delete log : Delivery) (user : UserId) (id : FieldId) : Pending :=
  match delete with
  | Delivered =>
      [(Delivered, DeleteField user id);
       (log, InsertActivity
               {| log_user_id := user; log_type := "delete_field";
                  log_details := FieldRemoved id |})]
  | Failed _ => []
  end.

(** The store together with the requests in flight.  A request enters
    with its pending writes; at each step one request carries out its
    next write. *)
Inductive running : Store -> list Pending -> Prop :=
| running_empty : running emptyStore []
| running_analyze st ps cfg w user body :
    running st ps -> running st (analyzePending cfg w user body st :: ps)
| running_create st ps insert log date user body :
    running st ps -> running st (createPending insert log date user body :: ps)
| running_delete st ps delete log user id :
    running st ps -> running st (deletePending delete log user id :: ps)
| running_write st before d wr rest after :
    running st (before ++ ((d, wr) :: rest) :: after) ->
    running (deliver d wr st) (before ++ rest :: after).

(** ** Authentication middleware (server.ts, [requireAuth]) *)

Definition space (c : ascii) : bool := (code c =? 32)%N.

(** [s.split(" ")]: one part more than there are spaces. *)
Fixpoint split_space (s : string) : list string :=
  match s with
  | EmptyString => [""]
  | String c r =>
      if space c then "" :: split_space r
      else
        match split_space r with
        | part :: parts => String c part :: parts
        | [] => [String c ""]
        end
  end.

(** What [auth.getUser()] gives for a token: a user, neither user nor
    error, an error object, or a thrown exception (whose message may be
    empty). *)
Inductive AuthAnswer : Type :=
| AuthUser (id : UserId)
| AuthNoUser
| AuthError (message : string)
| AuthThrows (message : string).

(** The middleware either hands the request on, with [req.user] set and a
    client scoped to the token, or answers itself. *)
Inductive Gate : Type :=
| Next (user : UserId) (token : string)
| Refused (status : Z) (error : string).

Definition gateOf (token : string) (answer : AuthAnswer) : Gate :=
  match answer with
  | AuthError message => Refused 401 ("Invalid token: " ++ message)
  | AuthNoUser => Refused 401 "User not found"
  | AuthUser user => Next user token
  | AuthThrows message => Refused 401 ("Unauthorized: " ++ or_text message "Unknown error")
  end.

Definition requireAuth (authorization : option string) (getUser : string -> AuthAnswer)
    : Gate :=
  match authorization with
  | None => Refused 401 "Unauthorized: No header"
  | Some authHeader =>
      if String.eqb authHeader "" then Refused 401 "Unauthorized: No header"
      else
        match split_space authHeader !! 1%nat with
        | None => Refused 401 "Unauthorized: No token"
        | Some token =>
            if String.eqb token "" then Refused 401 "Unauthorized: No token"
            else gateOf token (getUser token)
        end
  end.

(** The header the client sets (App.tsx, [fetchUser] and the axios
    default). *)
Definition bearer (token : string) : string := "Bearer " ++ token.

Fixpoint noSpace (s : string) : bool :=
  match s with
  | EmptyString => true
  | String c r => negb (space c) && noSpace r
  end.

(** ** Error replies of the field routes *)

(** [hay.includes(needle)]. *)
Fixpoint includes (hay needle : string) : bool :=
  String.prefix needle hay ||
  match hay with
  | EmptyString => false
  | String _ rest => includes rest needle
  end.

Definition hasCode (e : Error) (c : string) : bool :=
  match error_code e with
  | Some c' => String.eqb c' c
  | None => false
  end.

Definition tablesMissing (e : Error) : bool :=
  hasCode e "42P01" || hasCode e "PGRST205" ||
  includes (error_message e) "Could not find the table".

Record HttpError : Type := mkHttpError {
  http_status : Z;
  http_error : string;
  http_code : option string
}.

(** The [catch] block of [GET /api/fields] and [POST /api/fields]. *)
Definition fieldsError (e : Error) : HttpError :=
  if tablesMissing e
  then {| http_status := 503; http_error := "Database tables not found";
          http_code := Some "tables_missing" |}
  else {| http_status := 500; http_error := error_message e; http_code := None |}.

(** *** [POST /api/fields], the reply *)

Definition finalCoordinates (body : FieldBody) : Coordinate :=
  match new_coordinates body with
  | Some c => {| lat := lat c; lon := lon c |}
  | None => {| lat := new_lat body; lon := new_lon body |}
  end.

(** [{ ...data, coordinates: { lat: finalLat, lon: finalLon }, polygon }]:
    the stored row with its id; the polygon of the reply is the one of the
    request, which takes the place of the row's. *)
Record CreatedField : Type := mkCreated {
  created_id : FieldId;
  created_row : FieldRow;
  created_coordinates : Coordinate;
  created_polygon : option (list Position)
}.

Definition postFields (insert log : Delivery) (date : string) (user : UserId)
    (body : FieldBody) (st : Store) : (HttpError + CreatedField) * Store :=
  match createField insert log date user body st with
  | (Returned data, st') =>
      (inr {| created_id := next_id st; created_row := data;
              created_coordinates := finalCoordinates body;
              created_polygon := new_polygon body |}, st')
  | (Thrown e, st') => (inl (fieldsError e), st')
  end.

(** *** [GET /api/fields] *)

Record ListedField : Type := mkListed {
  listed_id : FieldId;
  listed_row : FieldRow;
  listed_coordinates : Coordinate;
  listed_polygon : list Position
}.

Definition transformField (kv : FieldId * FieldRow) : ListedField :=
  {| listed_id := fst kv; listed_row := snd kv;
     listed_coordinates := fromGeoJSONPoint (Some (location (snd kv)));
     listed_polygon := fromGeoJSONPolygon (polygon (snd kv)) |}.

Definition getFields (select : Delivery) (user : UserId) (st : Store)
    : HttpError + list ListedField :=
  match select with
  | Delivered =>
      inr (map transformField
             (filter (fun kv => user_id (snd kv) = user) (map_to_list (fields st))))
  | Failed e => inl (fieldsError e)
  end.

(** *** [DELETE /api/fields/:id], the reply *)

Definition deleteFields (delete log : Delivery) (user : UserId) (id : FieldId)
    (st : Store) : (HttpError + bool) * Store :=
  match deleteField delete log user id st with
  | (Returned _, st') => (inr true, st')
  | (Thrown e, st') =>
      (inl {| http_status := 500; http_error := error_message e; http_code := None |}, st')
  end.

(** ** [GET /api/fields/:field_id/history] *)

Definition Qlt_bool (a b : Q) : bool := negb (Qle_bool b a).

Definition Math_max (a b : Q) : Q := if Qle_bool a b then b else a.

Definition Math_min (a b : Q) : Q := if Qle_bool a b then a else b.

(** [parseFloat(x.toFixed(digits))] on a number: ties away from zero, and
    from [1e21] on the number itself. *)
Definition toFixed (digits : nat) (q : Q) : Q :=
  let scale := inject_Z (10 ^ Z.of_nat digits) in
  if Qle_bool (inject_Z (10 ^ 21)) (Qabs q) then q
  else
    let n := Qfloor (Qabs q * scale + (1 # 2)) in
    if Qle_bool 0 q then inject_Z n / scale else inject_Z (- n) / scale.

(** What one round of the mock generator reads from outside: the date of
    the entry (as a time value), [-Math.cos(...)] of its day of the year,
    and four results of [Math.random()]. *)
Record MockInput : Type := mkMockInput {
  mock_date : Z;
  seasonalFactor : Q;
  draw_noise : Q;
  draw_spike : Q;
  draw_moisture : Q;
  draw_temp : Q
}.

Inductive HistoryId : Type :=
| MockId (i : nat)
| AnalysisId (id : N).

Record HistoryEntry : Type := mkEntry {
  h_id : HistoryId;
  h_date : Z;
  h_ndvi_average : jsnum;
  h_moisture : jsnum;
  h_temp : jsnum;
  h_weather_condition : string;
  h_alert : bool;
  h_is_mock : bool
}.

Definition mockEntry (i : nat) (m : MockInput) : HistoryEntry :=
  let seasonalFactor := seasonalFactor m in
  let baseNdvi := (0.5 + seasonalFactor * 0.35)%Q in
  let noise := (draw_noise m * 0.1 - 0.05)%Q in
  let noise := if Qlt_bool 0.85 (draw_spike m) then (noise - 0.15)%Q else noise in
  let ndvi := Math_max 0.1 (Math_min 0.95 (baseNdvi + noise)) in
  let moisture :=
    Math_max 10 (Math_min 90 (50 + seasonalFactor * (-10) + (draw_moisture m * 40 - 20))) in
  let temp := (10 + seasonalFactor * 20 + (draw_temp m * 10 - 5))%Q in
  let condition :=
    if Qlt_bool 80 moisture then "Rain"
    else if Qlt_bool 60 moisture then "Clouds"
    else if Qlt_bool 40 moisture then "Partly Cloudy"
    else "Clear" in
  let condition := if Qlt_bool temp 0 then "Snow" else condition in
  {| h_id := MockId i;
     h_date := mock_date m;
     h_ndvi_average := Num (toFixed 2 ndvi);
     h_moisture := Math_round (Num moisture);
     h_temp := Math_round (Num temp);
     h_weather_condition := condition;
     h_alert := Qlt_bool ndvi (baseNdvi - 0.2);
     h_is_mock := true |}.

(** [Array.from({ length: 104 }).map(...).reverse()]. *)
Definition mockHistory (inputs : nat -> MockInput) : list HistoryEntry :=
  rev (map (fun i => mockEntry i (inputs i)) (seq 0 104)).

(** A row of [analyses] as the select returns it, with the two columns the
    store model does not keep. *)
Record StoredAnalysis : Type := mkStored {
  stored_id : N;
  created_at : Z;
  stored : AnalysisRow
}.

(** [n || fallback] for a number read back from JSON, where [NaN] has
    become [null]. *)
Definition or_number (n : jsnum) (fallback : Z) : jsnum :=
  match n with
  | Num q => if Qeq_bool q 0 then of_Z fallback else Num q
  | NaN => of_Z fallback
  end.

Definition realEntry (a : StoredAnalysis) : HistoryEntry :=
  {| h_id := AnalysisId (stored_id a);
     h_date := created_at a;
     h_ndvi_average := a_ndvi_average (stored a);
     h_moisture := or_number (humidity (a_weather_data (stored a))) 50;
     h_temp := or_number (temp (a_weather_data (stored a))) 20;
     h_weather_condition := or_text (condition (a_weather_data (stored a))) "Unknown";
     h_alert := JS.gt (a_stressed_percent (stored a)) (of_Z 15);
     h_is_mock := false |}.

(** [list.sort((a, b) => time(a) - time(b))]: the sort is stable, so the
    result is that of inserting from the right, each entry before the
    first one that is not earlier. *)
Fixpoint insertByDate (e : HistoryEntry) (l : list HistoryEntry) : list HistoryEntry :=
  match l with
  | [] => [e]
  | x :: rest => if (h_date e <=? h_date x)%Z then e :: l else x :: insertByDate e rest
  end.

Definition sortByDate (l : list HistoryEntry) : list HistoryEntry :=
  fold_right insertByDate [] l.

(** [select * from analyses where field_id = ... order by created_at]:
    only analyses of the caller's own fields are visible. *)
Definition db_select_analyses (user : UserId) (id : FieldId) (st : Store)
    : list AnalysisRow :=
  match db_select_field user (Some id) st with
  | Some _ => rev (filter (fun a => a_field_id a = id) (analyses st))
  | None => []
  end.

(** The error object of the select is not looked at: when the select
    fails the rows are [null] and [realAnalyses || []] leaves the mock
    part alone.  [meta] gives the id and the creation time of the k-th
    row. *)
Definition getHistory (select : Delivery) (user : UserId) (id : FieldId)
    (meta : nat -> N * Z) (inputs : nat -> MockInput) (st : Store)
    : list HistoryEntry :=
  match select with
  | Failed _ => sortByDate (mockHistory inputs ++ [])%list
  | Delivered =>
      let realAnalyses :=
        imap (fun k a => {| stored_id := fst (meta k); created_at := snd (meta k);
                            stored := a |})
             (db_select_analyses user id st) in
      sortByDate (mockHistory inputs ++ map realEntry realAnalyses)%list
  end.

(** ** [POST /api/chat] *)




(** ** The dashboard and the analysis view (Dashboard.tsx, HistoryView.tsx) *)

(** A number after [JSON.stringify] and [JSON.parse]: [NaN] comes back as
    [null]. *)
Definition wire (n : jsnum) : field :=
  match n with
  | Num q => Number q
  | NaN => Null
  end.

Definition snapshot_alert (s : Snapshot) : bool :=
  match s with
  | InitialSnapshot _ => false
  | ResultSnapshot r _ => alert (base r)
  end.

Definition snapshot_healthy_percent (s : Snapshot) : jsnum :=
  match s with
  | InitialSnapshot _ => of_Z 0
  | ResultSnapshot r _ => healthy_percent (base r)
  end.

Record Stats : Type := mkStats {
  total : nat;
  healthy : nat;
  attention : nat;
  critical : nat
}.

Definition isCritical (f : ListedField) : bool :=
  JS.lt (toNumber (wire (snapshot_healthy_percent (last_analysis (listed_row f)))))
        (of_Z 50).

Definition isAlert (f : ListedField) : bool :=
  snapshot_alert (last_analysis (listed_row f)).

(** [stats] of the dashboard, over the list [GET /api/fields] returned. *)
Definition dashboardStats (fields : list ListedField) : Stats :=
  {| total := length fields;
     healthy := length (filter (fun f => isAlert f = false) fields);
     attention := length (filter (fun f => isAlert f = true) fields);
     critical := length (filter (fun f => isCritical f = true) fields) |}.

(** The body [runAnalysis] posts for a listed field. *)
Definition toJSON (n : jsnum) : jsval :=
  match n with
  | Num q => JNumber q
  | NaN => JNull
  end.

Definition runAnalysis (field : ListedField) : AnalyzeBody :=
  {| field_id := Some (listed_id field);
     body_lat := Some (toJSON (lat (listed_coordinates field)));
     body_lon := Some (toJSON (lon (listed_coordinates field)));
     date_from := None;
     date_to := None |}.

(** ** The specification's tables and predicates *)

(** The table as the specification words it, on the zero-indexed month. *)
Definition normOfMonth (month : Z) : Q :=
  if bool_decide (month ∈ [10; 11; 0; 1; 2]) then 0.2%Q
  else if bool_decide (month ∈ [3; 4]) then 0.45%Q
  else if bool_decide (month ∈ [5; 6; 7]) then 0.8%Q
  else 0.5%Q.

(** The condition table as the specification words it: closed ranges of
    weather codes, the last one open above. *)
Definition conditionTable : list (Z * option Z * string) :=
  [(0, Some 0, "Clear"); (1, Some 3, "Clouds"); (45, Some 48, "Clouds");
   (51, Some 67, "Rain"); (71, Some 77, "Snow"); (80, Some 82, "Rain");
   (85, Some 86, "Snow"); (95, None, "Thunderstorm")]%Z.

Definition inRange (q : Q) (row : Z * option Z * string) : bool :=
  Qle_bool (inject_Z (fst (fst row))) q &&
  match snd (fst row) with
  | Some hi => Qle_bool q (inject_Z hi)
  | None => true
  end.

Definition conditionOfCode (q : Q) : string :=
  match find (inRange q) conditionTable with
  | Some row => snd row
  | None => "Unknown"
  end.

Definition conditions : list string :=
  ["Clear"; "Clouds"; "Rain"; "Snow"; "Thunderstorm"; "Unknown"].

(** The rules of the stress classifier, in the order of the specification,
    and a first-match chain over such rules. *)
Definition drought (w : Weather) : bool :=
  JS.lt (rain_14d w) (of_Z 5) && JS.gt (temp w) (of_Z 25).

Definition heatStress (w : Weather) : bool := JS.gt (temp w) (of_Z 30).

Definition diseaseRisk (w : Weather) : bool := JS.gt (humidity w) (of_Z 85).

Definition freezeRisk (w : Weather) (ndvi : jsnum) : bool :=
  JS.lt (temp w) (of_Z 0) && JS.gt ndvi (Num 0.3).

Fixpoint firstMatch (rules : list (bool * string)) (otherwise : string) : string :=
  match rules with
  | [] => otherwise
  | (holds, label) :: rest => if holds then label else firstMatch rest otherwise
  end.

(** A number inside a closed band. *)
Definition within (lo hi : Q) (n : jsnum) : Prop :=
  match n with
  | Num q => (lo <= q /\ q <= hi)%Q
  | NaN => False
  end.

(** Trailing precipitation as the specification words it: the sum of the
    daily values, a missing value counting as zero. *)
Definition missingAsZero (v : field) : Q :=
  match v with
  | Number q => q
  | _ => 0%Q
  end.

Definition precipitationTotal (xs : list field) : Q :=
  fold_right (fun v acc => (missingAsZero v + acc)%Q) 0%Q xs.

(** A daily value of the size the provider reports: absent, or between 0
    and 10000 millimetres. *)
Definition dailyValue (v : field) : Prop :=
  match v with
  | Number q => (0 <= q /\ q <= 10000)%Q
  | _ => True
  end.

(** The synthetic reading of the specification, by zero-indexed month. *)
Definition syntheticReading (month : Z) : Weather :=
  if bool_decide (month ∈ [10; 11; 0; 1; 2]%Z) then
    {| temp := of_Z (-5); condition := "Snow"; humidity := of_Z 60;
       wind := of_Z 5; rain_14d := of_Z 0 |}
  else if bool_decide (month ∈ [5; 6; 7]%Z) then
    {| temp := of_Z 25; condition := "Clear"; humidity := of_Z 60;
       wind := of_Z 5; rain_14d := of_Z 0 |}
  else
    {| temp := of_Z 10; condition := "Clouds"; humidity := of_Z 60;
       wind := of_Z 5; rain_14d := of_Z 0 |}.

(** A transport failure, or a reply that cannot be read: no [current]
    object, no [daily] object, or no [precipitation_sum] array. *)
Definition weatherFailure (reply : WeatherReply) : Prop :=
  match reply with
  | WeatherTransportError => True
  | WeatherBody None _ => True
  | WeatherBody _ None => True
  | WeatherBody (Some _) (Some d) => precipitation_sum d = None
  end.

(** Prefixes of a text: a tick, two ticks, a whole fence. *)
Definition headTick (s : string) : bool :=
  match s with
  | String a _ => tick a
  | EmptyString => false
  end.

Definition fence2 (s : string) : bool :=
  match s with
  | String a r => tick a && headTick r
  | EmptyString => false
  end.

Definition fence3 (s : string) : bool :=
  match s with
  | String a r => tick a && fence2 r
  | EmptyString => false
  end.

(** [t] is [s] with every code-fence marker taken out: a text without
    three ticks in a row is left as it is; otherwise the text up to the
    first three ticks is kept, the ticks are dropped together with the
    [json] tag when it follows them, and the rest is treated likewise.
    (No run of three ticks starts inside [a] exactly when [a] followed by
    two ticks holds none.) *)
Inductive unfenced : string -> string -> Prop :=
| unfenced_none s : hasFence s = false -> unfenced s s
| unfenced_json a b t :
    hasFence (a ++ "``") = false -> unfenced b t ->
    unfenced (a ++ "```json" ++ b) (a ++ t)
| unfenced_bare a b t :
    hasFence (a ++ "``") = false -> String.prefix "json" b = false -> unfenced b t ->
    unfenced (a ++ "```" ++ b) (a ++ t).

(** A text made of white space and line terminators only. *)
Inductive blank : string -> Prop :=
| blank_empty : blank ""
| blank_one a s : ws1 a = true -> blank s -> blank (String a s)
| blank_two a b s : ws2 a b = true -> blank s -> blank (String a (String b s))
| blank_three a b c s :
    ws3 a b c = true -> blank s -> blank (String a (String b (String c s))).

(** [t] is [s] without the white space at its two ends: [s] is [t] between
    two blank texts, and [t] neither starts nor ends with white space. *)
Definition trimmed (s t : string) : Prop :=
  (exists l r, s = l ++ t ++ r /\ blank l /\ blank r) /\
  (forall l t', t = l ++ t' -> blank l -> l = "") /\
  (forall t' r, t = t' ++ r -> blank r -> r = "").

(** When the language-model stage has nothing to parse: the provider
    call throws, no provider is configured, or the text is not JSON. *)
Definition llmCallFails (cfg : Config) (groq gemini : LLMReply) : Prop :=
  (configured (GROQ_API_KEY cfg) = true /\ groq = LLMThrows) \/
  (configured (GROQ_API_KEY cfg) = false /\ configured (GEMINI_API_KEY cfg) = true /\
   gemini = LLMThrows).

Definition llmUnconfigured (cfg : Config) : Prop :=
  configured (GROQ_API_KEY cfg) = false /\ configured (GEMINI_API_KEY cfg) = false.

Definition llmUnparseable (cfg : Config) (groq gemini : LLMReply)
    (parsed : option jsval) : Prop :=
  exists raw, rawResponse cfg groq gemini = Some raw /\ JSON_parse parsed raw = None.

(** The same world with other answers from the language model. *)
Definition withLLM (w : World) (groq gemini : LLMReply) (p : option jsval) : World :=
  {| imagery := imagery w; draws := draws w; now := now w;
     field_lookup := field_lookup w; weather_reply := weather_reply w;
     groq_reply := groq; gemini_reply := gemini; parsed := p;
     write_analysis := write_analysis w; write_field := write_field w;
     write_date := write_date w; write_log := write_log w |}.

(** The same world with another answer from the forecast provider. *)
Definition withWeather (w : World) (reply : WeatherReply) : World :=
  {| imagery := imagery w; draws := draws w; now := now w;
     field_lookup := field_lookup w; weather_reply := reply;
     groq_reply := groq_reply w; gemini_reply := gemini_reply w; parsed := parsed w;
     write_analysis := write_analysis w; write_field := write_field w;
     write_date := write_date w; write_log := write_log w |}.

(** A ring of at least three vertices whose first and last are equal. *)
Definition closedRing (points : list Position) : bool :=
  match points, last points with
  | first :: _, Some final => (3 <=? length points)%nat && negb (differs first final)
  | _, _ => false
  end.

(** Every analysis names a field that is in the store. *)
Definition referencesHold (st : Store) : Prop :=
  forall a, a ∈ analyses st -> exists f, fields st !! a_field_id a = Some f.

(** A handler keeps a property of the store, whatever it returns. *)
Definition preserves (P : Store -> Prop) {A : Type} (h : Handler A) : Prop :=
  forall st, P st -> P (snd (h st)).

(** Every field id in use lies below the counter, so the next insert
    gets an id no field has. *)
Definition idsBelow (st : Store) : Prop :=
  forall i f, fields st !! i = Some f -> (i < next_id st)%N.

(** Two rows of a field that differ at most in the snapshot. *)
Definition sameField (f f' : FieldRow) : Prop :=
  user_id f' = user_id f /\ name f' = name f /\ location f' = location f /\
  polygon f' = polygon f /\ area_hectares f' = area_hectares f /\
  crop_type f' = crop_type f.

(** A snapshot that is the record of a new field or a result on which
    all stages of the orchestrator have worked. *)
Definition assembledSnapshot (s : Snapshot) : Prop :=
  match s with
  | InitialSnapshot _ => True
  | ResultSnapshot r _ => exists cfg w fieldData, r = assemble cfg w fieldData
  end.

Definition snapshotsAssembled (st : Store) : Prop :=
  forall i f, fields st !! i = Some f -> assembledSnapshot (last_analysis f).

(** A write that puts no other snapshot into the store. *)
Definition assembledWrite (wr : Write) : Prop :=
  match wr with
  | InsertField row => assembledSnapshot (last_analysis row)
  | UpdateSnapshot _ _ snapshot => assembledSnapshot snapshot
  | _ => True
  end.

(** Where a snapshot in the store comes from: the creation of the field,
    or a request whose random draws lie in [0,1). *)
Definition producedSnapshot (s : Snapshot) : Prop :=
  match s with
  | InitialSnapshot _ => True
  | ResultSnapshot r _ =>
      exists cfg w fieldData, valid_draws (draws w) /\ r = assemble cfg w fieldData
  end.

Definition neverAnalysed (f : ListedField) : bool :=
  match last_analysis (listed_row f) with
  | InitialSnapshot _ => true
  | ResultSnapshot _ _ => false
  end.

(** The inputs of a mock round are in range. *)
Definition valid_mock (m : MockInput) : Prop :=
  (-1 <= seasonalFactor m /\ seasonalFactor m <= 1)%Q /\
  unit_draw (draw_noise m) /\ unit_draw (draw_spike m) /\
  unit_draw (draw_moisture m) /\ unit_draw (draw_temp m).

(** The order of the history reply. *)
Definition byDate (a b : HistoryEntry) : Prop := (h_date a <= h_date b)%Z.

(** The rows the history select returns, with their ids and times. *)
Definition storedAnalyses (user : UserId) (id : FieldId) (meta : nat -> N * Z)
    (st : Store) : list StoredAnalysis :=
  imap (fun k a => {| stored_id := fst (meta k); created_at := snd (meta k);
                      stored := a |})
       (db_select_analyses user id st).

(** A coordinate that survives the request body: a number other than 0. *)
Definition usable (n : jsnum) : bool :=
  match n with
  | Num q => negb (Qeq_bool q 0)
  | NaN => false
  end.

(** ** Sample inputs *)

(** A reading in which the drought, heat and disease rules all hold. *)
Definition hotDryHumid : Weather :=
  {| temp := of_Z 35; condition := "Clear"; humidity := of_Z 90;
     wind := of_Z 3; rain_14d := of_Z 2 |}.

(** A readable reply: a light breeze, and rain on four days of five. *)
Definition rainyReply : WeatherReply :=
  WeatherBody
    (Some (mkCurrent (Number 14.2) (Number 71) (Number 1.26) (Number 61)))
    (Some (mkDaily (Some [Number 8.6; Number 8.3; Null; Number 4.9; Number 9.7]))).

Definition halfDraws : Draws :=
  {| draw_ndvi := 0.5; draw_healthy := 0.5; draw_moderate := 0.5;
     draw_stressed := 0.5; draw_alert := 0.5 |}.

Definition groqOnly : Config :=
  {| COPERNICUS_USER := None; COPERNICUS_PASS := None;
     GROQ_API_KEY := Some "gsk_live"; GEMINI_API_KEY := None |}.

Definition fencedReply : string := "```json{}```".

Definition geminiOnly : Config :=
  {| COPERNICUS_USER := None; COPERNICUS_PASS := None;
     GROQ_API_KEY := None; GEMINI_API_KEY := Some "AIza_live" |}.

(** A fenced reply on three lines, with white space after the last fence. *)
Definition fencedLines : string :=
  "```json" ++ String "010" ("{}" ++ String "010" "```  ").

Definition openTriangle : list Position :=
  [(of_Z 0, of_Z 0); (of_Z 0, of_Z 1); (of_Z 1, of_Z 1)].

Definition closedTriangle : list Position :=
  [(of_Z 0, of_Z 0); (of_Z 0, of_Z 1); (of_Z 1, of_Z 1); (of_Z 0, of_Z 0)].

Definition noProviders : Config :=
  {| COPERNICUS_USER := None; COPERNICUS_PASS := None;
     GROQ_API_KEY := None; GEMINI_API_KEY := None |}.

Definition fetchFailed : Error :=
  {| error_code := None; error_message := "fetch failed" |}.

(** A run in July with every provider down and the store answering. *)
Definition quietWorld : World :=
  {| imagery := ImageryError; draws := halfDraws;
     now := mkDate (of_Z 6) "2024-07-01T09:00:00.000Z";
     field_lookup := Delivered; weather_reply := WeatherTransportError;
     groq_reply := LLMThrows; gemini_reply := LLMThrows; parsed := None;
     write_analysis := Delivered; write_field := Delivered;
     write_date := "2024-07-01T09:00:02.000Z"; write_log := Delivered |}.

Definition equatorBody : AnalyzeBody :=
  {| field_id := Some 0%N; body_lat := Some (JNumber 0); body_lon := Some (JNumber 37.62);
     date_from := None; date_to := None |}.

Definition moscowBody : AnalyzeBody :=
  {| field_id := Some 0%N; body_lat := Some (JNumber 55.75); body_lon := Some (JNumber 37.62);
     date_from := None; date_to := None |}.

Definition textBody : AnalyzeBody :=
  {| field_id := Some 0%N; body_lat := Some (JString "north"); body_lon := Some (JString "east");
     date_from := None; date_to := None |}.

Definition coordinatesRequired : string :=
  "Latitude and Longitude are required for analysis.".

Definition dbTimeout : Error :=
  {| error_code := Some "57014"; error_message := "canceling statement due to statement timeout" |}.

Definition wheatField : FieldBody :=
  {| new_name := Some "North"; new_lat := Num 55.75; new_lon := Num 37.62;
     new_coordinates := None; new_area_hectares := Some (JNumber 12);
     new_crop_type := None; new_polygon := Some closedTriangle |}.

(** The store after user 1 has added one field. *)
Definition oneField : Store :=
  snd (createField Delivered Delivered "2024-06-30T10:00:00.000Z" 1%N wheatField emptyStore).

(** A July run in which the analysis is stored and the field update
    fails. *)
Definition updateFails : World :=
  {| imagery := ImageryError; draws := halfDraws;
     now := mkDate (of_Z 6) "2024-07-01T09:00:00.000Z";
     field_lookup := Delivered; weather_reply := WeatherTransportError;
     groq_reply := LLMThrows; gemini_reply := LLMThrows; parsed := None;
     write_analysis := Delivered; write_field := Failed dbTimeout;
     write_date := "2024-07-01T09:00:02.000Z"; write_log := Delivered |}.

Definition staleStore : Store :=
  snd (analyze noProviders updateFails 1%N moscowBody oneField).

(** A run a little later, with other draws and every call delivered. *)
Definition laterWorld : World :=
  {| imagery := ImageryError;
     draws := {| draw_ndvi := 0.25; draw_healthy := 0.25; draw_moderate := 0.25;
                 draw_stressed := 0.25; draw_alert := 0.25 |};
     now := mkDate (of_Z 6) "2024-07-01T09:00:01.000Z";
     field_lookup := Delivered; weather_reply := WeatherTransportError;
     groq_reply := LLMThrows; gemini_reply := LLMThrows; parsed := None;
     write_analysis := Delivered; write_field := Delivered;
     write_date := "2024-07-01T09:00:03.000Z"; write_log := Delivered |}.

Definition northField : FieldRow :=
  newField 1%N wheatField "2024-06-30T10:00:00.000Z" "North".

Definition firstResult : AnalysisResult := assemble noProviders quietWorld (Some northField).

Definition secondResult : AnalysisResult := assemble noProviders laterWorld (Some northField).

(** Two requests on the field of [oneField] whose statements overlap: the
    first inserts its analysis, the second inserts its analysis and
    updates the snapshot, and then the first updates the snapshot. *)
Definition overlapStore : Store :=
  db_update_last_analysis 1%N (Some 0%N)
    (ResultSnapshot firstResult "2024-07-01T09:00:02.000Z")
    (db_update_last_analysis 1%N (Some 0%N)
       (ResultSnapshot secondResult "2024-07-01T09:00:03.000Z")
       (saveAnalysis 1%N (Some 0%N) secondResult
          (saveAnalysis 1%N (Some 0%N) firstResult oneField))).

(** A run in which the field lookup fails and the writes are delivered. *)
Definition lookupFails : World :=
  {| imagery := ImageryError; draws := halfDraws;
     now := mkDate (of_Z 6) "2024-07-01T09:00:00.000Z";
     field_lookup := Failed fetchFailed; weather_reply := WeatherTransportError;
     groq_reply := LLMThrows; gemini_reply := LLMThrows; parsed := None;
     write_analysis := Delivered; write_field := Delivered;
     write_date := "2024-07-01T09:00:02.000Z"; write_log := Delivered |}.

(** An auth service that knows one token. *)
Definition oneSession (token : string) : AuthAnswer :=
  if String.eqb token "eyJhbGciOi.payload.sig" then AuthUser 1%N
  else AuthError "invalid JWT".

Definition julyRound : MockInput :=
  {| mock_date := 1719800000000; seasonalFactor := 1; draw_noise := 0;
     draw_spike := 0.9; draw_moisture := 0.5; draw_temp := 0.5 |}.

Definition equatorField : FieldBody :=
  {| new_name := Some "Equator"; new_lat := Num 0; new_lon := Num 37.62;
     new_coordinates := None; new_area_hectares := Some (JNumber 3);
     new_crop_type := Some "Кукуруза"; new_polygon := None |}.

(** * Properties *)

(** ** Running the handler in a proof *)

Ltac unfold_analyze :=
  unfold analyze, analyzeHandler, bind, validate, await_select, await_write, ret, throw.

(** Reduce a handler run, leaving the operations of the database folded. *)
Ltac run :=
  cbn -[saveAnalysis db_update_last_analysis db_select_field db_delete_field
        db_insert_field assemble].

(** One case per outcome of the four calls to the store. *)
Ltac by_deliveries w tac :=
  destruct (field_lookup w); tac;
  destruct (write_analysis w); tac;
  destruct (write_field w); tac;
  destruct (write_log w); tac.

(** ** Numbers *)

Lemma isFinite_add a b : isFinite a = true -> isFinite b = true -> isFinite (JS.add a b) = true.
Proof. destruct a, b; simpl; congruence. Qed.

Lemma isFinite_sub a b : isFinite a = true -> isFinite b = true -> isFinite (JS.sub a b) = true.
Proof. destruct a, b; simpl; congruence. Qed.

Lemma isFinite_mul a b : isFinite a = true -> isFinite b = true -> isFinite (JS.mul a b) = true.
Proof. destruct a, b; simpl; congruence. Qed.

Lemma ge_of_Z (a b : Z) : JS.ge (of_Z a) (of_Z b) = (b <=? a)%Z.
Proof.
  unfold JS.ge, JS.le, of_Z.
  destruct (Z.leb_spec b a) as [H | H].
  - apply Qle_bool_iff. now rewrite <- Zle_Qle.
  - destruct (Qle_bool (inject_Z b) (inject_Z a)) eqn:E; [| reflexivity].
    apply Qle_bool_iff in E. rewrite <- Zle_Qle in E. lia.
Qed.

Lemma le_of_Z (a b : Z) : JS.le (of_Z a) (of_Z b) = (a <=? b)%Z.
Proof. apply (ge_of_Z b a). Qed.

(** ** Doubles *)

Lemma nearestEven_close (m : Q) :
  (Qabs (inject_Z (Binary64.nearestEven m) - m) <= 1 # 2)%Q.
Proof.
  unfold Binary64.nearestEven.
  pose proof (Qfloor_le m) as Hlo. pose proof (Qlt_floor m) as Hhi.
  rewrite inject_Z_plus in Hhi. change (inject_Z 1) with 1%Q in Hhi.
  set (f := Qfloor m) in *.
  apply Qabs_Qle_condition.
  destruct (m - inject_Z f ?= 1 # 2)%Q eqn:C.
  - apply Qeq_alt in C.
    destruct (Z.even f); [| rewrite inject_Z_plus; change (inject_Z 1) with 1%Q];
      split; lra.
  - apply Qlt_alt in C. split; lra.
  - apply Qgt_alt in C. rewrite inject_Z_plus. change (inject_Z 1) with 1%Q. split; lra.
Qed.

Lemma two_not_zero : ~ (2 == 0)%Q.
Proof. discriminate. Qed.

Lemma power_fraction (a b : Z) :
  0 <= a -> 0 <= b -> (2 ^ (a - b) == (2 ^ a)%Z # Z.to_pos (2 ^ b)%Z)%Q.
Proof.
  intros Ha Hb. rewrite (Qpower_minus 2 a b two_not_zero).
  change 2%Q with (inject_Z 2).
  rewrite <- !Zpower_Qpower by assumption.
  rewrite Qmake_Qdiv, Z2Pos.id by (apply Z.pow_pos_nonneg; lia).
  reflexivity.
Qed.

Lemma exponent_low (x : Q) : ~ (x == 0)%Q -> (2 ^ Binary64.exponent x <= Qabs x)%Q.
Proof.
  intros Hx. unfold Binary64.exponent.
  destruct (Qle_bool _ _) eqn:T; [now apply Qle_bool_iff |].
  destruct x as [n dn]. cbn [Qnum Qden] in *.
  assert (Hn : 0 < Z.abs n).
  { unfold Qeq in Hx. simpl in Hx. lia. }
  pose proof (Z.log2_spec (Z.abs n) Hn) as [Hp _].
  pose proof (Z.log2_spec (Zpos dn) eq_refl) as [_ Hq].
  pose proof (Z.log2_nonneg (Z.abs n)) as Hp0.
  pose proof (Z.log2_nonneg (Zpos dn)) as Hq0.
  replace (Z.log2 (Z.abs n) - Z.log2 (Z.pos dn) - 1)
    with (Z.log2 (Z.abs n) - Z.succ (Z.log2 (Zpos dn))) by lia.
  rewrite power_fraction by lia.
  unfold Qle. cbn [Qabs Qnum Qden].
  rewrite Z2Pos.id by (apply Z.pow_pos_nonneg; lia).
  nia.
Qed.

(** Rounding to a double moves a number of magnitude at most [2^k] by at
    most half a unit in the last place of that range. *)
Lemma round_close (x : Q) (k : Z) :
  -1022 <= k -> (Qabs x <= 2 ^ k)%Q ->
  (Qabs (Binary64.round x - x) <= 2 ^ (k - 53))%Q.
Proof.
  intros Hk Hx. unfold Binary64.round.
  destruct (Qeq_bool x 0) eqn:Z0.
  - apply Qeq_bool_iff in Z0. rewrite Z0.
    apply Qlt_le_weak, Qpower_0_lt. reflexivity.
  - apply Qeq_bool_neq in Z0.
    set (e := Z.max (Binary64.exponent x) (-1022)).
    set (ulp := (2 ^ (e - 52))%Q).
    assert (Hu : (0 < ulp)%Q) by (apply Qpower_0_lt; reflexivity).
    assert (He : e <= k).
    { assert (Binary64.exponent x <= k); [| unfold e; lia].
      apply (Qpower_le_compat_l_inv 2); [| reflexivity].
      eapply Qle_trans; [apply exponent_low, Z0 | exact Hx]. }
    rewrite Qred_correct.
    assert (E : (inject_Z (Binary64.nearestEven (x / ulp)) * ulp - x ==
                 (inject_Z (Binary64.nearestEven (x / ulp)) - x / ulp) * ulp)%Q)
      by (field; lra).
    rewrite E, Qabs_Qmult, (Qabs_pos ulp) by lra.
    assert (Hhalf : ((1 # 2) * ulp <= 2 ^ (k - 53))%Q).
    { assert (Hs : (ulp == 2 ^ (e - 53) * 2)%Q).
      { unfold ulp. replace (e - 52) with (e - 53 + 1) by lia.
        now rewrite (Qpower_plus 2 _ _ two_not_zero). }
      rewrite Hs.
      assert (2 ^ (e - 53) <= 2 ^ (k - 53))%Q
        by (apply Qpower_le_compat_l; [lia | discriminate]).
      lra. }
    eapply Qle_trans; [| exact Hhalf].
    apply Qmult_le_compat_r; [apply nearestEven_close | lra].
Qed.

(** ** Seasonal norm *)

Lemma getSeasonalNorm_month (crop : string) (date : Date) (m : Z) :
  getMonth date = of_Z m ->
  getSeasonalNorm crop date =
    if ((10 <=? m) || (m <=? 2))%Z then 0.2%Q
    else if ((3 <=? m) && (m <=? 4))%Z then 0.45%Q
    else if ((5 <=? m) && (m <=? 7))%Z then 0.8%Q
    else 0.5%Q.
Proof.
  intros Hm. unfold getSeasonalNorm. rewrite Hm.
  now rewrite !ge_of_Z, !le_of_Z.
Qed.

(** C3: the seasonal norm is the month table of the specification and
    ignores the crop: for a date whose zero-indexed month is [m], every
    crop gets [normOfMonth m] (0.2 for 10, 11, 0, 1, 2; 0.45 for 3, 4;
    0.8 for 5, 6, 7; 0.5 otherwise), and an invalid date gets 0.5. *)
Theorem seasonal_norm_by_month (crop crop' : string) (date : Date) (m : Z) :
  getMonth date = of_Z m -> 0 <= m <= 11 ->
  getSeasonalNorm crop date = normOfMonth m /\
  getSeasonalNorm crop' date = getSeasonalNorm crop date /\
  normOfMonth 11 = 0.2%Q /\ normOfMonth 3 = 0.45%Q /\
  normOfMonth 6 = 0.8%Q /\ normOfMonth 9 = 0.5%Q /\
  (forall d, getMonth d = NaN -> getSeasonalNorm crop d = 0.5%Q).
Proof.
  intros Hm Hrange. repeat split; try reflexivity.
  - rewrite (getSeasonalNorm_month crop date m Hm).
    assert (Hcases : m = 0 \/ m = 1 \/ m = 2 \/ m = 3 \/ m = 4 \/ m = 5 \/ m = 6 \/
                     m = 7 \/ m = 8 \/ m = 9 \/ m = 10 \/ m = 11) by lia.
    repeat (destruct Hcases as [-> | Hcases]; [reflexivity |]).
    now subst m.
  - intros d Hd. unfold getSeasonalNorm. now rewrite Hd.
Qed.

Lemma seasonal_norm_by_month_witness :
  getSeasonalNorm "Пшеница" (mkDate (of_Z 11) "2024-12-01T00:00:00.000Z") = 0.2%Q.
Proof.
  exact (proj1 (seasonal_norm_by_month "Пшеница" "Кукуруза"
                 (mkDate (of_Z 11) "2024-12-01T00:00:00.000Z") 11
                 eq_refl ltac:(lia))).
Defined.

(** ** Weather codes *)

Lemma Qeq_bool_le (q r : Q) : Qeq_bool q r = Qle_bool r q && Qle_bool q r.
Proof.
  destruct (Qeq_bool q r) eqn:E.
  - apply Qeq_bool_iff in E. symmetry. apply andb_true_iff.
    split; apply Qle_bool_iff; rewrite E; apply Qle_refl.
  - symmetry. apply not_true_is_false. intros H.
    apply andb_true_iff in H as [H1 H2].
    apply Qle_bool_iff in H1, H2.
    assert (Heq : (q == r)%Q) by now apply Qle_antisym.
    apply Qeq_bool_iff in Heq. congruence.
Qed.

Lemma wmoToCondition_table (q : Q) : wmoToCondition (Number q) = conditionOfCode q.
Proof.
  unfold wmoToCondition, conditionOfCode, conditionTable, inRange, JS.ge, JS.le,
    of_Z, is_zero, toNumber. simpl.
  rewrite (Qeq_bool_le q 0). change (inject_Z 0) with 0%Q.
  repeat match goal with
  | |- context [Qle_bool ?a ?b] =>
      lazymatch goal with
      | |- context [if Qle_bool a b && _ then _ else _] => destruct (Qle_bool a b) eqn:?; simpl
      | |- context [if Qle_bool a b then _ else _] => destruct (Qle_bool a b) eqn:?; simpl
      end
  end; reflexivity.
Qed.

Lemma wmoToCondition_in (code : field) : wmoToCondition code ∈ conditions.
Proof.
  unfold wmoToCondition, conditions.
  repeat match goal with
  | |- context [if ?c then _ else _] => destruct c
  end; set_solver.
Qed.

(** C2: the code-to-condition mapping is total into the six
    labels and agrees with the range table; 0 is Clear, 2 Clouds, 61 Rain,
    96 Thunderstorm; the last range is open above, so every code from 95
    on (999 included) is Thunderstorm; a code in no range, and a missing
    or null code, is Unknown. *)
Theorem wmoToCondition_total (code : field) :
  wmoToCondition code ∈ conditions /\
  wmoToCondition (Number 0) = "Clear" /\
  wmoToCondition (Number 2) = "Clouds" /\
  wmoToCondition (Number 61) = "Rain" /\
  wmoToCondition (Number 96) = "Thunderstorm" /\
  wmoToCondition (Number 999) = "Thunderstorm" /\
  (forall q, wmoToCondition (Number q) = conditionOfCode q) /\
  (forall q, (95 <= q)%Q -> wmoToCondition (Number q) = "Thunderstorm") /\
  (forall q, find (inRange q) conditionTable = None ->
             wmoToCondition (Number q) = "Unknown") /\
  wmoToCondition Undefined = "Unknown" /\
  wmoToCondition Null = "Unknown".
Proof.
  split; [apply wmoToCondition_in |].
  repeat split; try reflexivity.
  - apply wmoToCondition_table.
  - intros q Hq. rewrite wmoToCondition_table.
    unfold conditionOfCode, conditionTable, inRange. simpl.
    assert (H95 : Qle_bool (inject_Z 95) q = true) by now apply Qle_bool_iff.
    assert (Hgt : forall z, (z < 95)%Z -> Qle_bool q (inject_Z z) = false).
    { intros z Hz. apply not_true_is_false. intros Hle.
      apply Qle_bool_iff in Hle.
      assert (Hc : (inject_Z 95 <= inject_Z z)%Q) by (eapply Qle_trans; eauto).
      rewrite <- Zle_Qle in Hc. lia. }
    rewrite !Hgt by lia. rewrite !andb_false_r. now rewrite H95.
  - intros q Hq. rewrite wmoToCondition_table. unfold conditionOfCode. now rewrite Hq.
Qed.

(** C2, counterexample: code 999 lies in the open last range and is
    mapped to Thunderstorm, not to Unknown. *)
Lemma wmoToCondition_999_not_unknown : wmoToCondition (Number 999) <> "Unknown".
Proof. discriminate. Qed.

(** ** Stress cause *)

Lemma stressCause_chain (dev : jsnum) (w : Weather) (ndvi : jsnum) :
  stressCause dev w ndvi =
    if JS.lt dev (Num (-0.15)) then
      firstMatch [(drought w, "Дефицит влаги");
                  (heatStress w, "Тепловой стресс");
                  (diseaseRisk w, "Риск заболеваний (Влажность)");
                  (freezeRisk w ndvi, "Риск вымерзания")]
                 "Задержка вегетации / Питание"
    else "Нет явного стресса".
Proof. reflexivity. Qed.

(** C4: the classifier answers the no-stress label unless the deviation
    is below -0.15; below it, it is the first-match chain drought, heat,
    disease, freeze, growth delay, so that drought wins whenever it holds;
    for deviation -0.2, rain 2 and temperature 28 the answer is the
    drought label whatever the other readings are, and also when the heat
    and disease rules hold as well. *)
Theorem stressCause_priority (dev : jsnum) (w : Weather) (ndvi : jsnum) :
  (JS.lt dev (Num (-0.15)) = false -> stressCause dev w ndvi = "Нет явного стресса") /\
  (JS.lt dev (Num (-0.15)) = true ->
     stressCause dev w ndvi =
       firstMatch [(drought w, "Дефицит влаги");
                   (heatStress w, "Тепловой стресс");
                   (diseaseRisk w, "Риск заболеваний (Влажность)");
                   (freezeRisk w ndvi, "Риск вымерзания")]
                  "Задержка вегетации / Питание") /\
  (JS.lt dev (Num (-0.15)) = true -> drought w = true ->
     stressCause dev w ndvi = "Дефицит влаги") /\
  (rain_14d w = of_Z 2 -> temp w = of_Z 28 ->
     stressCause (Num (-0.2)) w ndvi = "Дефицит влаги") /\
  (drought hotDryHumid = true /\ heatStress hotDryHumid = true /\
   diseaseRisk hotDryHumid = true /\
   stressCause (Num (-0.2)) hotDryHumid ndvi = "Дефицит влаги").
Proof.
  rewrite stressCause_chain. repeat split.
  - now intros ->.
  - now intros ->.
  - intros -> Hd. simpl. now rewrite Hd.
  - intros Hr Ht. rewrite stressCause_chain. unfold drought. now rewrite Hr, Ht.
Qed.

(** ** Synthetic fallback *)

Lemma unit_draw_band (lo width r : Q) :
  unit_draw r -> (0 <= width)%Q ->
  within lo (lo + width) (JS.add (Num lo) (JS.mul (Num r) (Num width))).
Proof.
  intros [H0 H1] Hw. simpl. split.
  - assert (0 <= r * width)%Q by (apply Qmult_le_0_compat; assumption). lra.
  - assert (r * width <= 1 * width)%Q.
    { apply Qmult_le_compat_r; [apply Qlt_le_weak |]; assumption. }
    lra.
Qed.

Lemma within_eq (lo hi hi' : Q) (n : jsnum) : (hi == hi')%Q -> within lo hi n -> within lo hi' n.
Proof. intros E. destruct n; simpl; [| tauto]. now rewrite E. Qed.

Lemma imageryBase_unavailable (cfg : Config) (reply : ImageryReply) :
  configured (COPERNICUS_USER cfg) && configured (COPERNICUS_PASS cfg) = false \/
  reply = ImageryError \/ reply = ImageryEmpty ->
  imageryBase cfg reply = None.
Proof.
  unfold imageryBase. intros [-> | [-> | ->]]; [reflexivity | |];
    now destruct (_ && _).
Qed.

(** C5: for draws in [0,1) the synthetic base has its healthy share in
    [65,85], its moderate share in [20,30], its stressed share in [5,10],
    its index average in [0.58,0.78] and no map reference; and it is the
    base the handler uses when the imagery credentials are not set or the
    lookup fails or finds nothing. *)
Theorem fallback_bands (d : Draws) :
  valid_draws d ->
  within 65 85 (healthy_percent (fallbackBase d)) /\
  within 20 30 (moderate_percent (fallbackBase d)) /\
  within 5 10 (stressed_percent (fallbackBase d)) /\
  within 0.58 0.78 (ndvi_average (fallbackBase d)) /\
  map_url (fallbackBase d) = None /\
  (forall cfg reply,
     configured (COPERNICUS_USER cfg) && configured (COPERNICUS_PASS cfg) = false \/
     reply = ImageryError \/ reply = ImageryEmpty ->
     analysisBase cfg reply d = fallbackBase d).
Proof.
  intros (Hn & Hh & Hm & Hs & _).
  split; [| split; [| split; [| split; [| split; [reflexivity |]]]]].
  - apply (within_eq 65 (65 + 20)); [reflexivity |].
    now apply (unit_draw_band 65 20).
  - apply (within_eq 20 (20 + 10)); [reflexivity |].
    now apply (unit_draw_band 20 10).
  - apply (within_eq 5 (5 + 5)); [reflexivity |].
    now apply (unit_draw_band 5 5).
  - apply (within_eq 0.58 (0.58 + 0.2)); [reflexivity |].
    now apply (unit_draw_band 0.58 0.2).
  - intros cfg reply H. unfold analysisBase.
    now rewrite (imageryBase_unavailable cfg reply H).
Qed.

Lemma fallback_bands_witness : within 65 85 (healthy_percent (fallbackBase halfDraws)).
Proof.
  refine (proj1 (fallback_bands halfDraws _)).
  unfold valid_draws, unit_draw; simpl. repeat split; discriminate.
Defined.

(** ** Weather lookup *)

Lemma or_zero_number (q : Q) : (or_zero (Number q) == q)%Q.
Proof.
  simpl. destruct (Qeq_bool q 0) eqn:E; [| reflexivity].
  apply Qeq_bool_iff in E. now rewrite E.
Qed.

Lemma or_zero_missing (v : field) : (or_zero v == missingAsZero v)%Q.
Proof. destruct v; try reflexivity. apply or_zero_number. Qed.

Lemma read_close (v : field) :
  dailyValue v ->
  (0 <= missingAsZero v)%Q /\ (missingAsZero v <= 10000)%Q /\
  (Qabs (or_zero (read v) - missingAsZero v) <= 1 # 549755813888)%Q.
Proof.
  destruct v as [| | q]; cbn [dailyValue missingAsZero read].
  1, 2: intros _; repeat split; apply Qle_bool_iff; reflexivity.
  intros [H0 H1]. split; [exact H0 |]. split; [exact H1 |].
  rewrite or_zero_number.
  assert (Hq : (Qabs q <= 2 ^ 14)%Q).
  { rewrite (Qabs_pos q H0). change (2 ^ 14)%Q with 16384%Q. lra. }
  exact (round_close q 14 ltac:(lia) Hq).
Qed.

Lemma rainSum_close_from (xs : list field) :
  forall (a total : Q) (k : nat),
    Forall dailyValue xs -> (k + length xs <= 1000)%nat ->
    (0 <= total)%Q -> (total <= inject_Z (Z.of_nat k) * 10000)%Q ->
    (Qabs (a - total) <= inject_Z (Z.of_nat k) * (1 # 268435456))%Q ->
    (Qabs (fold_left (fun a b => Binary64.round (or_zero (Number a) + or_zero (read b)))
             xs a - (total + precipitationTotal xs))
     <= inject_Z (Z.of_nat (k + length xs)) * (1 # 268435456))%Q.
Proof.
  induction xs as [| x xs IH]; intros a total k Hd Hlen Ht0 Ht1 Ha.
  - cbn [fold_left length]. change (precipitationTotal []) with 0%Q.
    rewrite Nat.add_0_r.
    assert (E : (a - (total + 0) == a - total)%Q) by ring.
    now rewrite E.
  - apply Forall_cons in Hd as [Hx Hd].
    destruct (read_close x Hx) as (Hq0 & Hq1 & Hb).
    cbn [fold_left].
    set (t := (or_zero (Number a) + or_zero (read x))%Q).
    assert (Et : (t == or_zero (Number a) + or_zero (read x))%Q) by reflexivity.
    clearbody t.
    assert (Hk : (inject_Z (Z.of_nat k) <= 999)%Q).
    { change 999%Q with (inject_Z 999). rewrite <- Zle_Qle. simpl in Hlen. lia. }
    assert (Hk0 : (0 <= inject_Z (Z.of_nat k))%Q).
    { change 0%Q with (inject_Z 0). rewrite <- Zle_Qle. lia. }
    pose proof (or_zero_number a) as Hoa.
    apply Qabs_Qle_condition in Ha as [Ha1 Ha2].
    apply Qabs_Qle_condition in Hb as [Hb1 Hb2].
    assert (Ht : (Qabs t <= 2 ^ 24)%Q).
    { apply Qabs_Qle_condition. change (2 ^ 24)%Q with 16777216%Q. split; lra. }
    pose proof (round_close t 24 ltac:(lia) Ht) as Hr.
    change (2 ^ (24 - 53))%Q with (1 # 536870912)%Q in Hr.
    apply Qabs_Qle_condition in Hr as [Hr1 Hr2].
    specialize (IH (Binary64.round t) (total + missingAsZero x)%Q (S k) Hd
                  ltac:(simpl in Hlen; lia)).
    rewrite Nat2Z.inj_succ, <- Z.add_1_r, inject_Z_plus in IH.
    change (inject_Z 1) with 1%Q in IH.
    replace (k + length (x :: xs))%nat with (S k + length xs)%nat by (simpl; lia).
    change (precipitationTotal (x :: xs))
      with (missingAsZero x + precipitationTotal xs)%Q.
    assert (E : forall y : Q,
              (y - (total + (missingAsZero x + precipitationTotal xs)) ==
               y - (total + missingAsZero x + precipitationTotal xs))%Q)
      by (intros y; ring).
    rewrite E. apply IH.
    + lra.
    + lra.
    + apply Qabs_Qle_condition. split; lra.
Qed.

(** The sum the handler computes in doubles is the sum of the daily
    values, missing ones counting as zero, up to the rounding. *)
Lemma rainSum_close (xs : list field) :
  Forall dailyValue xs -> (length xs <= 1000)%nat ->
  (Qabs (rainSum xs - precipitationTotal xs) <= 1 # 200000)%Q.
Proof.
  intros Hd Hlen.
  assert (H : (Qabs (rainSum xs - (0 + precipitationTotal xs)) <=
               inject_Z (Z.of_nat (0 + length xs)) * (1 # 268435456))%Q).
  { apply (rainSum_close_from xs 0 0 0 Hd Hlen); apply Qle_bool_iff; reflexivity. }
  assert (Hn : (inject_Z (Z.of_nat (0 + length xs)) <= 1000)%Q).
  { change 1000%Q with (inject_Z 1000). rewrite <- Zle_Qle. simpl. lia. }
  apply Qabs_Qle_condition in H as [H1 H2].
  apply Qabs_Qle_condition. split; lra.
Qed.

Lemma Math_round_close (x : Q) :
  exists r, Math_round (Num x) = of_Z r /\ (Qabs (inject_Z r - x) <= 1 # 2)%Q.
Proof.
  exists (Qfloor (x + (1 # 2))). split; [reflexivity |].
  pose proof (Qfloor_le (x + (1 # 2))) as Hlo.
  pose proof (Qlt_floor (x + (1 # 2))) as Hhi.
  rewrite inject_Z_plus in Hhi. change (inject_Z 1) with 1%Q in Hhi.
  apply Qabs_Qle_condition. split; lra.
Qed.

Lemma tenth (n : Z) : (n # 10 == inject_Z n * (1 # 10))%Q.
Proof. rewrite Qmake_Qdiv. reflexivity. Qed.

(** The decimal [toFixed(1)] prints is within a twentieth of the number. *)
Lemma decimal_close (x : Q) :
  let n := Qfloor (Qabs x * 10 + (1 # 2)) in
  (Qabs ((if Qle_bool 0 x then n # 10 else (- n) # 10) - x) <= 1 # 20)%Q.
Proof.
  intros n.
  pose proof (Qfloor_le (Qabs x * 10 + (1 # 2))) as Hlo.
  pose proof (Qlt_floor (Qabs x * 10 + (1 # 2))) as Hhi.
  fold n in Hlo, Hhi. rewrite inject_Z_plus in Hhi.
  change (inject_Z 1) with 1%Q in Hhi.
  destruct (Qle_bool 0 x) eqn:Esign.
  - apply Qle_bool_iff in Esign.
    rewrite (Qabs_pos x Esign) in Hlo, Hhi. rewrite tenth.
    apply Qabs_Qle_condition. split; lra.
  - assert (Hneg : (x <= 0)%Q).
    { destruct (Qlt_le_dec 0 x) as [Hp | Hn]; [| exact Hn].
      apply Qlt_le_weak, Qle_bool_iff in Hp. congruence. }
    rewrite (Qabs_neg x Hneg) in Hlo, Hhi. rewrite tenth, inject_Z_opp.
    apply Qabs_Qle_condition. split; lra.
Qed.

(** The wind reading in m/s is the provider's km/h value over 3.6, to one
    decimal, up to the rounding of the doubles on the way. *)
Lemma wind_close (v : Q) :
  (Qabs v <= 1000000)%Q ->
  exists w,
    toFixed1 (divide (Num (Binary64.round v)) (Num (Binary64.round 3.6))) = Num w /\
    (Qabs (w - v / 3.6) <= (1 # 20) + (1 # 1000000000))%Q.
Proof.
  intros Hv.
  assert (Hc : Binary64.round 3.6 = (8106479329266893 # 2251799813685248)%Q)
    by (vm_compute; reflexivity).
  rewrite Hc. unfold divide, JS.div.
  change (Qeq_bool (8106479329266893 # 2251799813685248) 0) with false. cbv iota.
  assert (Hv1 : (Qabs (Binary64.round v - v) <= 2 ^ (20 - 53))%Q).
  { apply round_close; [lia |]. change (2 ^ 20)%Q with 1048576%Q. lra. }
  change (2 ^ (20 - 53))%Q with (1 # 8589934592)%Q in Hv1.
  set (v1 := Binary64.round v) in *.
  set (x0 := (v1 / (8106479329266893 # 2251799813685248))%Q).
  assert (Ex0 : (x0 == v1 * (2251799813685248 # 8106479329266893))%Q) by reflexivity.
  assert (Ev : (v / 3.6 == v * (10 # 36))%Q) by reflexivity.
  apply Qabs_Qle_condition in Hv as [Hv' Hv''].
  apply Qabs_Qle_condition in Hv1 as [Hv1' Hv1''].
  assert (Hx0 : (Qabs x0 <= 2 ^ 19)%Q).
  { apply Qabs_Qle_condition. change (2 ^ 19)%Q with 524288%Q. split; lra. }
  pose proof (round_close x0 19 ltac:(lia) Hx0) as Hx.
  change (2 ^ (19 - 53))%Q with (1 # 17179869184)%Q in Hx.
  apply Qabs_Qle_condition in Hx0 as [Hx0' Hx0''].
  change (2 ^ 19)%Q with 524288%Q in Hx0', Hx0''.
  apply Qabs_Qle_condition in Hx as [Hx' Hx''].
  set (x := Binary64.round x0) in *.
  unfold toFixed1.
  destruct (Qle_bool (inject_Z (10 ^ 21)) (Qabs x)) eqn:Ebig.
  { apply Qle_bool_iff in Ebig. exfalso.
    change (inject_Z (10 ^ 21)) with 1000000000000000000000%Q in Ebig.
    assert (Hax : (Qabs x <= 524289)%Q) by (apply Qabs_Qle_condition; split; lra).
    lra. }
  pose proof (decimal_close x) as Hd. cbv zeta in Hd.
  set (d := if Qle_bool 0 x
            then Qfloor (Qabs x * 10 + (1 # 2)) # 10
            else - Qfloor (Qabs x * 10 + (1 # 2)) # 10) in *.
  apply Qabs_Qle_condition in Hd as [Hd' Hd''].
  assert (Hd20 : (Qabs d <= 2 ^ 20)%Q).
  { apply Qabs_Qle_condition. change (2 ^ 20)%Q with 1048576%Q. split; lra. }
  pose proof (round_close d 20 ltac:(lia) Hd20) as Hw.
  change (2 ^ (20 - 53))%Q with (1 # 8589934592)%Q in Hw.
  apply Qabs_Qle_condition in Hw as [Hw' Hw''].
  exists (Binary64.round d). split; [reflexivity |].
  apply Qabs_Qle_condition. split; lra.
Qed.

Lemma weatherFailure_caught (reply : WeatherReply) :
  weatherFailure reply -> weatherFromReply reply = None.
Proof.
  destruct reply as [| [c |] [d |]]; simpl; intros H; try reflexivity.
  - now rewrite H.
  - now destruct (precipitation_sum d).
Qed.

Lemma seasonalWeather_month (currentMonth : Date) (m : Z) :
  getMonth currentMonth = of_Z m -> (0 <= m <= 11)%Z ->
  seasonalWeather currentMonth = syntheticReading m.
Proof.
  intros Hm Hrange. unfold seasonalWeather. rewrite Hm, !ge_of_Z, !le_of_Z.
  assert (Hcases : (m = 0 \/ m = 1 \/ m = 2 \/ m = 3 \/ m = 4 \/ m = 5 \/ m = 6 \/
                    m = 7 \/ m = 8 \/ m = 9 \/ m = 10 \/ m = 11)%Z) by lia.
  repeat (destruct Hcases as [-> | Hcases]; [reflexivity |]).
  now subst m.
Qed.

(** A readable reply in which a number is absent is not a failure: the
    reading is [NaN] and the month's synthetic reading is not used. *)
Lemma weather_missing_reading (currentMonth : Date) :
  fetchWeather
    (WeatherBody (Some (mkCurrent Undefined (Number 40) (Number 18) (Number 0)))
                 (Some (mkDaily (Some []))))
    currentMonth =
  {| temp := NaN; condition := "Clear"; humidity := of_Z 40; wind := Num 5;
     rain_14d := of_Z 0 |}.
Proof. vm_compute. reflexivity. Qed.

Lemma analyze_success_weather (cfg : Config) (w : World) (user : UserId)
    (body : AnalyzeBody) (st : Store) (reply : WeatherReply) :
  success (fst (analyze cfg (withWeather w reply) user body st)) =
  success (fst (analyze cfg w user body st)).
Proof.
  unfold_analyze. destruct (_ || _); [reflexivity |]. simpl.
  by_deliveries w ltac:(try reflexivity).
Qed.

(** C7: the weather lookup always yields a snapshot, and whether the
    request succeeds does not depend on what the provider answers.  On a
    transport failure or an unreadable reply it is the synthetic reading of
    the current month (winter: -5 and Snow; summer: 25 and Clear; otherwise
    10 and Clouds; humidity 60, wind 5, rain 0).  On a readable reply the
    wind is the provider's km/h value divided by 3.6, to one decimal, and
    the rain is the rounded sum of the daily values with missing ones as
    zero, both up to the rounding of the doubles in which the handler
    computes: for a reading of 1.26 km/h the wind is 0.3, and daily values
    whose exact sum is 31.5 give a rain of 31. *)
Theorem weather_lookup (reply : WeatherReply) (currentMonth : Date) :
  (forall cfg w user body st,
     success (fst (analyze cfg (withWeather w reply) user body st)) =
     success (fst (analyze cfg w user body st))) /\
  (weatherFailure reply ->
     fetchWeather reply currentMonth = seasonalWeather currentMonth) /\
  (forall m, getMonth currentMonth = of_Z m -> (0 <= m <= 11)%Z ->
     seasonalWeather currentMonth = syntheticReading m) /\
  (forall c xs, reply = WeatherBody (Some c) (Some (mkDaily (Some xs))) ->
     (forall v, wind_speed_10m c = Number v -> (Qabs v <= 1000000)%Q ->
        exists w, wind (fetchWeather reply currentMonth) = Num w /\
                  (Qabs (w - v / 3.6) <= (1 # 20) + (1 # 1000000000))%Q) /\
     (Forall dailyValue xs -> (length xs <= 1000)%nat ->
        (Qabs (rainSum xs - precipitationTotal xs) <= 1 # 200000)%Q /\
        exists r, rain_14d (fetchWeather reply currentMonth) = of_Z r /\
                  (Qabs (inject_Z r - precipitationTotal xs) <=
                   (1 # 2) + (1 # 200000))%Q)) /\
  wind (fetchWeather rainyReply currentMonth) = Num (Binary64.round 0.3) /\
  (precipitationTotal [Number 8.6; Number 8.3; Null; Number 4.9; Number 9.7] == 31.5)%Q /\
  rain_14d (fetchWeather rainyReply currentMonth) = of_Z 31.
Proof.
  split; [| split; [| split; [| split; [| split; [| split]]]]].
  - intros cfg w user body st. apply analyze_success_weather.
  - intros H. unfold fetchWeather. now rewrite (weatherFailure_caught reply H).
  - apply seasonalWeather_month.
  - intros c xs ->. unfold fetchWeather. simpl weatherFromReply. cbv iota. split.
    + intros v Hv Hsmall. cbn [wind]. rewrite Hv. cbn [read toNumber].
      now apply wind_close.
    + intros Hd Hlen. pose proof (rainSum_close xs Hd Hlen) as Hsum.
      split; [exact Hsum |]. cbn [rain_14d].
      destruct (Math_round_close (rainSum xs)) as (r & Hr & Hclose).
      exists r. split; [exact Hr |].
      apply Qabs_Qle_condition in Hsum as [Hs1 Hs2].
      apply Qabs_Qle_condition in Hclose as [Hc1 Hc2].
      apply Qabs_Qle_condition. split; lra.
  - vm_compute. reflexivity.
  - reflexivity.
  - vm_compute. reflexivity.
Qed.

(** ** Code fences *)

Lemma string_length_ind (P : string -> Prop) :
  (forall s, (forall t, (String.length t < String.length s)%nat -> P t) -> P s) ->
  forall s, P s.
Proof.
  intros Hstep s.
  assert (H : forall n t, (String.length t < n)%nat -> P t).
  { induction n as [| n IH]; intros t Ht; [lia |].
    apply Hstep. intros u Hu. apply IH. lia. }
  apply (H (S (String.length s))). lia.
Qed.

Lemma length_append (a b : string) :
  String.length (a ++ b) = (String.length a + String.length b)%nat.
Proof.
  induction a as [| x a IH]; [reflexivity |].
  change (S (String.length (a ++ b)) = S (String.length a + String.length b)).
  now rewrite IH.
Qed.

Lemma hasFence_cons (a : ascii) (r : string) :
  hasFence (String a r) = tick a && fence2 r || hasFence r.
Proof.
  destruct r as [| b [| c r]]; simpl.
  - now rewrite andb_false_r.
  - now rewrite !andb_false_r.
  - now rewrite andb_assoc.
Qed.

Lemma stripFences_keep (a : ascii) (r : string) :
  fence3 (String a r) = false ->
  stripFences (String a r) = String a (stripFences r).
Proof.
  destruct r as [| b [| c r]]; try reflexivity.
  simpl fence3. simpl headTick. rewrite andb_assoc. intros H.
  change (stripFences (String a (String b (String c r)))) with
    (if tick a && tick b && tick c then
       match r with
       | String j (String s' (String o (String n r7))) =>
           if (code j =? 106)%N && (code s' =? 115)%N &&
              (code o =? 111)%N && (code n =? 110)%N
           then stripFences r7
           else stripFences r
       | _ => stripFences r
       end
     else String a (stripFences (String b (String c r)))).
  now rewrite H.
Qed.

Lemma stripFences_drop (s : string) :
  fence3 s = true ->
  exists r, stripFences s = stripFences r /\ (String.length r < String.length s)%nat.
Proof.
  destruct s as [| a [| b [| c r]]]; simpl; try discriminate;
    try (rewrite ?andb_false_r; discriminate).
  rewrite andb_assoc. intros ->.
  destruct r as [| j [| s' [| o [| n r7]]]]; try (eexists; split; [reflexivity | simpl; lia]).
  destruct (_ && _); eexists; (split; [reflexivity | simpl; lia]).
Qed.

Lemma stripFences_headTick (s : string) :
  headTick s = false -> headTick (stripFences s) = false.
Proof.
  destruct s as [| a r]; [reflexivity |]. intros Ha.
  rewrite stripFences_keep; [exact Ha |].
  simpl in *. now rewrite Ha.
Qed.

Lemma stripFences_fence2 (s : string) :
  fence2 s = false -> fence2 (stripFences s) = false.
Proof.
  destruct s as [| a r]; [reflexivity |]. intros H.
  rewrite stripFences_keep.
  - simpl in *. destruct (tick a); [| reflexivity]. simpl in *.
    now apply stripFences_headTick.
  - destruct r as [| b r]; simpl in *; [now rewrite andb_false_r |].
    now rewrite andb_assoc, H.
Qed.

Lemma stripFences_clean (s : string) : hasFence (stripFences s) = false.
Proof.
  induction s as [s IH] using string_length_ind.
  destruct (fence3 s) eqn:E.
  - destruct (stripFences_drop s E) as (r & -> & Hlt). now apply IH.
  - destruct s as [| a r]; [reflexivity |].
    rewrite stripFences_keep by exact E. rewrite hasFence_cons.
    rewrite (IH r) by (simpl; lia). rewrite orb_false_r.
    simpl in E. destruct (tick a); [| reflexivity]. simpl in *.
    now apply stripFences_fence2.
Qed.

Lemma hasFence_suffix (p t : string) : hasFence (p ++ t) = false -> hasFence t = false.
Proof.
  induction p as [| a p IH]; [trivial |].
  change (String a p ++ t) with (String a (p ++ t)).
  rewrite hasFence_cons. intros H.
  apply orb_false_iff in H as [_ H]. now apply IH.
Qed.

Lemma headTick_app (t q : string) : headTick t = true -> headTick (t ++ q) = true.
Proof. now destruct t. Qed.

Lemma fence2_app (t q : string) : fence2 t = true -> fence2 (t ++ q) = true.
Proof.
  destruct t as [| a t]; [discriminate |]. simpl.
  intros H. apply andb_true_iff in H as [-> H]. now apply headTick_app.
Qed.

Lemma hasFence_prefix (t q : string) : hasFence (t ++ q) = false -> hasFence t = false.
Proof.
  induction t as [| a t IH]; [reflexivity |].
  change (String a t ++ q) with (String a (t ++ q)).
  rewrite !hasFence_cons. intros H.
  apply orb_false_iff in H as [H1 H2]. rewrite (IH H2), orb_false_r.
  destruct (tick a); [| reflexivity]. simpl in *.
  destruct (fence2 t) eqn:E; [| reflexivity].
  now rewrite (fence2_app t q E) in H1.
Qed.

Lemma trimStart_suffix (s : string) : exists p, s = p ++ trimStart s.
Proof.
  induction s as [s IH] using string_length_ind.
  destruct s as [| a r1]; [now exists "" |].
  cbn [trimStart]. destruct (ws1 a).
  { destruct (IH r1) as [p Hp]; [simpl; lia |].
    exists (String a p).
    change (String a r1 = String a (p ++ trimStart r1)). congruence. }
  destruct r1 as [| b r2]; [now exists "" |].
  destruct (ws2 a b).
  { destruct (IH r2) as [p Hp]; [simpl; lia |].
    exists (String a (String b p)).
    change (String a (String b r2) = String a (String b (p ++ trimStart r2))).
    congruence. }
  destruct r2 as [| c r3]; [now exists "" |].
  destruct (ws3 a b c); [| now exists ""].
  destruct (IH r3) as [p Hp]; [simpl; lia |].
  exists (String a (String b (String c p))).
  change (String a (String b (String c r3)) =
          String a (String b (String c (p ++ trimStart r3)))).
  congruence.
Qed.

Lemma trimEnd_prefix (s : string) : exists q, s = trimEnd s ++ q.
Proof.
  induction s as [| a r [q Hq]]; [now exists "" |].
  cbn [trimEnd]. destruct (allWhite (String a r)).
  - now exists (String a r).
  - exists q. change (String a r = String a (trimEnd r ++ q)). congruence.
Qed.

Lemma trim_clean (s : string) : hasFence s = false -> hasFence (trim s) = false.
Proof.
  intros H. unfold trim.
  destruct (trimStart_suffix s) as [p Hp].
  destruct (trimEnd_prefix (trimStart s)) as [q Hq].
  rewrite Hp in H. apply hasFence_suffix in H.
  rewrite Hq in H. now apply hasFence_prefix in H.
Qed.

Lemma tick_char (c : ascii) : tick c = true -> c = "`"%char.
Proof.
  unfold tick, code. intros H. apply N.eqb_eq in H.
  rewrite <- (ascii_N_embedding c), H. reflexivity.
Qed.

Lemma code_char (c : ascii) (n : N) : (code c =? n)%N = true -> c = ascii_of_N n.
Proof.
  unfold code. intros H. apply N.eqb_eq in H.
  now rewrite <- (ascii_N_embedding c), H.
Qed.

Lemma fence2_two (r : string) : fence2 r = true -> exists rest, r = "``" ++ rest.
Proof.
  destruct r as [| a [| b rest]]; simpl; try discriminate.
  - now rewrite andb_false_r.
  - intros H. apply andb_true_iff in H as [Ha Hb].
    apply tick_char in Ha, Hb. subst. now exists rest.
Qed.

Lemma fence2_before (a x : string) : fence2 (a ++ "``" ++ x) = fence2 (a ++ "``").
Proof. now destruct a as [| a0 [| a1 a]]. Qed.

Lemma stripFences_same (s : string) : hasFence s = false -> stripFences s = s.
Proof.
  induction s as [| a r IH]; [reflexivity |].
  rewrite hasFence_cons. intros H. apply orb_false_iff in H as [H1 H2].
  rewrite stripFences_keep by exact H1. now rewrite (IH H2).
Qed.

Lemma first_fence (s : string) :
  hasFence s = true ->
  exists a rest, s = a ++ "```" ++ rest /\ hasFence (a ++ "``") = false.
Proof.
  induction s as [| c r IH]; [discriminate |].
  rewrite hasFence_cons. destruct (tick c && fence2 r) eqn:E.
  - intros _. apply andb_true_iff in E as [Hc Hr].
    apply tick_char in Hc. apply fence2_two in Hr as [rest ->]. subst c.
    now exists "", rest.
  - simpl. intros H. destruct (IH H) as (a & rest & -> & Ha).
    exists (String c a), rest. split; [reflexivity |].
    change (String c a ++ "``") with (String c (a ++ "``")).
    rewrite hasFence_cons, Ha, orb_false_r.
    change (a ++ "```" ++ rest) with (a ++ "``" ++ ("`" ++ rest)) in E.
    now rewrite fence2_before in E.
Qed.

Lemma stripFences_before (a x : string) :
  hasFence (a ++ "``") = false ->
  stripFences (a ++ "``" ++ x) = a ++ stripFences ("``" ++ x).
Proof.
  induction a as [| c a IH]; [reflexivity |].
  change (String c a ++ "``") with (String c (a ++ "``")).
  change (String c a ++ "``" ++ x) with (String c (a ++ "``" ++ x)).
  rewrite hasFence_cons. intros H. apply orb_false_iff in H as [H1 H2].
  rewrite stripFences_keep.
  - rewrite (IH H2). reflexivity.
  - simpl fence3. now rewrite fence2_before.
Qed.

Lemma stripFences_json (b : string) : stripFences ("```json" ++ b) = stripFences b.
Proof. reflexivity. Qed.

Lemma stripFences_bare (b : string) :
  String.prefix "json" b = false -> stripFences ("```" ++ b) = stripFences b.
Proof.
  intros H. destruct b as [| j [| s' [| o [| n r]]]]; try reflexivity.
  change (stripFences ("```" ++ String j (String s' (String o (String n r))))) with
    (if (code j =? 106)%N && (code s' =? 115)%N && (code o =? 111)%N && (code n =? 110)%N
     then stripFences r
     else stripFences (String j (String s' (String o (String n r))))).
  destruct (_ && _) eqn:E; [| reflexivity].
  apply andb_true_iff in E as [E Hn]. apply andb_true_iff in E as [E Ho].
  apply andb_true_iff in E as [Hj Hs].
  apply code_char in Hj, Hs, Ho, Hn. subst. cbn in H. destruct r; discriminate H.
Qed.

Lemma stripFences_unfenced (s : string) : unfenced s (stripFences s).
Proof.
  induction s as [s IH] using string_length_ind.
  destruct (hasFence s) eqn:E.
  2: { rewrite (stripFences_same s E). now constructor. }
  destruct (first_fence s E) as (a & rest & -> & Ha).
  assert (Hlen : forall b, (String.length b <= String.length rest)%nat ->
            (String.length b < String.length (a ++ "```" ++ rest))%nat).
  { intros b Hb. rewrite length_append. change (String.length ("```" ++ rest)) with (S (S (S (String.length rest)))). lia. }
  change (a ++ "```" ++ rest) with (a ++ "``" ++ ("`" ++ rest)).
  rewrite (stripFences_before a _ Ha).
  change ("``" ++ "`" ++ rest) with ("```" ++ rest).
  change (a ++ "``" ++ "`" ++ rest) with (a ++ "```" ++ rest).
  destruct (String.prefix "json" rest) eqn:P.
  - apply prefix_correct in P. simpl in P.
    destruct rest as [| j [| s' [| o [| n r]]]]; try discriminate.
    injection P as -> -> -> ->.
    change (stripFences ("```" ++ String "j" (String "s" (String "o" (String "n" r)))))
      with (stripFences r).
    change (a ++ "```" ++ String "j" (String "s" (String "o" (String "n" r))))
      with (a ++ "```json" ++ r).
    apply unfenced_json; [exact Ha |].
    apply IH. apply Hlen. simpl. lia.
  - rewrite (stripFences_bare rest P). apply unfenced_bare; [exact Ha | exact P |].
    apply IH. now apply Hlen.
Qed.

Lemma unfenced_stripFences (s t : string) : unfenced s t -> t = stripFences s.
Proof.
  induction 1 as [s H | a b t Ha _ IH | a b t Ha P _ IH].
  - now rewrite stripFences_same.
  - change (a ++ "```json" ++ b) with (a ++ "``" ++ ("`json" ++ b)).
    rewrite (stripFences_before a _ Ha).
    change ("``" ++ "`json" ++ b) with ("```json" ++ b).
    now rewrite stripFences_json, IH.
  - change (a ++ "```" ++ b) with (a ++ "``" ++ ("`" ++ b)).
    rewrite (stripFences_before a _ Ha).
    change ("``" ++ "`" ++ b) with ("```" ++ b).
    now rewrite (stripFences_bare b P), IH.
Qed.

(** ** White space *)

Lemma ws2_not_ws1 (a b : ascii) : ws2 a b = true -> ws1 a = false.
Proof.
  unfold ws2, ws1. intros H. apply andb_true_iff in H as [H _].
  apply N.eqb_eq in H. cbv zeta. now rewrite H.
Qed.

Lemma ws3_lead (a b c : ascii) :
  ws3 a b c = true ->
  code a = 225%N \/ code a = 226%N \/ code a = 227%N \/ code a = 239%N.
Proof.
  unfold ws3. cbv zeta.
  destruct (N.eqb_spec (code a) 225); [tauto |].
  destruct (N.eqb_spec (code a) 226); [tauto |].
  destruct (N.eqb_spec (code a) 227); [tauto |].
  destruct (N.eqb_spec (code a) 239); [tauto |].
  discriminate.
Qed.

Lemma ws3_not_ws1 (a b c : ascii) : ws3 a b c = true -> ws1 a = false.
Proof.
  intros H. apply ws3_lead in H. unfold ws1. cbv zeta.
  now destruct H as [-> | [-> | [-> | ->]]].
Qed.

Lemma ws3_not_ws2 (a b c : ascii) : ws3 a b c = true -> ws2 a b = false.
Proof.
  intros H. apply ws3_lead in H. unfold ws2.
  now destruct H as [-> | [-> | [-> | ->]]].
Qed.

Lemma blank_trimStart (l t : string) : blank l -> trimStart (l ++ t) = trimStart t.
Proof.
  induction 1 as [| a s Ha _ IH | a b s Hab _ IH | a b c s Habc _ IH];
    [reflexivity | | |].
  - change (String a s ++ t) with (String a (s ++ t)).
    cbn [trimStart]. now rewrite Ha.
  - change (String a (String b s) ++ t) with (String a (String b (s ++ t))).
    cbn [trimStart]. now rewrite (ws2_not_ws1 a b Hab), Hab.
  - change (String a (String b (String c s)) ++ t)
      with (String a (String b (String c (s ++ t)))).
    cbn [trimStart].
    now rewrite (ws3_not_ws1 a b c Habc), (ws3_not_ws2 a b c Habc), Habc.
Qed.

Lemma append_empty (s : string) : s ++ "" = s.
Proof.
  induction s as [| a s IH]; [reflexivity |].
  change (String a (s ++ "") = String a s). now rewrite IH.
Qed.

Lemma append_assoc (a b c : string) : (a ++ b) ++ c = a ++ b ++ c.
Proof.
  induction a as [| x a IH]; [reflexivity |].
  change (String x ((a ++ b) ++ c) = String x (a ++ b ++ c)). now rewrite IH.
Qed.

Lemma blank_app (x y : string) : blank x -> blank y -> blank (x ++ y).
Proof.
  induction 1 as [| a s Ha _ IH | a b s Hab _ IH | a b c s Habc _ IH]; intros Hy.
  - exact Hy.
  - change (blank (String a (s ++ y))). apply blank_one; auto.
  - change (blank (String a (String b (s ++ y)))). apply blank_two; auto.
  - change (blank (String a (String b (String c (s ++ y))))). apply blank_three; auto.
Qed.

Lemma trimStart_split (s : string) : exists l, s = l ++ trimStart s /\ blank l.
Proof.
  induction s as [s IH] using string_length_ind.
  destruct s as [| a r1]; [exists ""; split; [reflexivity | constructor] |].
  cbn [trimStart]. destruct (ws1 a) eqn:E1.
  { destruct (IH r1) as (l & Hl & Hb); [simpl; lia |].
    exists (String a l). split; [| now apply blank_one].
    change (String a r1 = String a (l ++ trimStart r1)). congruence. }
  destruct r1 as [| b r2]; [exists ""; split; [reflexivity | constructor] |].
  destruct (ws2 a b) eqn:E2.
  { destruct (IH r2) as (l & Hl & Hb); [simpl; lia |].
    exists (String a (String b l)). split; [| now apply blank_two].
    change (String a (String b r2) = String a (String b (l ++ trimStart r2))).
    congruence. }
  destruct r2 as [| c r3]; [exists ""; split; [reflexivity | constructor] |].
  destruct (ws3 a b c) eqn:E3; [| exists ""; split; [reflexivity | constructor]].
  destruct (IH r3) as (l & Hl & Hb); [simpl; lia |].
  exists (String a (String b (String c l))). split; [| now apply blank_three].
  change (String a (String b (String c r3)) =
          String a (String b (String c (l ++ trimStart r3)))).
  congruence.
Qed.

Lemma trimStart_again (s : string) : trimStart (trimStart s) = trimStart s.
Proof.
  induction s as [s IH] using string_length_ind.
  destruct s as [| a r1]; [reflexivity |].
  cbn [trimStart]. destruct (ws1 a) eqn:E1; [apply IH; simpl; lia |].
  destruct r1 as [| b r2]; [cbn [trimStart]; now rewrite E1 |].
  destruct (ws2 a b) eqn:E2; [apply IH; simpl; lia |].
  destruct r2 as [| c r3]; [cbn [trimStart]; now rewrite E1, E2 |].
  destruct (ws3 a b c) eqn:E3; [apply IH; simpl; lia |].
  cbn [trimStart]. now rewrite E1, E2, E3.
Qed.

Lemma empty_length (s : string) : String.length s = 0%nat -> s = "".
Proof. now destruct s. Qed.

Lemma trimStart_head (s l t : string) : trimStart s = l ++ t -> blank l -> l = "".
Proof.
  intros E Hl.
  assert (H : trimStart s = trimStart t).
  { rewrite <- (trimStart_again s), E. now apply blank_trimStart. }
  destruct (trimStart_split t) as (p & Hp & _).
  apply (f_equal String.length) in Hp. rewrite length_append in Hp.
  rewrite <- H, E, length_append in Hp.
  apply empty_length. lia.
Qed.

Lemma allWhite_blank (s : string) : allWhite s = true <-> blank s.
Proof.
  unfold allWhite. split.
  - destruct (trimStart_split s) as (l & E & Hl).
    destruct (trimStart s); [| discriminate].
    intros _. rewrite E, append_empty. exact Hl.
  - intros H. rewrite <- (append_empty s), (blank_trimStart s "" H). reflexivity.
Qed.

Lemma trimEnd_split (s : string) : exists r, s = trimEnd s ++ r /\ blank r.
Proof.
  induction s as [| a s (r & Hr & Hb)]; [exists ""; split; [reflexivity | constructor] |].
  cbn [trimEnd]. destruct (allWhite (String a s)) eqn:E.
  - exists (String a s). split; [reflexivity | now apply allWhite_blank].
  - exists r. split; [| exact Hb].
    change (String a s = String a (trimEnd s ++ r)). congruence.
Qed.

Lemma trimEnd_tail (s t r : string) : trimEnd s = t ++ r -> blank r -> r = "".
Proof.
  revert t. induction s as [| a s IH]; intros t E Hr.
  - destruct t; [symmetry; exact E | discriminate].
  - cbn [trimEnd] in E. destruct (allWhite (String a s)) eqn:W.
    + destruct t; [symmetry; exact E | discriminate].
    + destruct t as [| x t].
      * simpl in E. exfalso.
        destruct (trimEnd_split (String a s)) as (q & Hq & Hb).
        cbn [trimEnd] in Hq. rewrite W, E in Hq.
        assert (Hs : blank (String a s)) by (rewrite Hq; now apply blank_app).
        apply allWhite_blank in Hs. congruence.
      * injection E as _ E. exact (IH t E Hr).
Qed.

Lemma trim_trimmed (s : string) : trimmed s (trim s).
Proof.
  unfold trim.
  destruct (trimStart_split s) as (l & Hl & Hbl).
  destruct (trimEnd_split (trimStart s)) as (r & Hr & Hbr).
  split; [| split].
  - exists l, r. split; [| now split]. now rewrite <- Hr.
  - intros p t' E Hp. apply (trimStart_head s p (t' ++ r)); [| exact Hp].
    now rewrite Hr, E, append_assoc.
  - intros t' q. apply trimEnd_tail.
Qed.

(** ** AI insight *)

Lemma rawResponse_clean (cfg : Config) (groq gemini : LLMReply) (raw : string) :
  configured (GROQ_API_KEY cfg) = false ->
  rawResponse cfg groq gemini = Some raw -> hasFence raw = false.
Proof.
  unfold rawResponse. intros ->.
  destruct (configured (GEMINI_API_KEY cfg)); [| now intros [= <-]].
  destruct gemini as [| text]; [discriminate |].
  destruct (String.eqb (or_empty text) ""); intros [= <-]; [reflexivity |].
  apply trim_clean, stripFences_clean.
Qed.

Lemma aiInsight_placeholder (cfg : Config) (groq gemini : LLMReply) (p : option jsval) :
  llmCallFails cfg groq gemini \/ llmUnconfigured cfg \/ llmUnparseable cfg groq gemini p ->
  aiInsight cfg groq gemini p = placeholderInsight.
Proof.
  unfold aiInsight, rawResponse.
  intros [[[-> ->] | (-> & -> & ->)] | [[-> ->] | (raw & Hraw & Hparse)]];
    try reflexivity.
  unfold rawResponse in Hraw. now rewrite Hraw, Hparse.
Qed.

Lemma analyze_insight (cfg : Config) (w : World) (user : UserId) (body : AnalyzeBody)
    (st st' : Store) (r : AnalysisResult) :
  analyze cfg w user body st = (Success r, st') ->
  ai_insight r = aiInsight cfg (groq_reply w) (gemini_reply w) (parsed w).
Proof.
  unfold_analyze. destruct (_ || _); [discriminate |].
  by_deliveries w ltac:(try discriminate); now intros [= <- _].
Qed.

Lemma analyze_success_llm (cfg : Config) (w : World) (user : UserId) (body : AnalyzeBody)
    (st : Store) (groq gemini : LLMReply) (p : option jsval) :
  success (fst (analyze cfg (withLLM w groq gemini p) user body st)) =
  success (fst (analyze cfg w user body st)).
Proof.
  unfold_analyze. destruct (_ || _); [reflexivity |]. simpl.
  by_deliveries w ltac:(try reflexivity).
Qed.

(** C6: when the provider call throws, no provider is
    configured, or the text does not parse, the insight is the fixed
    placeholder object (title, summary, weather impact, empty list of
    recommendations), never null; a successful response carries the insight
    of this stage, and whether the request succeeds does not depend on what
    the language model answers.  The code-fence markers are stripped on the
    second provider's path only: there the text handed to the parser is
    the provider's text with every fence marker taken out and the white
    space at both ends removed, and the insight is what the parser makes
    of that text (the placeholder when it makes nothing of it); the first
    provider's text is parsed as it came. *)
Theorem insight_fallback (cfg : Config) (groq gemini : LLMReply) (p : option jsval) :
  (llmCallFails cfg groq gemini \/ llmUnconfigured cfg \/ llmUnparseable cfg groq gemini p ->
     aiInsight cfg groq gemini p =
       JObject [("status_title", JString "Анализ завершен");
                ("summary", JString "Данные обработаны.");
                ("weather_impact", JString "Нет данных.");
                ("recommendations", JArray [])] /\
     aiInsight cfg groq gemini p <> JNull) /\
  (forall w user body st st' r,
     analyze cfg w user body st = (Success r, st') ->
     ai_insight r = aiInsight cfg (groq_reply w) (gemini_reply w) (parsed w)) /\
  (forall w user body st,
     success (fst (analyze cfg (withLLM w groq gemini p) user body st)) =
     success (fst (analyze cfg w user body st))) /\
  (forall text,
     configured (GROQ_API_KEY cfg) = false -> configured (GEMINI_API_KEY cfg) = true ->
     gemini = LLMText (Some text) -> text <> "" ->
     exists bare raw,
       unfenced text bare /\ (forall t, unfenced text t -> t = bare) /\
       trimmed bare raw /\ hasFence raw = false /\
       rawResponse cfg groq gemini = Some raw /\
       aiInsight cfg groq gemini p =
         match JSON_parse p raw with
         | Some insight => insight
         | None => placeholderInsight
         end) /\
  rawResponse geminiOnly LLMThrows (LLMText (Some fencedLines)) = Some "{}" /\
  (forall text, configured (GROQ_API_KEY cfg) = true -> groq = LLMText (Some text) ->
     rawResponse cfg groq gemini = Some text /\
     aiInsight cfg groq gemini p =
       match JSON_parse p text with
       | Some insight => insight
       | None => placeholderInsight
       end).
Proof.
  split; [| split; [| split; [| split; [| split]]]].
  - intros H. rewrite (aiInsight_placeholder cfg groq gemini p H). now split.
  - intros w user body st st' r. apply analyze_insight.
  - intros w user body st. apply analyze_success_llm.
  - intros text Hg Hm -> Hne.
    assert (Hraw : rawResponse cfg groq (LLMText (Some text)) =
                   Some (trim (stripFences text))).
    { unfold rawResponse. rewrite Hg, Hm. cbn [or_empty].
      now destruct (String.eqb_spec text ""). }
    exists (stripFences text), (trim (stripFences text)).
    split; [apply stripFences_unfenced |].
    split; [intros t; apply unfenced_stripFences |].
    split; [apply trim_trimmed |].
    split; [apply trim_clean, stripFences_clean |].
    split; [exact Hraw |]. unfold aiInsight. now rewrite Hraw.
  - reflexivity.
  - intros text Hc ->.
    assert (Hraw : rawResponse cfg (LLMText (Some text)) gemini = Some text).
    { unfold rawResponse. now rewrite Hc. }
    split; [exact Hraw |]. unfold aiInsight. now rewrite Hraw.
Qed.

(** C6, counterexample: with the first provider configured, a fenced
    reply reaches the parser with its fence markers. *)
Lemma groq_reply_keeps_fences :
  rawResponse groqOnly (LLMText (Some fencedReply)) LLMThrows = Some fencedReply /\
  hasFence fencedReply = true.
Proof. split; reflexivity. Qed.

(** ** Geo-coordinate helpers *)

Lemma swap_swap (p : Position) : swap (swap p) = p.
Proof. now destruct p. Qed.

Lemma map_swap_swap (l : list Position) : map swap (map swap l) = l.
Proof. induction l as [| p l IH]; simpl; [| rewrite swap_swap, IH]; reflexivity. Qed.

Lemma differs_swap (a b : Position) : differs (swap a) (swap b) = differs a b.
Proof. unfold differs, swap. simpl. apply orb_comm. Qed.

Lemma last_map_swap (l : list Position) : last (map swap l) = option_map swap (last l).
Proof.
  induction l as [| p [| q l] IH]; try reflexivity.
  exact IH.
Qed.

Lemma toGeoJSONPolygon_ring (points : list Position) (first final : Position) :
  (3 <= length points)%nat -> head points = Some first -> last points = Some final ->
  toGeoJSONPolygon points =
    Some {| polygon_type := "Polygon";
            polygon_coordinates :=
              [if differs first final then (map swap points ++ [swap first])%list
               else map swap points] |}.
Proof.
  intros Hlen Hhead Hlast. unfold toGeoJSONPolygon.
  destruct (Nat.ltb_spec (length points) 3) as [Hlt | _]; [lia |].
  destruct points as [| p rest]; [discriminate |].
  injection Hhead as ->. cbv zeta.
  change (map swap (first :: rest)) with (swap first :: map swap rest). cbv iota.
  change (swap first :: map swap rest) with (map swap (first :: rest)).
  rewrite last_map_swap, Hlast. simpl option_map. cbv iota.
  now rewrite differs_swap.
Qed.

Lemma polygon_round_trip (points : list Position) (first final : Position) :
  (3 <= length points)%nat -> head points = Some first -> last points = Some final ->
  fromGeoJSONPolygon (toGeoJSONPolygon points) =
    if differs first final then (points ++ [first])%list else points.
Proof.
  intros Hlen Hhead Hlast.
  rewrite (toGeoJSONPolygon_ring points first final Hlen Hhead Hlast).
  simpl. destruct (differs first final).
  - now rewrite map_app, map_swap_swap; simpl; rewrite swap_swap.
  - apply map_swap_swap.
Qed.

(** C9: a latitude/longitude pair survives the conversion to
    a GeoJSON point and back.  A list of vertices survives the conversion
    to a GeoJSON polygon and back when it has at least three vertices and
    its first and last vertices are equal; an open list of at least three
    vertices comes back with its first vertex appended, and a list of
    fewer than three vertices comes back empty. *)
Theorem geo_round_trip (latitude longitude : jsnum) (points : list Position) :
  fromGeoJSONPoint (Some (toGeoJSONPoint latitude longitude)) =
    {| lat := latitude; lon := longitude |} /\
  (closedRing points = true ->
     fromGeoJSONPolygon (toGeoJSONPolygon points) = points) /\
  (forall first final,
     (3 <= length points)%nat -> head points = Some first -> last points = Some final ->
     differs first final = true ->
     fromGeoJSONPolygon (toGeoJSONPolygon points) = (points ++ [first])%list) /\
  ((length points < 3)%nat -> fromGeoJSONPolygon (toGeoJSONPolygon points) = []).
Proof.
  split; [reflexivity |]. split; [| split].
  - unfold closedRing. destruct points as [| first rest] eqn:E; [discriminate |].
    rewrite <- E. destruct (last points) as [final |] eqn:Hlast; [| discriminate].
    intros H. apply andb_true_iff in H as [Hlen Hclosed].
    apply Nat.leb_le in Hlen. apply negb_true_iff in Hclosed.
    rewrite (polygon_round_trip points first final Hlen); [now rewrite Hclosed | | exact Hlast].
    now rewrite E.
  - intros first final Hlen Hhead Hlast Hopen.
    now rewrite (polygon_round_trip points first final Hlen Hhead Hlast), Hopen.
  - intros Hlen. unfold toGeoJSONPolygon.
    destruct (Nat.ltb_spec (length points) 3) as [_ | Hge]; [reflexivity | lia].
Qed.

Lemma geo_round_trip_witness :
  fromGeoJSONPolygon (toGeoJSONPolygon closedTriangle) = closedTriangle.
Proof.
  exact (proj1 (proj2 (geo_round_trip (of_Z 0) (of_Z 0) closedTriangle)) eq_refl).
Defined.

(** C9, counterexample: an open triangle comes back with four vertices. *)
Lemma open_polygon_not_restored :
  fromGeoJSONPolygon (toGeoJSONPolygon openTriangle) <> openTriangle.
Proof. discriminate. Qed.

(** ** Input validation of [/api/analyze] *)

Lemma validate_passes (body : AnalyzeBody) (st : Store) :
  fst (validate body st) = Returned tt <->
  truthy (body_lat body) = true /\ truthy (body_lon body) = true.
Proof.
  unfold validate.
  destruct (truthy (body_lat body)), (truthy (body_lon body)); simpl;
    split; (intros [? ?] || intros ?); (discriminate || tauto).
Qed.

Lemma analyze_rejects (cfg : Config) (w : World) (user : UserId) (body : AnalyzeBody)
    (st : Store) :
  truthy (body_lat body) = false \/ truthy (body_lon body) = false ->
  analyze cfg w user body st = (Failure 500 coordinatesRequired, st).
Proof.
  intros H. unfold analyze, analyzeHandler, bind, validate.
  assert (E : negb (truthy (body_lat body)) || negb (truthy (body_lon body)) = true).
  { destruct H as [-> | ->]; [reflexivity | apply orb_true_r]. }
  now rewrite E.
Qed.

Lemma truthy_text (s : string) : s <> "" -> truthy (Some (JString s)) = true.
Proof.
  intros H. simpl. apply negb_true_iff. now apply String.eqb_neq.
Qed.

(** C10: the request passes validation exactly when [lat] and [lon] are
    both truthy; otherwise the reply is the 500 error with the fixed
    message, success flag false, and the store untouched.  A latitude or
    longitude of 0 is rejected, and a non-empty string, numeric or not,
    passes for either coordinate: the request with the texts "north" and
    "east" is answered with success. *)
Theorem validation_by_truthiness (cfg : Config) (w : World) (user : UserId)
    (body : AnalyzeBody) (st : Store) :
  (fst (validate body st) = Returned tt <->
     truthy (body_lat body) = true /\ truthy (body_lon body) = true) /\
  (truthy (body_lat body) = false \/ truthy (body_lon body) = false ->
     analyze cfg w user body st = (Failure 500 coordinatesRequired, st)) /\
  (body_lat body = Some (JNumber 0) \/ body_lon body = Some (JNumber 0) ->
     analyze cfg w user body st = (Failure 500 coordinatesRequired, st) /\
     success (fst (analyze cfg w user body st)) = false) /\
  (forall s, s <> "" -> body_lat body = Some (JString s) ->
     truthy (body_lon body) = true -> fst (validate body st) = Returned tt) /\
  (forall s, s <> "" -> body_lon body = Some (JString s) ->
     truthy (body_lat body) = true -> fst (validate body st) = Returned tt) /\
  success (fst (analyze noProviders quietWorld user textBody st)) = true.
Proof.
  split; [apply validate_passes |]. split; [apply analyze_rejects |]. split.
  - intros H.
    assert (Hf : truthy (body_lat body) = false \/ truthy (body_lon body) = false).
    { destruct H as [-> | ->]; [left | right]; reflexivity. }
    rewrite (analyze_rejects cfg w user body st Hf). now split.
  - split; [| split].
    + intros s Hs Hlat Hlon. apply validate_passes.
      rewrite Hlat. split; [now apply truthy_text | exact Hlon].
    + intros s Hs Hlon Hlat. apply validate_passes.
      rewrite Hlon. split; [exact Hlat | now apply truthy_text].
    + reflexivity.
Qed.

(** ** The orchestrator's reply *)

Lemma analyze_success (cfg : Config) (w : World) (user : UserId) (body : AnalyzeBody)
    (st : Store) :
  valid_coordinates body = true ->
  exists st', analyze cfg w user body st =
                (Success (assemble cfg w (fieldDataOf w user body st)), st').
Proof.
  unfold valid_coordinates. intros Hv.
  apply andb_true_iff in Hv as [Hlat Hlon].
  unfold_analyze. unfold fieldDataOf. rewrite Hlat, Hlon. simpl.
  by_deliveries w ltac:(simpl); eexists; reflexivity.
Qed.

Lemma analysisBase_finite (cfg : Config) (reply : ImageryReply) (d : Draws) :
  let b := analysisBase cfg reply d in
  isFinite (ndvi_average b) = true /\ isFinite (healthy_percent b) = true /\
  isFinite (moderate_percent b) = true /\ isFinite (stressed_percent b) = true.
Proof.
  unfold analysisBase, imageryBase.
  destruct (_ && _); [destruct reply |]; simpl; auto.
Qed.

(** C1: for every request whose [lat] and [lon] pass the validation the
    handler replies with success, and the index average, the three
    percentages, the deviation and the seasonal norm of the reply are
    finite numbers.  The validation tests truthiness, so the request with
    latitude 0 is turned down with the 500 reply and nothing is stored,
    although its message says that a coordinate is missing and
    [POST /api/fields] stores a field at that very position. *)
Theorem analyze_finite (cfg : Config) (w : World) (user : UserId) (st : Store) :
  (forall body, valid_coordinates body = true ->
     exists r st',
       analyze cfg w user body st = (Success r, st') /\
       isFinite (ndvi_average (base r)) = true /\
       isFinite (healthy_percent (base r)) = true /\
       isFinite (moderate_percent (base r)) = true /\
       isFinite (stressed_percent (base r)) = true /\
       isFinite (ndvi_deviation r) = true /\
       isFinite (seasonal_norm r) = true) /\
  analyze cfg w user equatorBody st =
    (Failure 500 "Latitude and Longitude are required for analysis.", st) /\
  success (fst (analyze cfg w user equatorBody st)) = false /\
  (forall log date, exists c st',
     postFields Delivered log date user equatorField st = (inr c, st') /\
     created_coordinates c = {| lat := Num 0; lon := Num 37.62 |} /\
     fields st' !! created_id c = Some (created_row c) /\
     fromGeoJSONPoint (Some (location (created_row c))) =
       {| lat := Num 0; lon := Num 37.62 |}).
Proof.
  split; [| split; [| split]].
  - intros body Hv. destruct (analyze_success cfg w user body st Hv) as [st' E].
    eexists _, st'. split; [exact E |].
    destruct (analysisBase_finite cfg (imagery w) (draws w)) as (Hn & Hh & Hm & Hst).
    simpl. repeat split; try assumption.
    apply isFinite_sub; [assumption | reflexivity].
  - apply analyze_rejects. now left.
  - rewrite (analyze_rejects cfg w user equatorBody st); [reflexivity | now left].
  - intros log date. unfold postFields, createField, createFieldHandler, bind.
    destruct log; run; eexists _, _; (split; [reflexivity |]);
      (split; [reflexivity |]); (split; [apply lookup_insert_eq | reflexivity]).
Qed.

(** ** The store *)

Lemma select_field_Some (user : UserId) (id : option FieldId) (st : Store) (f : FieldRow) :
  db_select_field user id st = Some f ->
  exists i, id = Some i /\ fields st !! i = Some f /\ user_id f = user.
Proof.
  unfold db_select_field. destruct id as [i |]; [| discriminate].
  destruct (fields st !! i) as [g |] eqn:E; [| discriminate].
  destruct (N.eqb_spec (user_id g) user) as [Hu | _]; [| discriminate].
  intros [= <-]. now exists i.
Qed.

Lemma select_field_own (user : UserId) (i : FieldId) (st : Store) (f : FieldRow) :
  fields st !! i = Some f -> user_id f = user ->
  db_select_field user (Some i) st = Some f.
Proof.
  intros E Hu. unfold db_select_field. rewrite E.
  now destruct (N.eqb_spec (user_id f) user).
Qed.

Lemma references_insert_field (row : FieldRow) (st : Store) :
  referencesHold st -> referencesHold (db_insert_field row st).
Proof.
  intros H a Ha. destruct (H a Ha) as [f Hf]. simpl.
  destruct (decide (next_id st = a_field_id a)) as [<- | Hne].
  - exists row. apply lookup_insert_eq.
  - exists f. now rewrite lookup_insert_ne.
Qed.

Lemma references_insert_analysis (user : UserId) (row : AnalysisRow) (st st' : Store) :
  referencesHold st -> db_insert_analysis user row st = Some st' -> referencesHold st'.
Proof.
  intros H. unfold db_insert_analysis.
  destruct (db_select_field user (Some (a_field_id row)) st) as [f |] eqn:E; [| discriminate].
  intros [= <-] a Ha. simpl in Ha |- *.
  apply elem_of_cons in Ha as [-> | Ha]; [| now apply H].
  apply select_field_Some in E as (i & [= <-] & Hf & _). now exists f.
Qed.

Lemma references_saveAnalysis (user : UserId) (id : option FieldId) (r : AnalysisResult)
    (st : Store) :
  referencesHold st -> referencesHold (saveAnalysis user id r st).
Proof.
  intros H. unfold saveAnalysis. destruct id as [i |]; [| exact H].
  destruct (db_insert_analysis user (analysisRow i r) st) as [st' |] eqn:E; [| exact H].
  now apply (references_insert_analysis user (analysisRow i r) st st').
Qed.

Lemma references_update (user : UserId) (id : option FieldId) (snapshot : Snapshot)
    (st : Store) :
  referencesHold st -> referencesHold (db_update_last_analysis user id snapshot st).
Proof.
  intros H. unfold db_update_last_analysis.
  destruct id as [i |]; [| exact H].
  destruct (db_select_field user (Some i) st) as [f |]; [| exact H].
  intros a Ha. destruct (H a Ha) as [g Hg]. simpl.
  destruct (decide (i = a_field_id a)) as [<- | Hne].
  - eexists. apply lookup_insert_eq.
  - exists g. now rewrite lookup_insert_ne.
Qed.

Lemma references_delete (user : UserId) (id : FieldId) (st : Store) :
  referencesHold st -> referencesHold (db_delete_field user id st).
Proof.
  intros H. unfold db_delete_field.
  destruct (db_select_field user (Some id) st); [| exact H].
  intros a Ha. simpl in *. apply list_elem_of_filter in Ha as [Hne Ha].
  destruct (H a Ha) as [g Hg]. exists g. now rewrite lookup_delete_ne.
Qed.

Lemma references_activity (row : ActivityRow) (st : Store) :
  referencesHold st -> referencesHold (db_insert_activity row st).
Proof. intros H a Ha. exact (H a Ha). Qed.

Section Preservation.

Variable P : Store -> Prop.

Lemma preserves_ret {A} (a : A) : preserves P (ret a).
Proof. intros st H. exact H. Qed.

Lemma preserves_throw {A} (e : Error) : preserves P (@throw A e).
Proof. intros st H. exact H. Qed.

Lemma preserves_bind {A B} (c : Handler A) (k : A -> Handler B) :
  preserves P c -> (forall a, preserves P (k a)) -> preserves P (bind c k).
Proof.
  intros Hc Hk st H. unfold bind. specialize (Hc st H).
  destruct (c st) as [[a | e] st1]; simpl in *; [now apply Hk | exact Hc].
Qed.

Lemma preserves_await_select (d : Delivery) (user : UserId) (id : option FieldId) :
  preserves P (await_select d user id).
Proof. intros st H. now destruct d. Qed.

Lemma preserves_await_write (d : Delivery) (run : Store -> Store) :
  (forall st, P st -> P (run st)) -> preserves P (await_write d run).
Proof. intros Hrun st H. destruct d; simpl; auto. Qed.

End Preservation.

Create HintDb store.

#[local] Hint Resolve preserves_ret preserves_throw preserves_await_select
  preserves_await_write references_insert_field references_saveAnalysis
  references_update references_delete references_activity : store.

Lemma validate_preserves (P : Store -> Prop) (body : AnalyzeBody) :
  preserves P (validate body).
Proof. unfold validate. destruct (_ || _); auto with store. Qed.

Lemma analyzeHandler_references (cfg : Config) (w : World) (user : UserId)
    (body : AnalyzeBody) :
  preserves referencesHold (analyzeHandler cfg w user body).
Proof.
  unfold analyzeHandler.
  apply preserves_bind; [apply validate_preserves | intros _].
  apply preserves_bind; [auto with store | intros fieldData].
  repeat (apply preserves_bind; [auto with store | intros _]).
  auto with store.
Qed.

Lemma analyze_store (cfg : Config) (w : World) (user : UserId) (body : AnalyzeBody)
    (st : Store) :
  snd (analyze cfg w user body st) = snd (analyzeHandler cfg w user body st).
Proof.
  unfold analyze. now destruct (analyzeHandler cfg w user body st) as [[r | e] st'].
Qed.

Lemma createField_references (insert log : Delivery) (date : string) (user : UserId)
    (body : FieldBody) :
  preserves referencesHold (createFieldHandler insert log date user body).
Proof.
  unfold createFieldHandler.
  apply preserves_bind; [| intros data; apply preserves_bind; auto with store].
  intros st H. unfold await_insert_field.
  destruct insert; simpl; try exact H.
  destruct (new_name body); simpl; auto with store.
Qed.

Lemma deleteField_references (delete log : Delivery) (user : UserId) (id : FieldId)
    (st : Store) :
  referencesHold st -> referencesHold (snd (deleteField delete log user id st)).
Proof.
  intros H. unfold deleteField.
  apply preserves_bind; [| auto with store | exact H].
  intros s Hs. unfold await_delete. destruct delete; simpl; auto with store.
Qed.

Lemma references_step (st st' : Store) :
  step st st' -> referencesHold st -> referencesHold st'.
Proof.
  intros Hstep H. destruct Hstep as [insert log date user body st
                                    | delete log user id st
                                    | cfg w user body st].
  - now apply createField_references.
  - now apply deleteField_references.
  - rewrite analyze_store. now apply analyzeHandler_references.
Qed.

Lemma references_reachable (st : Store) : reachable st -> referencesHold st.
Proof.
  induction 1 as [| st st' _ IH Hstep].
  - intros a Ha. now apply elem_of_nil in Ha.
  - now apply (references_step st st').
Qed.

Lemma saveAnalysis_fields (user : UserId) (id : option FieldId) (r : AnalysisResult)
    (st : Store) :
  fields (saveAnalysis user id r st) = fields st.
Proof.
  unfold saveAnalysis, db_insert_analysis. destruct id as [i |]; [| reflexivity].
  now destruct (db_select_field user (Some (a_field_id (analysisRow i r))) st).
Qed.

Lemma saveAnalysis_own (user : UserId) (i : FieldId) (r : AnalysisResult) (st : Store)
    (f : FieldRow) :
  fields st !! i = Some f -> user_id f = user ->
  analyses (saveAnalysis user (Some i) r st) = analysisRow i r :: analyses st.
Proof.
  intros E Hu. unfold saveAnalysis, db_insert_analysis.
  change (a_field_id (analysisRow i r)) with i.
  now rewrite (select_field_own user i st f E Hu).
Qed.

Lemma update_analyses (user : UserId) (id : option FieldId) (snapshot : Snapshot)
    (st : Store) :
  analyses (db_update_last_analysis user id snapshot st) = analyses st.
Proof.
  unfold db_update_last_analysis. destruct id as [i |]; [| reflexivity].
  now destruct (db_select_field user (Some i) st).
Qed.

Lemma update_own (user : UserId) (i : FieldId) (snapshot : Snapshot) (st : Store)
    (f : FieldRow) :
  fields st !! i = Some f -> user_id f = user ->
  exists f', fields (db_update_last_analysis user (Some i) snapshot st) !! i = Some f' /\
             last_analysis f' = snapshot /\ user_id f' = user.
Proof.
  intros E Hu. unfold db_update_last_analysis.
  rewrite (select_field_own user i st f E Hu). simpl.
  eexists. split; [apply lookup_insert_eq |]. now split.
Qed.

Lemma update_fields (user : UserId) (id : option FieldId) (snapshot : Snapshot)
    (st : Store) (j : FieldId) (f' : FieldRow) :
  fields (db_update_last_analysis user id snapshot st) !! j = Some f' ->
  fields st !! j = Some f' \/ last_analysis f' = snapshot.
Proof.
  unfold db_update_last_analysis. destruct id as [i |]; [| now left].
  destruct (db_select_field user (Some i) st) as [f |]; [| now left].
  simpl. destruct (decide (i = j)) as [<- | Hne].
  - rewrite lookup_insert_eq. intros [= <-]. now right.
  - rewrite lookup_insert_ne by exact Hne. now left.
Qed.

Lemma latestAnalysis_cons (i : FieldId) (a : AnalysisRow) (st : Store) (rest : list AnalysisRow) :
  analyses st = a :: rest -> a_field_id a = i -> latestAnalysis i st = Some a.
Proof.
  intros E Hi. unfold latestAnalysis. rewrite E.
  now rewrite filter_cons_True.
Qed.

Lemma analyze_keeps_store (cfg : Config) (w : World) (user : UserId) (body : AnalyzeBody)
    (st : Store) :
  valid_coordinates body = false ->
  analyze cfg w user body st = (Failure 500 coordinatesRequired, st).
Proof.
  intros Hv. apply analyze_rejects. now apply andb_false_iff in Hv.
Qed.

Lemma analyze_agrees (cfg : Config) (w : World) (user : UserId) (body : AnalyzeBody)
    (st : Store) (i : FieldId) (f : FieldRow) :
  valid_coordinates body = true ->
  write_analysis w = Delivered -> write_field w = Delivered ->
  field_id body = Some i -> fields st !! i = Some f -> user_id f = user ->
  exists a f',
    latestAnalysis i (snd (analyze cfg w user body st)) = Some a /\
    fields (snd (analyze cfg w user body st)) !! i = Some f' /\
    snapshotOf a (last_analysis f') /\ user_id f' = user.
Proof.
  intros Hv H1 H2 Hid Hf Hu.
  apply andb_true_iff in Hv as [Hlat Hlon].
  unfold analyze, analyzeHandler, bind, validate, ret, throw.
  rewrite Hlat, Hlon, H1, H2, Hid. simpl.
  unfold await_select.
  destruct (field_lookup w) eqn:El; simpl.
  all: set (r := assemble _ _ _).
  all: set (st1 := saveAnalysis user (Some i) r st).
  all: assert (Hf1 : fields st1 !! i = Some f)
        by (unfold st1; now rewrite saveAnalysis_fields).
  all: destruct (update_own user i (ResultSnapshot r (write_date w)) st1 f Hf1 Hu)
        as (f' & Hf' & Hsnap & Hu').
  all: set (st2 := db_update_last_analysis user (Some i) _ st1) in *.
  all: assert (Ha : analyses st2 = analysisRow i r :: analyses st)
        by (unfold st2, st1; rewrite update_analyses;
            now apply (saveAnalysis_own user i r st f)).
  all: exists (analysisRow i r), f'.
  all: destruct (write_log w); simpl.
  all: split; [now apply (latestAnalysis_cons i _ _ (analyses st)) |].
  all: split; [exact Hf' |]; split; [| exact Hu'].
  all: rewrite Hsnap; reflexivity.
Qed.

Lemma analyze_snapshot_complete (cfg : Config) (w : World) (user : UserId)
    (body : AnalyzeBody) (st : Store) (j : FieldId) (f' : FieldRow) :
  fields (snd (analyze cfg w user body st)) !! j = Some f' ->
  fields st !! j = Some f' \/
  last_analysis f' =
    ResultSnapshot (assemble cfg w (fieldDataOf w user body st)) (write_date w).
Proof.
  unfold analyze, analyzeHandler, bind, validate, ret, throw, fieldDataOf.
  destruct (_ || _); [now left |].
  unfold await_select. destruct (field_lookup w); simpl; try (now left).
  all: set (r := assemble _ _ _).
  all: destruct (write_analysis w); simpl; try (now left).
  all: destruct (write_field w); simpl; try rewrite saveAnalysis_fields; try (now left).
  all: destruct (write_log w); simpl; try rewrite saveAnalysis_fields; try (now left).
  all: intros H; apply update_fields in H;
    rewrite ?saveAnalysis_fields in H; exact H.
Qed.

Lemma analyze_adds_row (cfg : Config) (w : World) (user : UserId) (body : AnalyzeBody)
    (st : Store) (i : FieldId) (f : FieldRow) :
  valid_coordinates body = true ->
  write_analysis w = Delivered ->
  field_id body = Some i -> fields st !! i = Some f -> user_id f = user ->
  analyses (snd (analyze cfg w user body st)) =
    analysisRow i (assemble cfg w (fieldDataOf w user body st)) :: analyses st.
Proof.
  intros Hv H1 Hid Hf Hu. apply andb_true_iff in Hv as [Hlat Hlon].
  unfold_analyze. unfold fieldDataOf. rewrite Hlat, Hlon, H1, Hid. run.
  destruct (field_lookup w); run.
  all: destruct (write_field w); run; rewrite ?update_analyses.
  all: try (destruct (write_log w); run; rewrite ?update_analyses).
  all: now apply (saveAnalysis_own user i _ st f).
Qed.

(** *** Overlapping requests *)

Lemma analyze_writes (cfg : Config) (w : World) (user : UserId) (body : AnalyzeBody)
    (st : Store) :
  snd (analyze cfg w user body st) = deliverAll (analyzePending cfg w user body st) st.
Proof.
  unfold_analyze. unfold analyzePending, valid_coordinates, analyzeWrites, fieldDataOf.
  destruct (truthy (body_lat body)), (truthy (body_lon body)); try reflexivity.
  simpl. by_deliveries w ltac:(simpl); reflexivity.
Qed.

Lemma createField_writes (insert log : Delivery) (date : string) (user : UserId)
    (body : FieldBody) (st : Store) :
  snd (createField insert log date user body st) =
  deliverAll (createPending insert log date user body) st.
Proof.
  unfold createField, createFieldHandler, bind, await_insert_field, createPending.
  destruct insert; [destruct (new_name body) |]; try reflexivity.
  destruct log; reflexivity.
Qed.

Lemma deleteField_writes (delete log : Delivery) (user : UserId) (id : FieldId)
    (st : Store) :
  snd (deleteField delete log user id st) = deliverAll (deletePending delete log user id) st.
Proof.
  unfold deleteField, bind, await_delete, await_write, deletePending.
  destruct delete; [destruct log |]; reflexivity.
Qed.

Lemma running_alone (p : Pending) (st : Store) (ps : list Pending) :
  running st (p :: ps) -> running (deliverAll p st) ([] :: ps).
Proof.
  revert st. induction p as [| [d wr] rest IH]; intros st H; [exact H |].
  apply IH. exact (running_write st [] d wr rest ps H).
Qed.

Lemma reachable_running (st : Store) : reachable st -> exists ps, running st ps.
Proof.
  induction 1 as [| st st' _ [ps IH] Hstep]; [exists []; constructor |].
  destruct Hstep as [insert log date user body st
                    | delete log user id st
                    | cfg w user body st].
  - rewrite createField_writes. eexists. apply running_alone, running_create, IH.
  - rewrite deleteField_writes. eexists. apply running_alone, running_delete, IH.
  - rewrite analyze_writes. eexists. apply running_alone, running_analyze, IH.
Qed.

Lemma references_perform (wr : Write) (st : Store) :
  referencesHold st -> referencesHold (perform wr st).
Proof. destruct wr; simpl; auto with store. Qed.

Lemma references_running (st : Store) (ps : list Pending) :
  running st ps -> referencesHold st.
Proof.
  induction 1 as [| | | | st before d wr rest after _ IH]; try assumption.
  - intros a Ha. now apply elem_of_nil in Ha.
  - destruct d; [now apply references_perform | exact IH].
Qed.

Lemma assembled_perform (wr : Write) (st : Store) :
  assembledWrite wr -> snapshotsAssembled st -> snapshotsAssembled (perform wr st).
Proof.
  intros Hw H i f. destruct wr as [row | user id r | user id snapshot | user id | row];
    simpl in *.
  - destruct (decide (next_id st = i)) as [<- | Hne].
    + rewrite lookup_insert_eq. now intros [= <-].
    + rewrite lookup_insert_ne by exact Hne. apply H.
  - rewrite saveAnalysis_fields. apply H.
  - intros Hf. apply update_fields in Hf as [Hf | ->]; [exact (H i f Hf) | exact Hw].
  - unfold db_delete_field. destruct (db_select_field user (Some id) st); [| apply H].
    simpl. intros Hf. apply lookup_delete_Some in Hf as [_ Hf]. exact (H i f Hf).
  - apply H.
Qed.

Lemma assembled_pending (cfg : Config) (w : World) (user : UserId) (body : AnalyzeBody)
    (st : Store) :
  Forall (fun dw => assembledWrite (snd dw)) (analyzePending cfg w user body st).
Proof.
  unfold analyzePending, analyzeWrites. destruct (valid_coordinates body); [| constructor].
  repeat constructor. simpl. eauto.
Qed.

Lemma assembled_running (st : Store) (ps : list Pending) :
  running st ps ->
  snapshotsAssembled st /\ Forall (Forall (fun dw => assembledWrite (snd dw))) ps.
Proof.
  induction 1 as [| st ps cfg w user body _ [IH1 IH2]
                   | st ps insert log date user body _ [IH1 IH2]
                   | st ps delete log user id _ [IH1 IH2]
                   | st before d wr rest after _ [IH1 IH2]].
  - split; [| constructor]. intros i f. simpl. now rewrite lookup_empty.
  - split; [exact IH1 |]. constructor; [apply assembled_pending | exact IH2].
  - split; [exact IH1 |]. constructor; [| exact IH2].
    unfold createPending. destruct insert; [destruct (new_name body) |];
      repeat constructor.
  - split; [exact IH1 |]. constructor; [| exact IH2].
    unfold deletePending. destruct delete; repeat constructor.
  - apply Forall_app in IH2 as [Hb Ha]. apply Forall_cons in Ha as [Hp Ha].
    apply Forall_cons in Hp as [Hw Hr]. split.
    + destruct d; [now apply assembled_perform | exact IH1].
    + apply Forall_app. split; [exact Hb |]. now constructor.
Qed.

Lemma oneField_running : running oneField [[]].
Proof.
  change oneField with
    (deliverAll (createPending Delivered Delivered "2024-06-30T10:00:00.000Z" 1%N wheatField)
       emptyStore).
  apply running_alone, running_create, running_empty.
Qed.

Lemma oneField_lookup : db_select_field 1%N (Some 0%N) oneField = Some northField.
Proof. reflexivity. Qed.

Lemma overlap_running : exists ps, running overlapStore ps.
Proof.
  pose proof (running_analyze oneField [[]] noProviders quietWorld 1%N moscowBody
                oneField_running) as H.
  apply (running_analyze _ _ noProviders laterWorld 1%N moscowBody) in H.
  unfold analyzePending, fieldDataOf in H.
  change (valid_coordinates moscowBody) with true in H.
  cbn [field_lookup quietWorld laterWorld field_id moscowBody] in H.
  rewrite oneField_lookup in H. cbv iota in H.
  fold firstResult in H. unfold analyzeWrites in H. cbv zeta in H.
  fold firstResult secondResult in H.
  cbn [write_analysis write_field write_log write_date quietWorld laterWorld field_id
       moscowBody] in H.
  apply (running_write oneField [_] Delivered _ _ _) in H.
  apply (running_write _ [] Delivered _ _ _) in H.
  apply (running_write _ [] Delivered _ _ _) in H.
  apply (running_write _ [_] Delivered _ _ _) in H.
  eexists. exact H.
Qed.

Lemma overlap_stale :
  exists a f,
    latestAnalysis 0%N overlapStore = Some a /\
    fields overlapStore !! 0%N = Some f /\
    a = analysisRow 0%N secondResult /\
    last_analysis f = ResultSnapshot firstResult "2024-07-01T09:00:02.000Z" /\
    ~ snapshotOf a (last_analysis f).
Proof.
  eexists _, _. split; [vm_compute; reflexivity |].
  split; [vm_compute; reflexivity |].
  split; [reflexivity |]. split; [reflexivity |].
  simpl. intros H. apply (f_equal a_healthy_percent) in H. vm_compute in H. discriminate H.
Qed.

(** C8: in every store that requests can leave behind, one after another
    or with their statements overlapping, each analysis names one field
    that is in the store (and that field has one owner), and each snapshot
    is the record of a new field or a fully assembled result.  The three
    writes of an orchestration are independent.  When a request runs with
    no other statement in between, and its analysis insert and its field
    update are both carried out on a field of the caller, the field's
    snapshot afterwards holds the values of its newest analysis; when the
    writes of two requests on a field overlap, it need not.  A request
    that fails at validation leaves the store as it was; a failing field
    lookup does not stop the request: the result is assembled with the
    crop unknown and the three writes go on.  A field's row after a
    request is either the row before it or carries the fully assembled
    result. *)
Theorem store_consistency (st : Store) (ps : list Pending) :
  running st ps ->
  (forall a, a ∈ analyses st -> exists f, fields st !! a_field_id a = Some f) /\
  (forall i f, fields st !! i = Some f -> assembledSnapshot (last_analysis f)) /\
  (forall cfg w user body,
     running (snd (analyze cfg w user body st)) ([] :: ps)) /\
  (forall cfg w user body i f,
     valid_coordinates body = true ->
     write_analysis w = Delivered -> write_field w = Delivered ->
     field_id body = Some i -> fields st !! i = Some f -> user_id f = user ->
     exists a f',
       latestAnalysis i (snd (analyze cfg w user body st)) = Some a /\
       fields (snd (analyze cfg w user body st)) !! i = Some f' /\
       snapshotOf a (last_analysis f') /\ user_id f' = user) /\
  (exists ps' a f,
     running overlapStore ps' /\
     latestAnalysis 0%N overlapStore = Some a /\
     fields overlapStore !! 0%N = Some f /\
     ~ snapshotOf a (last_analysis f)) /\
  (forall cfg w user body,
     valid_coordinates body = false ->
     analyze cfg w user body st = (Failure 500 coordinatesRequired, st)) /\
  (forall cfg w user body e,
     valid_coordinates body = true -> field_lookup w = Failed e ->
     fst (analyze cfg w user body st) = Success (assemble cfg w None) /\
     snd (analyze cfg w user body st) =
       deliverAll (analyzeWrites cfg w user body None) st /\
     (forall i f, write_analysis w = Delivered ->
        field_id body = Some i -> fields st !! i = Some f -> user_id f = user ->
        analyses (snd (analyze cfg w user body st)) =
          analysisRow i (assemble cfg w None) :: analyses st)) /\
  (forall cfg w user body j f',
     fields (snd (analyze cfg w user body st)) !! j = Some f' ->
     fields st !! j = Some f' \/
     last_analysis f' =
       ResultSnapshot (assemble cfg w (fieldDataOf w user body st)) (write_date w)).
Proof.
  intros Hrun.
  split; [exact (references_running st ps Hrun) |].
  split; [exact (proj1 (assembled_running st ps Hrun)) |].
  split; [| split; [| split; [| split; [| split]]]].
  - intros cfg w user body. rewrite analyze_writes.
    apply running_alone, running_analyze, Hrun.
  - intros cfg w user body i f. apply analyze_agrees.
  - destruct overlap_running as [ps' Hps'].
    destruct overlap_stale as (a & f & Ha & Hf & _ & _ & Hne).
    now exists ps', a, f.
  - intros cfg w user body. apply analyze_keeps_store.
  - intros cfg w user body e Hv Hl.
    assert (Hnone : fieldDataOf w user body st = None)
      by (unfold fieldDataOf; now rewrite Hl).
    split; [| split].
    + destruct (analyze_success cfg w user body st Hv) as [st' E].
      now rewrite E, Hnone.
    + rewrite analyze_writes. unfold analyzePending. now rewrite Hv, Hnone.
    + intros i f Hw Hid Hf Hu. rewrite <- Hnone.
      now apply (analyze_adds_row cfg w user body st i f).
  - intros cfg w user body j f'. apply analyze_snapshot_complete.
Qed.

Lemma oneField_reachable : reachable oneField.
Proof.
  apply (reachable_step emptyStore oneField reachable_empty).
  exact (step_create Delivered Delivered "2024-06-30T10:00:00.000Z" 1%N wheatField emptyStore).
Qed.

Lemma store_consistency_witness :
  exists a f',
    latestAnalysis 0%N (snd (analyze noProviders quietWorld 1%N moscowBody oneField)) = Some a /\
    fields (snd (analyze noProviders quietWorld 1%N moscowBody oneField)) !! 0%N = Some f' /\
    snapshotOf a (last_analysis f') /\ user_id f' = 1%N.
Proof.
  refine (proj1 (proj2 (proj2 (proj2 (store_consistency oneField [[]] oneField_running))))
            noProviders quietWorld 1%N moscowBody 0%N northField
            _ _ _ _ _ _); reflexivity.
Defined.

(** C8, counterexample: after a request whose analysis insert is carried
    out and whose field update fails, the field has an analysis while its
    snapshot is still the all-zero record of its creation. *)
Lemma stale_snapshot_reachable :
  reachable staleStore /\
  exists a f,
    latestAnalysis 0%N staleStore = Some a /\
    fields staleStore !! 0%N = Some f /\
    last_analysis f = InitialSnapshot "2024-06-30T10:00:00.000Z" /\
    ~ snapshotOf a (last_analysis f).
Proof.
  split.
  - apply (reachable_step oneField staleStore oneField_reachable).
    exact (step_analyze noProviders updateFails 1%N moscowBody oneField).
  - eexists _, _. split; [vm_compute; reflexivity |].
    split; [vm_compute; reflexivity |].
    split; [reflexivity |]. simpl. tauto.
Qed.

(** A run whose field lookup fails: the reply is a success computed for
    the unknown crop, and the analysis is stored and the snapshot written
    all the same. *)
Lemma failed_lookup_goes_on :
  fst (analyze noProviders lookupFails 1%N moscowBody oneField) =
    Success (assemble noProviders lookupFails None) /\
  analyses (snd (analyze noProviders lookupFails 1%N moscowBody oneField)) =
    [analysisRow 0%N (assemble noProviders lookupFails None)] /\
  exists f,
    fields (snd (analyze noProviders lookupFails 1%N moscowBody oneField)) !! 0%N = Some f /\
    last_analysis f =
      ResultSnapshot (assemble noProviders lookupFails None) "2024-07-01T09:00:02.000Z".
Proof.
  split; [reflexivity |]. split; [reflexivity |].
  eexists. split; [vm_compute; reflexivity | reflexivity].
Qed.

(** * Further properties of the handlers *)

(** ** Authentication middleware *)

Lemma split_space_noSpace (t : string) : noSpace t = true -> split_space t = [t].
Proof.
  induction t as [| c t IH]; [reflexivity |]. simpl.
  intros H. apply andb_true_iff in H as [Hc Ht]. apply negb_true_iff in Hc.
  now rewrite Hc, (IH Ht).
Qed.

Lemma split_space_app (a b : string) :
  noSpace a = true -> split_space (a ++ String " " b) = a :: split_space b.
Proof.
  induction a as [| c a IH]; [reflexivity |]. simpl.
  intros H. apply andb_true_iff in H as [Hc Ha]. apply negb_true_iff in Hc.
  change (String c a ++ String " " b) with (String c (a ++ String " " b)).
  simpl. now rewrite Hc, (IH Ha).
Qed.

Lemma append_not_empty (a b : string) : a <> "" -> (a ++ b) <> "".
Proof. destruct a; [congruence | discriminate]. Qed.

Lemma requireAuth_second_word (scheme token : string) (getUser : string -> AuthAnswer) :
  noSpace scheme = true -> scheme <> "" -> noSpace token = true -> token <> "" ->
  requireAuth (Some (scheme ++ String " " token)) getUser = gateOf token (getUser token).
Proof.
  intros Hs Hne Ht Htne. unfold requireAuth.
  destruct (String.eqb_spec (scheme ++ String " " token) "") as [E | _].
  { now apply append_not_empty in E. }
  rewrite (split_space_app scheme token Hs), (split_space_noSpace token Ht). simpl.
  now destruct (String.eqb_spec token "").
Qed.

(** X1: the token the client puts after "Bearer " is the token the auth
    service is asked about, and the gate's answer is the service's answer
    for it; the scheme word is not looked at, any other word in its place
    gives the same result. *)
Theorem bearer_token_reaches_service (token scheme : string)
    (getUser : string -> AuthAnswer) :
  noSpace token = true -> token <> "" -> noSpace scheme = true -> scheme <> "" ->
  requireAuth (Some (bearer token)) getUser = gateOf token (getUser token) /\
  requireAuth (Some (scheme ++ String " " token)) getUser =
    requireAuth (Some (bearer token)) getUser.
Proof.
  intros Ht Htne Hs Hsne.
  assert (Hb : requireAuth (Some (bearer token)) getUser = gateOf token (getUser token)).
  { apply (requireAuth_second_word "Bearer" token getUser); try assumption;
      [reflexivity | discriminate]. }
  split; [exact Hb |]. rewrite Hb. now apply requireAuth_second_word.
Qed.

Lemma bearer_token_reaches_service_witness :
  requireAuth (Some (bearer "eyJhbGciOi.payload.sig")) oneSession =
    Next 1%N "eyJhbGciOi.payload.sig".
Proof.
  exact (proj1 (bearer_token_reaches_service "eyJhbGciOi.payload.sig" "Token" oneSession
                  eq_refl ltac:(discriminate) eq_refl ltac:(discriminate))).
Defined.

Lemma gateOf_next (token tok : string) (answer : AuthAnswer) (u : UserId) :
  gateOf token answer = Next u tok -> tok = token /\ answer = AuthUser u.
Proof. destruct answer; simpl; try discriminate. now intros [= -> ->]. Qed.

Lemma gateOf_refused (token : string) (answer : AuthAnswer) (status : Z) (err : string) :
  gateOf token answer = Refused status err -> status = 401.
Proof. destruct answer; simpl; try discriminate; now intros [= <- _]. Qed.

(** X2: the middleware hands a request on only when the header has a
    non-empty second word and the auth service returned a user for exactly
    that word; every refusal is a 401, and a header of one word (a bare
    token) is refused without the service being asked. *)
Theorem requireAuth_gate (authorization : option string)
    (getUser : string -> AuthAnswer) :
  (forall u tok, requireAuth authorization getUser = Next u tok ->
     exists header, authorization = Some header /\
       split_space header !! 1%nat = Some tok /\ tok <> "" /\
       getUser tok = AuthUser u) /\
  (forall status err, requireAuth authorization getUser = Refused status err ->
     status = 401) /\
  (forall header, authorization = Some header -> header <> "" -> noSpace header = true ->
     forall other, requireAuth authorization other = Refused 401 "Unauthorized: No token").
Proof.
  unfold requireAuth. split; [| split].
  - intros u tok. destruct authorization as [header |]; [| discriminate].
    destruct (String.eqb header ""); [discriminate |].
    destruct (split_space header !! 1%nat) as [token |] eqn:E; [| discriminate].
    destruct (String.eqb_spec token "") as [| Hne]; [discriminate |].
    intros H. apply gateOf_next in H as [-> H]. now exists header.
  - intros status err. destruct authorization as [header |]; [| now intros [= <- _]].
    destruct (String.eqb header ""); [now intros [= <- _] |].
    destruct (split_space header !! 1%nat) as [token |]; [| now intros [= <- _]].
    destruct (String.eqb token ""); [now intros [= <- _] |].
    apply gateOf_refused.
  - intros header -> Hne Hns other. rewrite (split_space_noSpace header Hns). simpl.
    now destruct (String.eqb_spec header "").
Qed.

(** ** Invariants of the store *)

Section StepInvariant.

Variable P : Store -> Prop.

Hypothesis P_insert_field : forall row st, P st -> P (db_insert_field row st).
Hypothesis P_saveAnalysis : forall user id r st, P st -> P (saveAnalysis user id r st).
Hypothesis P_update : forall user id snapshot st,
  P st -> P (db_update_last_analysis user id snapshot st).
Hypothesis P_delete : forall user id st, P st -> P (db_delete_field user id st).
Hypothesis P_activity : forall row st, P st -> P (db_insert_activity row st).

Lemma step_preserves (st st' : Store) : step st st' -> P st -> P st'.
Proof.
  intros Hstep H. destruct Hstep as [insert log date user body st
                                    | delete log user id st
                                    | cfg w user body st].
  - unfold createField, createFieldHandler.
    apply preserves_bind; [| intros data; apply preserves_bind | exact H].
    + intros s Hs. unfold await_insert_field.
      destruct insert; simpl; try exact Hs.
      destruct (new_name body); simpl; auto.
    + apply preserves_await_write. auto.
    + intros _. apply preserves_ret.
  - unfold deleteField.
    apply preserves_bind; [| intros _; apply preserves_await_write; auto | exact H].
    intros s Hs. unfold await_delete. destruct delete; simpl; auto.
  - rewrite analyze_store. unfold analyzeHandler.
    apply preserves_bind; [apply validate_preserves | intros _ | exact H].
    apply preserves_bind; [apply preserves_await_select | intros fieldData].
    repeat (apply preserves_bind; [apply preserves_await_write; auto | intros _]).
    apply preserves_ret.
Qed.

Lemma reachable_preserves (st : Store) : P emptyStore -> reachable st -> P st.
Proof.
  intros H0. induction 1 as [| st st' _ IH Hstep]; [exact H0 |].
  now apply (step_preserves st st').
Qed.

End StepInvariant.

Lemma select_field_below (user : UserId) (i : FieldId) (st : Store) (f : FieldRow) :
  db_select_field user (Some i) st = Some f -> fields st !! i = Some f.
Proof.
  intros H. apply select_field_Some in H as (j & [= <-] & H & _). exact H.
Qed.

Lemma idsBelow_reachable (st : Store) : reachable st -> idsBelow st.
Proof.
  apply reachable_preserves.
  - intros row s H i f. simpl.
    destruct (decide (next_id s = i)) as [<- | Hne]; [lia |].
    rewrite lookup_insert_ne by exact Hne. intros Hi. specialize (H i f Hi). lia.
  - intros user id r s H i f. rewrite saveAnalysis_fields.
    unfold saveAnalysis, db_insert_analysis. destruct id as [k |]; [| apply H].
    destruct (db_select_field user (Some (a_field_id (analysisRow k r))) s); apply H.
  - intros user id snapshot s H i f. unfold db_update_last_analysis.
    destruct id as [k |]; [| apply H].
    destruct (db_select_field user (Some k) s) as [g |] eqn:E; [| apply H].
    simpl. apply select_field_below in E.
    destruct (decide (k = i)) as [<- | Hne].
    + intros _. exact (H k g E).
    + rewrite lookup_insert_ne by exact Hne. apply H.
  - intros user id s H i f. unfold db_delete_field.
    destruct (db_select_field user (Some id) s); [| apply H].
    simpl. destruct (decide (id = i)) as [<- | Hne].
    + now rewrite lookup_delete_eq.
    + rewrite lookup_delete_ne by exact Hne. apply H.
  - intros row s H. exact H.
  - intros i f. simpl. now rewrite lookup_empty.
Qed.

Lemma createField_store (insert log : Delivery) (date : string) (user : UserId)
    (body : FieldBody) (st : Store) :
  let st' := snd (createField insert log date user body st) in
  analyses st' = analyses st /\
  (fields st' = fields st \/
   exists n, new_name body = Some n /\ insert = Delivered /\
     fields st' = <[next_id st := newField user body date n]> (fields st)).
Proof.
  unfold createField, createFieldHandler, bind, await_insert_field.
  destruct insert; simpl; try (split; [reflexivity | now left]).
  destruct (new_name body) as [n |]; simpl; [| split; [reflexivity | now left]].
  destruct log; simpl; (split; [reflexivity | right; now exists n]).
Qed.

(** X3: in every reachable store the ids in use lie below the counter, so
    adding a field never replaces or alters a field that is there, and
    never touches the analyses. *)
Theorem createField_keeps_fields (st : Store) :
  reachable st ->
  idsBelow st /\
  forall insert log date user body,
    analyses (snd (createField insert log date user body st)) = analyses st /\
    forall j f, fields st !! j = Some f ->
      fields (snd (createField insert log date user body st)) !! j = Some f.
Proof.
  intros Hreach. pose proof (idsBelow_reachable st Hreach) as Hids.
  split; [exact Hids |]. intros insert log date user body.
  destruct (createField_store insert log date user body st) as [Ha Hf].
  split; [exact Ha |]. intros j f Hj.
  destruct Hf as [-> | (n & _ & _ & ->)]; [exact Hj |].
  rewrite lookup_insert_ne; [exact Hj |].
  specialize (Hids j f Hj). lia.
Qed.

Lemma createField_keeps_fields_witness :
  fields (snd (createField Delivered Delivered "2024-07-02T08:00:00.000Z" 2%N wheatField
                 oneField)) !! 0%N =
    Some (newField 1%N wheatField "2024-06-30T10:00:00.000Z" "North").
Proof.
  refine (proj2 (proj2 (createField_keeps_fields oneField oneField_reachable)
                   Delivered Delivered "2024-07-02T08:00:00.000Z" 2%N wheatField) 0%N _ _).
  reflexivity.
Defined.

(** ** What a request changes in the store *)

Lemma sameField_refl (f : FieldRow) : sameField f f.
Proof. now repeat split. Qed.

Lemma update_lookup (user : UserId) (id : option FieldId) (snapshot : Snapshot)
    (st : Store) (j : FieldId) (f : FieldRow) :
  fields st !! j = Some f ->
  exists f', fields (db_update_last_analysis user id snapshot st) !! j = Some f' /\
    sameField f f' /\
    (f' = f \/ (id = Some j /\ user_id f = user /\ last_analysis f' = snapshot)).
Proof.
  intros Hj.
  assert (Hsame : exists f', fields st !! j = Some f' /\ sameField f f' /\
            (f' = f \/ (id = Some j /\ user_id f = user /\ last_analysis f' = snapshot))).
  { exists f. split; [exact Hj |]. split; [apply sameField_refl | now left]. }
  unfold db_update_last_analysis.
  destruct id as [i |]; [| exact Hsame].
  destruct (db_select_field user (Some i) st) as [g |] eqn:E; [| exact Hsame].
  apply select_field_Some in E as (k & [= <-] & Hg & Hu). simpl.
  destruct (decide (i = j)) as [-> | Hne].
  - rewrite Hj in Hg. injection Hg as <-.
    eexists. split; [apply lookup_insert_eq |]. split; [now repeat split |].
    right. now repeat split.
  - rewrite lookup_insert_ne by exact Hne. exact Hsame.
Qed.

Lemma update_lookup_None (user : UserId) (id : option FieldId) (snapshot : Snapshot)
    (st : Store) (j : FieldId) :
  fields st !! j = None ->
  fields (db_update_last_analysis user id snapshot st) !! j = None.
Proof.
  intros Hj. unfold db_update_last_analysis.
  destruct id as [i |]; [| exact Hj].
  destruct (db_select_field user (Some i) st) as [g |] eqn:E; [| exact Hj].
  apply select_field_Some in E as (k & [= <-] & Hg & _). simpl.
  destruct (decide (i = j)) as [-> | Hne]; [congruence |].
  now rewrite lookup_insert_ne.
Qed.

Lemma update_fields_ext (user : UserId) (id : option FieldId) (snapshot : Snapshot)
    (s1 s2 : Store) :
  fields s1 = fields s2 ->
  fields (db_update_last_analysis user id snapshot s1) =
  fields (db_update_last_analysis user id snapshot s2).
Proof.
  intros E. unfold db_update_last_analysis, db_select_field.
  destruct id as [i |]; [| exact E]. rewrite E.
  destruct (fields s2 !! i) as [f |]; [| exact E].
  now destruct (user_id f =? user)%N.
Qed.

Lemma analyze_fields (cfg : Config) (w : World) (user : UserId) (body : AnalyzeBody)
    (st : Store) :
  fields (snd (analyze cfg w user body st)) = fields st \/
  fields (snd (analyze cfg w user body st)) =
    fields (db_update_last_analysis user (field_id body)
              (ResultSnapshot (assemble cfg w (fieldDataOf w user body st)) (write_date w)) st).
Proof.
  unfold_analyze. unfold fieldDataOf.
  destruct (_ || _); [now left |]. simpl.
  by_deliveries w ltac:(simpl; rewrite ?saveAnalysis_fields; try (now left)).
  all: right; apply update_fields_ext; first [apply saveAnalysis_fields | reflexivity].
Qed.

(** X4: a request to [/api/analyze] creates and removes no field, and
    changes nothing in a field but its snapshot; the only field whose
    snapshot it can change is the one named in the request, and only when
    that field is the caller's. *)
Theorem analyze_touches_one_field (cfg : Config) (w : World) (user : UserId)
    (body : AnalyzeBody) (st : Store) (j : FieldId) :
  (fields st !! j = None -> fields (snd (analyze cfg w user body st)) !! j = None) /\
  (forall f, fields st !! j = Some f ->
     exists f', fields (snd (analyze cfg w user body st)) !! j = Some f' /\
       sameField f f' /\
       (f' = f \/ (field_id body = Some j /\ user_id f = user))).
Proof.
  destruct (analyze_fields cfg w user body st) as [-> | ->].
  - split; [trivial |]. intros f Hj. exists f.
    split; [exact Hj |]. split; [apply sameField_refl | now left].
  - split; [apply update_lookup_None |]. intros f Hj.
    destruct (update_lookup user (field_id body)
                (ResultSnapshot (assemble cfg w (fieldDataOf w user body st)) (write_date w))
                st j f Hj) as (f' & Hf' & Hsame & Hcase).
    exists f'. split; [exact Hf' |]. split; [exact Hsame |].
    destruct Hcase as [-> | (Hid & Hu & _)]; [now left | now right].
Qed.

Lemma saveAnalysis_analyses (user : UserId) (id : option FieldId) (r : AnalysisResult)
    (st : Store) :
  analyses (saveAnalysis user id r st) = analyses st \/
  exists i f, id = Some i /\ fields st !! i = Some f /\ user_id f = user /\
    analyses (saveAnalysis user id r st) = analysisRow i r :: analyses st.
Proof.
  unfold saveAnalysis, db_insert_analysis. destruct id as [i |]; [| now left].
  change (a_field_id (analysisRow i r)) with i.
  destruct (db_select_field user (Some i) st) as [f |] eqn:E; [| now left].
  apply select_field_Some in E as (k & [= <-] & Hf & Hu).
  right. now exists i, f.
Qed.

Lemma saveAnalysis_log (user : UserId) (id : option FieldId) (r : AnalysisResult)
    (st : Store) :
  activity_log (saveAnalysis user id r st) = activity_log st.
Proof.
  unfold saveAnalysis, db_insert_analysis. destruct id as [i |]; [| reflexivity].
  now destruct (db_select_field user (Some (a_field_id (analysisRow i r))) st).
Qed.

Lemma update_log (user : UserId) (id : option FieldId) (snapshot : Snapshot) (st : Store) :
  activity_log (db_update_last_analysis user id snapshot st) = activity_log st.
Proof.
  unfold db_update_last_analysis. destruct id as [i |]; [| reflexivity].
  now destruct (db_select_field user (Some i) st).
Qed.

(** X5: [/api/analyze] only ever adds to the analyses: the rows that were
    there stay, in their order, and at most one row is put in front of
    them, for the field named in the request, which is then a field of the
    caller. *)
Theorem analyze_appends (cfg : Config) (w : World) (user : UserId)
    (body : AnalyzeBody) (st : Store) :
  analyses (snd (analyze cfg w user body st)) = analyses st \/
  exists i f, field_id body = Some i /\ fields st !! i = Some f /\ user_id f = user /\
    analyses (snd (analyze cfg w user body st)) =
      analysisRow i (assemble cfg w (fieldDataOf w user body st)) :: analyses st.
Proof.
  unfold_analyze. unfold fieldDataOf.
  destruct (_ || _); [now left |]. simpl.
  by_deliveries w ltac:(simpl; rewrite ?update_analyses; try (now left)).
  all: apply saveAnalysis_analyses.
Qed.

Lemma delete_log (user : UserId) (id : FieldId) (st : Store) :
  activity_log (db_delete_field user id st) = activity_log st.
Proof. unfold db_delete_field. now destruct (db_select_field user (Some id) st). Qed.

(** X6: no request rewrites the activity log: each of the three writing
    requests keeps the entries that were there and adds at most one in
    front of them. *)
Theorem activity_log_appends (st st' : Store) :
  step st st' ->
  exists new, activity_log st' = (new ++ activity_log st)%list /\ (length new <= 1)%nat.
Proof.
  intros Hstep. destruct Hstep as [insert log date user body st
                                  | delete log user id st
                                  | cfg w user body st].
  - unfold createField, createFieldHandler, bind, await_insert_field.
    destruct insert; simpl; try (exists []; split; [reflexivity | simpl; lia]).
    destruct (new_name body); simpl; [| exists []; split; [reflexivity | simpl; lia]].
    destruct log; simpl; try (exists []; split; [reflexivity | simpl; lia]).
    eexists [_]. split; [reflexivity | simpl; lia].
  - unfold deleteField, bind, await_delete, await_write.
    destruct delete, log; cbn -[db_delete_field]; rewrite ?delete_log;
      try (exists []; split; [reflexivity | simpl; lia]);
      eexists [_]; (split; [reflexivity | simpl; lia]).
  - unfold_analyze. destruct (_ || _); [exists []; split; [reflexivity | simpl; lia] |].
    simpl.
    by_deliveries w ltac:(simpl; rewrite ?update_log, ?saveAnalysis_log;
                          try (exists []; split; [reflexivity | simpl; lia])).
    all: eexists [_]; split; [reflexivity | simpl; lia].
Qed.

Lemma activity_log_appends_witness :
  exists new, activity_log staleStore = (new ++ activity_log oneField)%list /\
              (length new <= 1)%nat.
Proof.
  exact (activity_log_appends oneField staleStore
           (step_analyze noProviders updateFails 1%N moscowBody oneField)).
Defined.

Lemma analyze_keeps_owner (cfg : Config) (w : World) (user : UserId) (body : AnalyzeBody)
    (st : Store) (j : FieldId) (f : FieldRow) :
  fields st !! j = Some f ->
  exists f', fields (snd (analyze cfg w user body st)) !! j = Some f' /\
             user_id f' = user_id f.
Proof.
  intros Hj. destruct (analyze_fields cfg w user body st) as [-> | ->].
  - now exists f.
  - destruct (update_lookup user (field_id body)
                (ResultSnapshot (assemble cfg w (fieldDataOf w user body st)) (write_date w))
                st j f Hj) as (f' & Hf' & (Hu & _) & _).
    now exists f'.
Qed.

(** X7: repeating a request does not merge with the earlier one: when the
    analysis insert is carried out both times on a field of the caller,
    the store afterwards holds two more analysis rows for the field, the
    later one in front. *)
Theorem repeated_analysis_adds_two (cfg : Config) (w1 w2 : World) (user : UserId)
    (body : AnalyzeBody) (st : Store) (i : FieldId) (f : FieldRow) :
  valid_coordinates body = true ->
  write_analysis w1 = Delivered -> write_analysis w2 = Delivered ->
  field_id body = Some i -> fields st !! i = Some f -> user_id f = user ->
  analyses (snd (analyze cfg w2 user body (snd (analyze cfg w1 user body st)))) =
    analysisRow i (assemble cfg w2
                     (fieldDataOf w2 user body (snd (analyze cfg w1 user body st))))
    :: analysisRow i (assemble cfg w1 (fieldDataOf w1 user body st))
    :: analyses st.
Proof.
  intros Hv Hw1 Hw2 Hid Hf Hu.
  destruct (analyze_keeps_owner cfg w1 user body st i f Hf) as (f1 & Hf1 & Hu1).
  rewrite (analyze_adds_row cfg w2 user body _ i f1 Hv Hw2 Hid Hf1) by congruence.
  now rewrite (analyze_adds_row cfg w1 user body st i f Hv Hw1 Hid Hf Hu).
Qed.

Lemma repeated_analysis_adds_two_witness :
  length (analyses (snd (analyze noProviders quietWorld 1%N moscowBody
                           (snd (analyze noProviders quietWorld 1%N moscowBody oneField))))) =
  2%nat.
Proof.
  rewrite (repeated_analysis_adds_two noProviders quietWorld quietWorld 1%N moscowBody
             oneField 0%N (newField 1%N wheatField "2024-06-30T10:00:00.000Z" "North"));
    reflexivity.
Defined.

Lemma saveAnalysis_unknown (user : UserId) (id : option FieldId) (r : AnalysisResult)
    (st : Store) :
  db_select_field user id st = None -> saveAnalysis user id r st = st.
Proof.
  unfold saveAnalysis, db_insert_analysis. destruct id as [i |]; [| reflexivity].
  change (a_field_id (analysisRow i r)) with i. now intros ->.
Qed.

Lemma update_unknown (user : UserId) (id : option FieldId) (snapshot : Snapshot)
    (st : Store) :
  db_select_field user id st = None -> db_update_last_analysis user id snapshot st = st.
Proof.
  unfold db_update_last_analysis. destruct id as [i |]; [| reflexivity]. now intros ->.
Qed.

(** X8: a request that names no field, a field that does not exist or a
    field of another user is still answered with success (for truthy
    coordinates), with the crop taken as unknown; it stores no analysis
    and changes no field. *)
Theorem analyze_unknown_field (cfg : Config) (w : World) (user : UserId)
    (body : AnalyzeBody) (st : Store) :
  valid_coordinates body = true ->
  db_select_field user (field_id body) st = None ->
  fst (analyze cfg w user body st) = Success (assemble cfg w None) /\
  fields (snd (analyze cfg w user body st)) = fields st /\
  analyses (snd (analyze cfg w user body st)) = analyses st.
Proof.
  intros Hv Hnone. apply andb_true_iff in Hv as [Hlat Hlon].
  unfold_analyze. rewrite Hlat, Hlon. simpl.
  by_deliveries w ltac:(simpl;
                        rewrite ?Hnone, ?saveAnalysis_unknown, ?update_unknown by exact Hnone).
  all: now repeat split.
Qed.

Lemma analyze_unknown_field_witness :
  fst (analyze noProviders quietWorld 2%N moscowBody oneField) =
    Success (assemble noProviders quietWorld None) /\
  fields (snd (analyze noProviders quietWorld 2%N moscowBody oneField)) = fields oneField /\
  analyses (snd (analyze noProviders quietWorld 2%N moscowBody oneField)) = analyses oneField.
Proof.
  apply (analyze_unknown_field noProviders quietWorld 2%N moscowBody oneField); reflexivity.
Defined.

(** ** The field routes *)

Lemma postFields_created (insert log : Delivery) (date : string) (user : UserId)
    (body : FieldBody) (st st' : Store) (c : CreatedField) :
  postFields insert log date user body st = (inr c, st') ->
  exists n, new_name body = Some n /\ insert = Delivered /\
    c = {| created_id := next_id st; created_row := newField user body date n;
           created_coordinates := finalCoordinates body;
           created_polygon := new_polygon body |} /\
    fields st' = <[next_id st := newField user body date n]> (fields st).
Proof.
  unfold postFields, createField, createFieldHandler, bind, await_insert_field.
  destruct insert; try discriminate.
  destruct (new_name body) as [n |]; [| discriminate].
  destruct log; run; intros [= <- <-]; try discriminate; now exists n.
Qed.

Lemma newField_coordinates (user : UserId) (body : FieldBody) (date n : string) :
  fromGeoJSONPoint (Some (location (newField user body date n))) = finalCoordinates body.
Proof. unfold newField, finalCoordinates. now destruct (new_coordinates body). Qed.

(** X9: a field that [POST /api/fields] reports as created is in the list
    [GET /api/fields] gives its owner, under the id of the reply and with
    the coordinates of the reply (those of [coordinates] when the request
    has them, [lat] and [lon] otherwise); no other user's list shows a
    field under that id. *)
Theorem created_field_is_listed (insert log : Delivery) (date : string) (user : UserId)
    (body : FieldBody) (st st' : Store) (c : CreatedField) :
  postFields insert log date user body st = (inr c, st') ->
  (exists l item, getFields Delivered user st' = inr l /\ item ∈ l /\
     listed_id item = created_id c /\ listed_row item = created_row c /\
     listed_coordinates item = created_coordinates c) /\
  (forall other l item, other <> user -> getFields Delivered other st' = inr l ->
     item ∈ l -> listed_id item <> created_id c).
Proof.
  intros H. apply postFields_created in H as (n & Hn & -> & -> & Hf). simpl. split.
  - eexists _, (transformField (next_id st, newField user body date n)).
    split; [reflexivity |]. split.
    + apply list_elem_of_fmap. eexists. split; [reflexivity |].
      apply list_elem_of_filter. split; [reflexivity |].
      apply elem_of_map_to_list. rewrite Hf. apply lookup_insert_eq.
    + repeat split. apply newField_coordinates.
  - intros other l item Hother [= <-] Hin Hid.
    apply list_elem_of_fmap in Hin as ([j g] & -> & Hin).
    apply list_elem_of_filter in Hin as [Hu Hin].
    apply elem_of_map_to_list in Hin. simpl in *. subst j.
    rewrite Hf, lookup_insert_eq in Hin. injection Hin as <-. now apply Hother.
Qed.

Lemma created_field_is_listed_witness :
  exists l item,
    getFields Delivered 1%N oneField = inr l /\ item ∈ l /\
    listed_id item = 0%N /\
    listed_row item = newField 1%N wheatField "2024-06-30T10:00:00.000Z" "North" /\
    listed_coordinates item = {| lat := Num 55.75; lon := Num 37.62 |}.
Proof.
  exact (proj1 (created_field_is_listed Delivered Delivered "2024-06-30T10:00:00.000Z"
                  1%N wheatField emptyStore oneField _ eq_refl)).
Defined.

Lemma closedRing_ends (first final : Position) (rest : list Position) :
  last (first :: rest) = Some final ->
  closedRing (first :: rest) =
    (3 <=? length (first :: rest))%nat && negb (differs first final).
Proof. intros H. unfold closedRing. now rewrite H. Qed.

Lemma polygon_round_trip_iff (p : list Position) :
  fromGeoJSONPolygon (toGeoJSONPolygon p) = p <-> closedRing p = true \/ p = [].
Proof.
  destruct (Nat.ltb_spec (length p) 3) as [Hlt | Hge].
  - assert (E : fromGeoJSONPolygon (toGeoJSONPolygon p) = []).
    { unfold toGeoJSONPolygon. now destruct (Nat.ltb_spec (length p) 3); [| lia]. }
    rewrite E. split.
    + intros <-. now right.
    + intros [H | ->]; [| reflexivity].
      destruct p as [| first rest]; [reflexivity |].
      destruct (last (first :: rest)) as [final |] eqn:Hlast.
      * rewrite (closedRing_ends first final rest Hlast) in H.
        apply andb_true_iff in H as [H _]. apply Nat.leb_le in H. lia.
      * apply last_None in Hlast. discriminate.
  - destruct p as [| first rest]; [simpl in Hge; lia |].
    destruct (last (first :: rest)) as [final |] eqn:Hlast.
    2: { apply last_None in Hlast. discriminate. }
    rewrite (polygon_round_trip (first :: rest) first final Hge eq_refl Hlast).
    rewrite (closedRing_ends first final rest Hlast).
    destruct (Nat.leb_spec 3 (length (first :: rest))) as [_ | Hlt]; [| lia].
    destruct (differs first final); simpl; split.
    + intros H. apply (f_equal length) in H. simpl in H.
      rewrite length_app in H. simpl in H. lia.
    + intros [H | H]; discriminate.
    + now left.
    + reflexivity.
Qed.

(** X10: the reply of [POST /api/fields] echoes the polygon of the request,
    while the stored one is the converted ring; what the list route later
    shows equals the polygon sent exactly when it was a closed ring of at
    least three vertices or was empty. *)
Theorem post_echo_and_listing (insert log : Delivery) (date : string) (user : UserId)
    (body : FieldBody) (st st' : Store) (c : CreatedField) :
  postFields insert log date user body st = (inr c, st') ->
  created_polygon c = new_polygon body /\
  forall p, new_polygon body = Some p ->
    listed_polygon (transformField (created_id c, created_row c)) =
      fromGeoJSONPolygon (toGeoJSONPolygon p) /\
    (listed_polygon (transformField (created_id c, created_row c)) = p <->
     closedRing p = true \/ p = []).
Proof.
  intros H. apply postFields_created in H as (n & Hn & -> & -> & Hf).
  split; [reflexivity |]. intros p Hp.
  assert (E : listed_polygon
                (transformField (next_id st, newField user body date n)) =
              fromGeoJSONPolygon (toGeoJSONPolygon p)).
  { unfold transformField, newField. simpl. now rewrite Hp. }
  cbn [created_id created_row]. split; [exact E |].
  destruct (polygon_round_trip_iff p) as [A B].
  split; intros H.
  - apply A. exact (eq_trans (eq_sym E) H).
  - apply B in H. exact (eq_trans E H).
Qed.

Lemma post_echo_and_listing_witness :
  new_polygon wheatField = Some closedTriangle /\
  listed_polygon
    (transformField (0%N, newField 1%N wheatField "2024-06-30T10:00:00.000Z" "North")) =
  closedTriangle.
Proof.
  split; [reflexivity |].
  exact (proj1 (proj2 (post_echo_and_listing Delivered Delivered "2024-06-30T10:00:00.000Z"
                         1%N wheatField emptyStore oneField _ eq_refl)
                  closedTriangle eq_refl)).
Defined.

(** X11: [POST /api/fields] answers with an error exactly when the insert
    is not carried out or the request has no name, and then the store is
    as it was.  A failing activity-log write is not noticed: the reply is
    the created field, the field is in the store, and the log has no
    entry for it. *)
Theorem post_fields_failure (insert log : Delivery) (date : string) (user : UserId)
    (body : FieldBody) (st : Store) :
  ((exists h, fst (postFields insert log date user body st) = inl h) <->
     insert <> Delivered \/ new_name body = None) /\
  (forall h, fst (postFields insert log date user body st) = inl h ->
     snd (postFields insert log date user body st) = st) /\
  (forall n e, insert = Delivered -> new_name body = Some n -> log = Failed e ->
     exists c, fst (postFields insert log date user body st) = inr c /\
       created_row c = newField user body date n /\
       fields (snd (postFields insert log date user body st)) !! created_id c =
         Some (created_row c) /\
       activity_log (snd (postFields insert log date user body st)) = activity_log st).
Proof.
  unfold postFields, createField, createFieldHandler, bind, await_insert_field.
  split; [| split].
  - destruct insert as [| e0]; [destruct (new_name body) as [n |] |]; run.
    + destruct log; run; split.
      * intros [h H]; discriminate.
      * intros [H | H]; congruence.
      * intros [h H]; discriminate.
      * intros [H | H]; congruence.
    + split; [now right | eauto].
    + split; [left; discriminate | eauto].
  - intros h. destruct insert as [| e0]; [destruct (new_name body) as [n |] |]; run;
      try reflexivity.
    destruct log; run; discriminate.
  - intros n e -> -> ->. run. eexists. split; [reflexivity |].
    split; [reflexivity |]. split; [apply lookup_insert_eq | reflexivity].
Qed.

Lemma deleteFields_store (log : Delivery) (user : UserId) (id : FieldId) (st : Store) :
  fields (snd (deleteFields Delivered log user id st)) = fields (db_delete_field user id st) /\
  analyses (snd (deleteFields Delivered log user id st)) =
    analyses (db_delete_field user id st).
Proof.
  unfold deleteFields, deleteField, bind, await_delete, await_write.
  destruct log; run; now split.
Qed.

(** X12: when the delete is carried out on a field of the caller, the
    field is gone and so is every analysis of it, while every other field
    and the analyses of the other fields stay as they were. *)
Theorem delete_own_field (log : Delivery) (user : UserId) (id : FieldId) (st : Store)
    (f : FieldRow) :
  fields st !! id = Some f -> user_id f = user ->
  fields (snd (deleteFields Delivered log user id st)) !! id = None /\
  (forall a, a ∈ analyses (snd (deleteFields Delivered log user id st)) ->
     a_field_id a <> id) /\
  (forall j, j <> id ->
     fields (snd (deleteFields Delivered log user id st)) !! j = fields st !! j) /\
  (forall a, a_field_id a <> id ->
     (a ∈ analyses (snd (deleteFields Delivered log user id st)) <-> a ∈ analyses st)).
Proof.
  intros Hf Hu. destruct (deleteFields_store log user id st) as [-> ->].
  unfold db_delete_field. rewrite (select_field_own user id st f Hf Hu). simpl.
  split; [apply lookup_delete_eq |]. split; [| split].
  - intros a Ha. now apply list_elem_of_filter in Ha as [Hne _].
  - intros j Hj. now apply lookup_delete_ne.
  - intros a Ha. rewrite list_elem_of_filter. tauto.
Qed.

Lemma delete_own_field_witness :
  fields (snd (deleteFields Delivered Delivered 1%N 0%N staleStore)) !! 0%N = None /\
  analyses (snd (deleteFields Delivered Delivered 1%N 0%N staleStore)) = [].
Proof.
  destruct (delete_own_field Delivered 1%N 0%N staleStore
              (newField 1%N wheatField "2024-06-30T10:00:00.000Z" "North")
              eq_refl eq_refl) as (H & _).
  split; [exact H | reflexivity].
Defined.

(** X13: a delete of a field that does not exist or belongs to another
    user is answered with success, and logged as a deletion, although it
    removes no field and no analysis. *)
Theorem delete_foreign_field (log : Delivery) (user : UserId) (id : FieldId) (st : Store) :
  db_select_field user (Some id) st = None ->
  fst (deleteFields Delivered log user id st) = inr true /\
  fields (snd (deleteFields Delivered log user id st)) = fields st /\
  analyses (snd (deleteFields Delivered log user id st)) = analyses st /\
  (log = Delivered ->
   activity_log (snd (deleteFields Delivered log user id st)) =
     {| log_user_id := user; log_type := "delete_field"; log_details := FieldRemoved id |}
     :: activity_log st).
Proof.
  intros Hnone. destruct (deleteFields_store log user id st) as [-> ->].
  assert (E : db_delete_field user id st = st).
  { unfold db_delete_field. now rewrite Hnone. }
  rewrite E. split; [| split; [reflexivity | split; [reflexivity |]]].
  - unfold deleteFields, deleteField, bind, await_delete, await_write.
    destruct log; reflexivity.
  - intros ->. unfold deleteFields, deleteField, bind, await_delete, await_write.
    run. now rewrite E.
Qed.

Lemma delete_foreign_field_witness :
  fst (deleteFields Delivered Delivered 2%N 0%N oneField) = inr true /\
  fields (snd (deleteFields Delivered Delivered 2%N 0%N oneField)) = fields oneField.
Proof.
  destruct (delete_foreign_field Delivered 2%N 0%N oneField eq_refl)
    as (H1 & H2 & _).
  now split.
Defined.

(** ** The history route *)

Lemma Qle_bool_false (a b : Q) : Qle_bool a b = false -> (b < a)%Q.
Proof.
  intros H. apply Qnot_le_lt. intros Hle. apply Qle_bool_iff in Hle. congruence.
Qed.

Lemma Qlt_bool_false (a b : Q) : (b <= a)%Q -> Qlt_bool a b = false.
Proof. intros H. unfold Qlt_bool. apply Qle_bool_iff in H. now rewrite H. Qed.

(** Turn the tests of [Math.max], [Math.min] and [<] into inequalities. *)
Ltac by_tests :=
  unfold Math_max, Math_min, Qlt_bool in *;
  repeat match goal with
  | |- context [Qle_bool ?a ?b] =>
      let E := fresh "E" in
      destruct (Qle_bool a b) eqn:E;
      [apply Qle_bool_iff in E | apply Qle_bool_false in E]; cbn [negb] in *
  | H : context [Qle_bool ?a ?b] |- _ =>
      let E := fresh "E" in
      destruct (Qle_bool a b) eqn:E;
      [apply Qle_bool_iff in E | apply Qle_bool_false in E]; cbn [negb] in *
  end.

Lemma clamp_bounds (lo hi x : Q) :
  (lo <= hi)%Q -> (lo <= Math_max lo (Math_min hi x) /\ Math_max lo (Math_min hi x) <= hi)%Q.
Proof. intros H. by_tests; split; lra. Qed.

Lemma round_bounds (lo hi : Z) (x : Q) :
  (inject_Z lo <= x)%Q -> (x <= inject_Z hi)%Q ->
  (lo <= Qfloor (x + (1 # 2)) <= hi)%Z.
Proof.
  intros Hlo Hhi. split.
  - rewrite <- (Qfloor_Z lo). apply Qfloor_resp_le. lra.
  - assert (H : (inject_Z (Qfloor (x + (1 # 2))) < inject_Z (hi + 1))%Q).
    { eapply Qle_lt_trans; [apply Qfloor_le |].
      rewrite inject_Z_plus. change (inject_Z 1) with 1%Q. lra. }
    rewrite <- Zlt_Qlt in H. lia.
Qed.

Lemma Math_round_within (lo hi : Z) (x : Q) :
  (inject_Z lo <= x)%Q -> (x <= inject_Z hi)%Q ->
  within (inject_Z lo) (inject_Z hi) (Math_round (Num x)).
Proof.
  intros Hlo Hhi. destruct (round_bounds lo hi x Hlo Hhi) as [H1 H2].
  simpl. split; now rewrite <- Zle_Qle.
Qed.

Lemma toFixed_within (digits : nat) (lo hi : Z) (x : Q) :
  (0 <= lo)%Z ->
  let scale := inject_Z (10 ^ Z.of_nat digits) in
  (inject_Z lo / scale <= x)%Q -> (x <= inject_Z hi / scale)%Q ->
  (inject_Z hi / scale < inject_Z (10 ^ 21))%Q ->
  (inject_Z lo / scale <= toFixed digits x /\ toFixed digits x <= inject_Z hi / scale)%Q.
Proof.
  intros Hlo0 scale Hlo Hhi Hbig.
  assert (Hs : (0 < scale)%Q).
  { unfold scale. rewrite <- (Zlt_Qlt 0). apply Z.pow_pos_nonneg; lia. }
  assert (Hx0 : (0 <= x)%Q).
  { eapply Qle_trans; [| exact Hlo]. apply Qle_shift_div_l; [exact Hs |].
    rewrite Qmult_0_l. now rewrite <- (Zle_Qle 0). }
  unfold toFixed. fold scale.
  assert (Hf : Qfloor (Qabs x * scale + (1 # 2)) = Qfloor (x * scale + (1 # 2))).
  { apply Qfloor_comp. now rewrite (Qabs_pos x Hx0). }
  rewrite Hf.
  destruct (Qle_bool (inject_Z (10 ^ 21)) (Qabs x)) eqn:Ebig.
  { apply Qle_bool_iff in Ebig. rewrite (Qabs_pos x Hx0) in Ebig. lra. }
  assert (E0 : Qle_bool 0 x = true) by now apply Qle_bool_iff.
  rewrite E0.
  assert (Hne : ~ (scale == 0)%Q) by lra.
  assert (H1 : (inject_Z lo <= x * scale)%Q).
  { setoid_replace (inject_Z lo) with (inject_Z lo / scale * scale)%Q
      using relation Qeq by (field; exact Hne).
    now apply Qmult_le_r. }
  assert (H2 : (x * scale <= inject_Z hi)%Q).
  { setoid_replace (inject_Z hi) with (inject_Z hi / scale * scale)%Q
      using relation Qeq by (field; exact Hne).
    now apply Qmult_le_r. }
  destruct (round_bounds lo hi (x * scale) H1 H2) as [Hn1 Hn2].
  rewrite Zle_Qle in Hn1, Hn2.
  split.
  - apply Qle_shift_div_l; [exact Hs |].
    setoid_replace (inject_Z lo / scale * scale)%Q with (inject_Z lo)
      using relation Qeq by (field; exact Hne).
    exact Hn1.
  - apply Qle_shift_div_r; [exact Hs |].
    setoid_replace (inject_Z hi / scale * scale)%Q with (inject_Z hi)
      using relation Qeq by (field; exact Hne).
    exact Hn2.
Qed.

(** X14: for a seasonal factor in [-1,1] and draws in [0,1), a mock entry
    of the history has its index in [0.1,0.95], its moisture in [10,90]
    and its temperature in [-15,35], and its alert flag is never set: the
    noise is at least -0.2, and the alert asks for more than 0.2 below the
    base value. *)
Theorem mock_entry_bounds (i : nat) (m : MockInput) :
  valid_mock m ->
  within 0.1 0.95 (h_ndvi_average (mockEntry i m)) /\
  within 10 90 (h_moisture (mockEntry i m)) /\
  within (-15) 35 (h_temp (mockEntry i m)) /\
  h_alert (mockEntry i m) = false /\
  h_is_mock (mockEntry i m) = true.
Proof.
  intros ((Hs1 & Hs2) & (Hn1 & Hn2) & (Hp1 & Hp2) & (Hm1 & Hm2) & (Ht1 & Ht2)).
  split; [| split; [| split; [| split; [| reflexivity]]]].
  - unfold mockEntry. cbn [h_ndvi_average within].
    set (x := Math_max 0.1 (Math_min 0.95 _)).
    destruct (clamp_bounds 0.1 0.95
                (0.5 + seasonalFactor m * 0.35 +
                 (if Qlt_bool 0.85 (draw_spike m)
                  then draw_noise m * 0.1 - 0.05 - 0.15
                  else draw_noise m * 0.1 - 0.05))) as [Hlo Hhi];
      [apply Qle_bool_iff; reflexivity |].
    fold x in Hlo, Hhi.
    destruct (toFixed_within 2 10 95 x) as [H1 H2]; try lia.
    + eapply Qle_trans; [| exact Hlo]. apply Qle_lteq. right. reflexivity.
    + eapply Qle_trans; [exact Hhi |]. apply Qle_lteq. right. reflexivity.
    + reflexivity.
    + split.
      * eapply Qle_trans; [| exact H1]. apply Qle_lteq. right. reflexivity.
      * eapply Qle_trans; [exact H2 |]. apply Qle_lteq. right. reflexivity.
  - unfold mockEntry. cbn [h_moisture].
    apply (Math_round_within 10 90); apply clamp_bounds; apply Qle_bool_iff; reflexivity.
  - unfold mockEntry. cbn [h_temp].
    apply (Math_round_within (-15) 35);
      change (inject_Z (-15)) with (-15)%Q; change (inject_Z 35) with 35%Q; lra.
  - unfold mockEntry. cbn [h_alert]. apply Qlt_bool_false.
    by_tests; lra.
Qed.

Lemma mock_entry_bounds_witness : h_alert (mockEntry 0 julyRound) = false.
Proof.
  refine (proj1 (proj2 (proj2 (proj2 (mock_entry_bounds 0 julyRound _))))).
  unfold valid_mock, unit_draw; simpl. repeat split; discriminate.
Defined.

Lemma assemble_base (cfg : Config) (w : World) (fieldData : option FieldRow) :
  base (assemble cfg w fieldData) = analysisBase cfg (imagery w) (draws w).
Proof. reflexivity. Qed.

Lemma analysisBase_shares (cfg : Config) (reply : ImageryReply) (d : Draws) :
  valid_draws d ->
  within 65 85 (healthy_percent (analysisBase cfg reply d)) /\
  within 5 10 (stressed_percent (analysisBase cfg reply d)).
Proof.
  intros (_ & Hh & _ & Hs & _). unfold analysisBase, imageryBase.
  destruct (_ && _); [destruct reply |]; cbn [healthy_percent stressed_percent];
    try (split; [apply (within_eq 65 (65 + 20)); [reflexivity |];
                 now apply (unit_draw_band 65 20)
                | apply (within_eq 5 (5 + 5)); [reflexivity |];
                  now apply (unit_draw_band 5 5)]).
  split; simpl; split; discriminate.
Qed.



Lemma insertByDate_perm (e : HistoryEntry) (l : list HistoryEntry) :
  insertByDate e l ≡ₚ e :: l.
Proof.
  induction l as [| x l IH]; [reflexivity |]. simpl.
  destruct (h_date e <=? h_date x)%Z; [reflexivity |].
  rewrite IH. apply Permutation_swap.
Qed.

Lemma sortByDate_perm (l : list HistoryEntry) : sortByDate l ≡ₚ l.
Proof.
  induction l as [| x l IH]; [reflexivity |].
  unfold sortByDate. simpl. rewrite insertByDate_perm. now constructor.
Qed.

Lemma insertByDate_sorted (e : HistoryEntry) (l : list HistoryEntry) :
  Sorted byDate l -> Sorted byDate (insertByDate e l).
Proof.
  induction l as [| x l IH]; intros Hs; simpl.
  - repeat constructor.
  - destruct (Z.leb_spec (h_date e) (h_date x)) as [Hle | Hgt].
    + constructor; [exact Hs |]. now constructor.
    + inversion Hs as [| ? ? Hl Hhd]; subst. constructor; [now apply IH |].
      destruct l as [| y l]; simpl.
      * constructor. unfold byDate. lia.
      * destruct (h_date e <=? h_date y)%Z; constructor; unfold byDate.
        -- lia.
        -- now inversion Hhd.
Qed.

Lemma sortByDate_sorted (l : list HistoryEntry) : Sorted byDate (sortByDate l).
Proof.
  induction l as [| x l IH]; [constructor |].
  unfold sortByDate. simpl. now apply insertByDate_sorted.
Qed.

Lemma mockHistory_length (inputs : nat -> MockInput) : length (mockHistory inputs) = 104%nat.
Proof. unfold mockHistory. now rewrite length_rev, length_map, length_seq. Qed.

Lemma mockHistory_is_mock (inputs : nat -> MockInput) (e : HistoryEntry) :
  e ∈ mockHistory inputs -> h_is_mock e = true.
Proof.
  unfold mockHistory. rewrite list_elem_of_In, <- in_rev, <- list_elem_of_In.
  rewrite list_elem_of_fmap. now intros (i & -> & _).
Qed.

Lemma realEntry_not_mock (rows : list StoredAnalysis) (e : HistoryEntry) :
  e ∈ map realEntry rows -> h_is_mock e = false.
Proof. rewrite list_elem_of_fmap. now intros (a & -> & _). Qed.

Lemma storedAnalyses_foreign (user : UserId) (id : FieldId) (meta : nat -> N * Z)
    (st : Store) :
  db_select_field user (Some id) st = None -> storedAnalyses user id meta st = [].
Proof. intros H. unfold storedAnalyses, db_select_analyses. now rewrite H. Qed.

(** X16: the history reply is in the order of its dates and is made of the
    104 mock entries and one entry for each analysis the select returns,
    no more and no fewer.  For a field that does not exist or belongs to
    another user the select returns nothing, so every entry is a mock one;
    when the select fails the reply is still sent, with the mock part
    alone. *)
Theorem history_reply (user : UserId) (id : FieldId) (meta : nat -> N * Z)
    (inputs : nat -> MockInput) (st : Store) :
  Sorted byDate (getHistory Delivered user id meta inputs st) /\
  getHistory Delivered user id meta inputs st ≡ₚ
    (mockHistory inputs ++ map realEntry (storedAnalyses user id meta st))%list /\
  length (getHistory Delivered user id meta inputs st) =
    (104 + length (db_select_analyses user id st))%nat /\
  (db_select_field user (Some id) st = None ->
   forall e, e ∈ getHistory Delivered user id meta inputs st -> h_is_mock e = true) /\
  (forall f, fields st !! id = Some f -> user_id f = user ->
   length (getHistory Delivered user id meta inputs st) =
     (104 + length (filter (fun a => a_field_id a = id) (analyses st)))%nat) /\
  (forall err,
     Sorted byDate (getHistory (Failed err) user id meta inputs st) /\
     getHistory (Failed err) user id meta inputs st ≡ₚ mockHistory inputs /\
     length (getHistory (Failed err) user id meta inputs st) = 104%nat /\
     forall e, e ∈ getHistory (Failed err) user id meta inputs st -> h_is_mock e = true).
Proof.
  cbn [getHistory]. fold (storedAnalyses user id meta st).
  assert (Hlen : length (sortByDate (mockHistory inputs ++
                           map realEntry (storedAnalyses user id meta st))) =
                 (104 + length (db_select_analyses user id st))%nat).
  { rewrite sortByDate_perm, length_app, mockHistory_length, length_map.
    unfold storedAnalyses. now rewrite length_imap. }
  split; [apply sortByDate_sorted |]. split; [apply sortByDate_perm |].
  split; [exact Hlen |]. split; [| split].
  - intros Hnone e. rewrite sortByDate_perm.
    rewrite (storedAnalyses_foreign user id meta st Hnone).
    change (map realEntry []) with (@nil HistoryEntry).
    rewrite app_nil_r. apply mockHistory_is_mock.
  - intros f Hf Hu. rewrite Hlen. unfold db_select_analyses.
    now rewrite (select_field_own user id st f Hf Hu), length_rev.
  - intros err. split; [apply sortByDate_sorted |].
    split; [now rewrite sortByDate_perm, app_nil_r |].
    split; [now rewrite sortByDate_perm, app_nil_r, mockHistory_length |].
    intros e. rewrite sortByDate_perm, app_nil_r. apply mockHistory_is_mock.
Qed.

(** ** The chat route *)



(** ** The dashboard and the analysis view *)

Lemma produced_critical (f : ListedField) :
  producedSnapshot (last_analysis (listed_row f)) -> isCritical f = neverAnalysed f.
Proof.
  unfold isCritical, neverAnalysed.
  destruct (last_analysis (listed_row f)) as [date | r date]; [reflexivity |].
  intros (cfg & w & fieldData & Hd & ->). cbn [snapshot_healthy_percent].
  rewrite assemble_base.
  destruct (analysisBase_shares cfg (imagery w) (draws w) Hd) as [Hh _].
  destruct (healthy_percent _) as [q |]; [| contradiction].
  simpl in Hh. cbn [wire toNumber]. unfold JS.lt, of_Z.
  apply negb_false_iff, Qle_bool_iff. change (inject_Z 50) with 50%Q. lra.
Qed.

Lemma alert_partition (l : list ListedField) :
  (length (filter (fun f => isAlert f = false) l) +
   length (filter (fun f => isAlert f = true) l) = length l)%nat.
Proof.
  induction l as [| f l IH]; [reflexivity |].
  rewrite !filter_cons. destruct (isAlert f) eqn:E.
  - destruct (decide (true = false)) as [? | _]; [discriminate |].
    destruct (decide (true = true)) as [_ | ?]; [| congruence].
    simpl. lia.
  - destruct (decide (false = false)) as [_ | ?]; [| congruence].
    destruct (decide (false = true)) as [? | _]; [discriminate |].
    simpl. lia.
Qed.

Lemma critical_count (l : list ListedField) :
  Forall (fun f => producedSnapshot (last_analysis (listed_row f))) l ->
  length (filter (fun f => isCritical f = true) l) =
  length (filter (fun f => neverAnalysed f = true) l).
Proof.
  induction 1 as [| f l Hf _ IH]; [reflexivity |].
  rewrite !filter_cons, (produced_critical f Hf).
  destruct (decide (neverAnalysed f = true)); simpl; now rewrite IH.
Qed.

(** X18: on the dashboard every field is counted either as healthy or as
    needing attention.  For fields whose snapshots come from the server
    (with draws in [0,1)), the critical count is the number of fields that
    were never analysed: the snapshot of a new field has a healthy share
    of 0, so the field counts as healthy and as critical at once, and an
    analysed field has a healthy share of at least 65. *)
Theorem dashboard_counts (l : list ListedField) :
  Forall (fun f => producedSnapshot (last_analysis (listed_row f))) l ->
  (healthy (dashboardStats l) + attention (dashboardStats l) = total (dashboardStats l))%nat /\
  critical (dashboardStats l) = length (filter (fun f => neverAnalysed f = true) l) /\
  (forall f, neverAnalysed f = true -> isAlert f = false /\ isCritical f = true).
Proof.
  intros H. split; [apply alert_partition |]. split; [now apply critical_count |].
  intros f. unfold neverAnalysed, isAlert, isCritical.
  destruct (last_analysis (listed_row f)); [now split | discriminate].
Qed.

Lemma dashboard_counts_witness :
  critical (dashboardStats [transformField (0%N, newField 1%N wheatField
                                              "2024-06-30T10:00:00.000Z" "North")]) = 1%nat.
Proof.
  refine (eq_trans (proj1 (proj2 (dashboard_counts _ _))) _); [| reflexivity].
  repeat constructor.
Defined.

Lemma truthy_toJSON (n : jsnum) : truthy (Some (toJSON n)) = usable n.
Proof. now destruct n. Qed.

(** X19: the analysis view sends the listed coordinates of the field, so
    for a field that was created with a latitude or longitude of 0 (or one
    that is no number) the request it sends is turned down by the
    validation and nothing is stored; when both listed coordinates are
    numbers other than 0 the request passes the validation. *)
Theorem listed_field_analysis (insert log : Delivery) (date : string) (user : UserId)
    (body : FieldBody) (st st' : Store) (c : CreatedField) :
  postFields insert log date user body st = (inr c, st') ->
  let request := runAnalysis (transformField (created_id c, created_row c)) in
  (usable (lat (finalCoordinates body)) && usable (lon (finalCoordinates body)) = false ->
     forall cfg w, analyze cfg w user request st' = (Failure 500 coordinatesRequired, st')) /\
  (usable (lat (finalCoordinates body)) && usable (lon (finalCoordinates body)) = true ->
     valid_coordinates request = true /\ field_id request = Some (created_id c)).
Proof.
  intros H request. apply postFields_created in H as (n & Hn & -> & -> & Hf).
  cbn [created_id created_row] in *.
  assert (Hv : valid_coordinates request =
               usable (lat (finalCoordinates body)) && usable (lon (finalCoordinates body))).
  { unfold valid_coordinates, request, runAnalysis. cbn [body_lat body_lon].
    rewrite !truthy_toJSON. unfold transformField. cbn [listed_coordinates snd].
    now rewrite newField_coordinates. }
  split.
  - intros Hz cfg w. apply analyze_rejects. rewrite <- Hv in Hz.
    unfold valid_coordinates in Hz. now apply andb_false_iff in Hz.
  - intros Hok. split; [congruence | reflexivity].
Qed.

Lemma listed_field_analysis_witness :
  analyze noProviders quietWorld 1%N
    (runAnalysis (transformField (0%N, newField 1%N equatorField
                                         "2024-06-30T10:00:00.000Z" "Equator")))
    (snd (postFields Delivered Delivered "2024-06-30T10:00:00.000Z" 1%N equatorField
            emptyStore)) =
  (Failure 500 coordinatesRequired,
   snd (postFields Delivered Delivered "2024-06-30T10:00:00.000Z" 1%N equatorField
          emptyStore)).
Proof.
  exact (proj1 (listed_field_analysis Delivered Delivered "2024-06-30T10:00:00.000Z" 1%N
                  equatorField emptyStore _ _ eq_refl)
           eq_refl noProviders quietWorld).
Defined.
